(** * avocado/classifier.py: weighting, cross-validation and scoring

    A shallow embedding of the weighting policies, the weighted multi-class
    log-loss, the k-fold training loops and the neural training loop of
    [avocado/classifier.py], with the properties the specification states
    about them.

    Conventions of the embedding.
    - A pandas Series or numpy vector is a [list], aligned by position (the
      Series all carry the index of [dataset.metadata]).
    - Class labels are integers ([Z]); [np.unique] sorts them increasingly.
    - A Python [dict] is a stdpp [gmap].
    - Floating-point numbers are idealised: finite values are real numbers
      with exact arithmetic (no rounding, no overflow, one zero), and the
      IEEE special values a division by zero or a logarithm produce are kept
      ([xfloat]).
    - An exception is a value of [exn]; a function that may raise returns a
      [result]. *)

From stdpp Require Import gmap strings pretty.
From Stdlib Require Import Strings.String.
From Stdlib Require Import Reals Lra Lia List ZArith Bool Sorted Permutation.
Import ListNotations.

(** ** Exceptions and results *)

Definition class_name := Z.

Inductive exn : Type :=
| AvocadoException (c : class_name)   (* "No predictions available for class %s!" *)
| KeyError (c : class_name)           (* class_weights[class_name] on a missing key *)
| IndexError (i : Z)                  (* numpy index out of bounds *)
| ValueError                          (* shape mismatch, np.max of an empty array *)
| UnboundLocalError                   (* a local never assigned *)
| ZeroDivisionError                   (* integer modulo or division by zero *)
| TypeError                           (* calling None *)
| FileNotFoundError.                  (* torch.load on a path never written *)

Inductive result (A : Type) : Type :=
| Return (a : A)
| Raise (e : exn).
Arguments Return {A} a.
Arguments Raise {A} e.

Definition bind {A B : Type} (m : result A) (k : A -> result B) : result B :=
  match m with
  | Return a => k a
  | Raise e => Raise e
  end.

Notation "'try' x '<-' m 'in' k" := (bind m (fun x => k))
  (at level 10, x name, m at level 100, k at level 200).

Definition raises {A : Type} (m : result A) : Prop := exists e, m = Raise e.

(** ** numpy and pandas primitives *)

Module Np.

Open Scope R_scope.

(** Idealised floating-point values. *)
Inductive xfloat : Type :=
| Fin (r : R)
| PInf
| NInf
| NaN.

(** The infinity with the sign of [r]; [NaN] for [r = 0]. *)
Definition inf_of_sign (r : R) : xfloat :=
  match total_order_T r 0 with
  | inleft (left _) => NInf
  | inleft (right _) => NaN
  | inright _ => PInf
  end.

Definition xadd (x y : xfloat) : xfloat :=
  match x, y with
  | NaN, _ | _, NaN => NaN
  | Fin a, Fin b => Fin (a + b)
  | PInf, NInf | NInf, PInf => NaN
  | PInf, _ | _, PInf => PInf
  | NInf, _ | _, NInf => NInf
  end.

Definition xmul (x y : xfloat) : xfloat :=
  match x, y with
  | NaN, _ | _, NaN => NaN
  | Fin a, Fin b => Fin (a * b)
  | Fin a, PInf | PInf, Fin a => inf_of_sign a
  | Fin a, NInf | NInf, Fin a => inf_of_sign (- a)
  | PInf, PInf | NInf, NInf => PInf
  | PInf, NInf | NInf, PInf => NInf
  end.

Definition xdiv (x y : xfloat) : xfloat :=
  match x, y with
  | NaN, _ | _, NaN => NaN
  | Fin a, Fin b => if Req_dec_T b 0 then inf_of_sign a else Fin (a / b)
  | Fin _, (PInf | NInf) => Fin 0
  | PInf, Fin b => if Rlt_dec b 0 then NInf else PInf
  | NInf, Fin b => if Rlt_dec b 0 then PInf else NInf
  | (PInf | NInf), (PInf | NInf) => NaN
  end.

(** [np.log]: minus infinity at zero, NaN below. *)
Definition np_log (p : R) : xfloat :=
  if Rlt_dec 0 p then Fin (ln p)
  else if Req_dec_T p 0 then NInf else NaN.

(** [np.sum] of a vector of finite values. *)
Definition sum (l : list R) : R := fold_right Rplus 0 l.

(** [Series.sum()], which is what [np.sum] of a Series calls: NaN entries
    are skipped ([skipna=True]). *)
Definition series_sum (l : list xfloat) : xfloat :=
  fold_right (fun x acc => match x with NaN => acc | _ => xadd x acc end) (Fin 0) l.

(** [np.unique]: the sorted distinct values. *)
Fixpoint insert_unique (x : Z) (l : list Z) : list Z :=
  match l with
  | [] => [x]
  | y :: l' =>
      if (x <? y)%Z then x :: l
      else if (x =? y)%Z then l
      else y :: insert_unique x l'
  end.

Definition unique (l : list Z) : list Z := fold_right insert_unique [] l.

(** [xs == c], a boolean mask. *)
Definition eq_mask (xs : list Z) (c : Z) : list bool := map (fun x => (x =? c)%Z) xs.

(** [xs != c]. *)
Definition ne_mask (xs : list Z) (c : Z) : list bool := map (fun x => negb (x =? c)%Z) xs.

(** [np.sum(mask)]: how many entries are true. *)
Definition count_true (mask : list bool) : nat := length (filter (fun b : bool => b) mask).

(** [xs[mask]]. *)
Fixpoint mask_select {A : Type} (mask : list bool) (xs : list A) : list A :=
  match mask, xs with
  | b :: mask', x :: xs' =>
      if b then x :: mask_select mask' xs' else mask_select mask' xs'
  | _, _ => []
  end.

(** [xs[mask] = v] for a scalar [v]. *)
Fixpoint mask_fill {A : Type} (mask : list bool) (xs : list A) (v : A) : list A :=
  match mask, xs with
  | b :: mask', x :: xs' => (if b then v else x) :: mask_fill mask' xs' v
  | _, _ => xs
  end.

(** [xs[mask] = vs] for a vector [vs] with one value per selected
    position, in order. *)
Fixpoint mask_assign {A : Type} (mask : list bool) (xs vs : list A) : list A :=
  match mask, xs with
  | b :: mask', x :: xs' =>
      if b then
        match vs with
        | v :: vs' => v :: mask_assign mask' xs' vs'
        | [] => xs
        end
      else x :: mask_assign mask' xs' vs
  | _, _ => xs
  end.

(** Elementwise binary operation on two aligned vectors. *)
Fixpoint zip_with {A B C : Type} (f : A -> B -> C) (xs : list A) (ys : list B) : list C :=
  match xs, ys with
  | x :: xs', y :: ys' => f x y :: zip_with f xs' ys'
  | _, _ => []
  end.

(** A [pandas.DataFrame] of finite values: the column labels and the rows,
    each row with one cell per column. *)
Record DataFrame : Type := {
  columns : list class_name;
  rows : list (list R)
}.

Fixpoint index_of (c : class_name) (cols : list class_name) : option nat :=
  match cols with
  | [] => None
  | c' :: cols' => if (c =? c')%Z then Some O else option_map S (index_of c cols')
  end.

(** [df[c]], once [c in df.columns] is known. *)
Definition column (df : DataFrame) (c : class_name) : option (list R) :=
  match index_of c (columns df) with
  | Some j => Some (map (fun row => nth j row 0) (rows df))
  | None => None
  end.

End Np.

Import Np.
Open Scope R_scope.

(** ** ScoreEngine: [weighted_multi_logloss] *)

(** What the function returns: the sum, or the per-object contributions
    when [return_object_contributions] is set. *)
Inductive logloss_value : Type :=
| Scalar (x : xfloat)
| Contributions (xs : list xfloat).

(** [class_weights.get(class_name, 1)], and [1] without a mapping. *)
Definition get_class_weight (class_weights : option (gmap Z R)) (c : class_name) : R :=
  match class_weights with
  | Some cw => match cw !! c with Some w => w | None => 1 end
  | None => 1
  end.

(** The floor of line 1032: [class_predictions[class_predictions == 0] = 1e-10]. *)
Definition floor_zero (p : R) : R := if Req_dec_T p 0 then / 10 ^ 10 else p.

(** Lines 1006-1012: the weights of the objects of class [c], all [1]
    when no object weights are given. *)
Definition class_object_weights
    (true_classes : list class_name) (object_weights : option (list R))
    (c : class_name) : list R :=
  let class_mask := eq_mask true_classes c in
  let class_count := count_true class_mask in
  match object_weights with
  | Some w => mask_select class_mask w
  | None => repeat 1 class_count
  end.

(** One iteration of the loop over [np.unique(true_classes)]; the state is
    [(object_loglosses, sum_class_weights)]. *)
Definition logloss_class
    (true_classes : list class_name) (predictions : DataFrame)
    (object_weights : option (list R)) (class_weights : option (gmap Z R))
    (st : list xfloat * R) (c : class_name) : result (list xfloat * R) :=
  let '(object_loglosses, sum_class_weights) := st in
  let class_mask := eq_mask true_classes c in
  let class_object_weights := class_object_weights true_classes object_weights c in
  let class_weight := get_class_weight class_weights c in
  if Req_dec_T class_weight 0 then
    Return (mask_fill class_mask object_loglosses (Fin 0), sum_class_weights)
  else
    match column predictions c with
    | None => Raise (AvocadoException c)
    | Some col =>
        let class_predictions := map floor_zero (mask_select class_mask col) in
        let class_loglosses :=
          zip_with
            (fun w p =>
               xdiv (xmul (Fin (- class_weight * w)) (np_log p))
                    (Fin (sum class_object_weights)))
            class_object_weights class_predictions in
        Return (mask_assign class_mask object_loglosses class_loglosses,
                sum_class_weights + class_weight)
    end.

Fixpoint logloss_loop
    (true_classes : list class_name) (predictions : DataFrame)
    (object_weights : option (list R)) (class_weights : option (gmap Z R))
    (classes : list class_name) (st : list xfloat * R) : result (list xfloat * R) :=
  match classes with
  | [] => Return st
  | c :: classes' =>
      try st' <- logloss_class true_classes predictions object_weights class_weights st c in
      logloss_loop true_classes predictions object_weights class_weights classes' st'
  end.

Definition weighted_multi_logloss
    (true_classes : list class_name) (predictions : DataFrame)
    (object_weights : option (list R)) (class_weights : option (gmap Z R))
    (return_object_contributions : bool) : result logloss_value :=
  let object_loglosses := repeat (Fin (10 ^ 10)) (length true_classes) in
  let sum_class_weights := 0 in
  try st <- logloss_loop true_classes predictions object_weights class_weights
              (unique true_classes) (object_loglosses, sum_class_weights) in
  let '(object_loglosses, sum_class_weights) := st in
  let object_loglosses := map (fun x => xdiv x (Fin sum_class_weights)) object_loglosses in
  if return_object_contributions then Return (Contributions object_loglosses)
  else Return (Scalar (series_sum object_loglosses)).


(** *** The metric as the specification words it

    Object by object: the class weight, the object weight, the predicted
    probability of the true class floored at [1e-10], the sum of the object
    weights of the class; then the division by the sum of the weights of the
    classes that count. *)

(** An object of the scored table: its true class, its weight and its row
    of predictions. *)
Record scored : Type := {
  s_class : class_name;
  s_weight : R;
  s_row : list R
}.

Fixpoint zip_scored (tc : list class_name) (w : list R) (rs : list (list R)) : list scored :=
  match tc, w, rs with
  | c :: tc', x :: w', r :: rs' =>
      {| s_class := c; s_weight := x; s_row := r |} :: zip_scored tc' w' rs'
  | _, _, _ => []
  end.

Definition scored_objects
    (true_classes : list class_name) (predictions : DataFrame)
    (object_weights : option (list R)) : list scored :=
  let w := match object_weights with
           | Some w => w
           | None => repeat 1 (length true_classes)
           end in
  zip_scored true_classes w (rows predictions).

(** The three inputs describe the same objects. *)
Definition aligned
    (true_classes : list class_name) (predictions : DataFrame)
    (object_weights : option (list R)) : Prop :=
  length (rows predictions) = length true_classes /\
  match object_weights with
  | Some w => length w = length true_classes
  | None => True
  end.

Definition nonzero_weight (class_weights : option (gmap Z R)) (c : class_name) : bool :=
  if Req_dec_T (get_class_weight class_weights c) 0 then false else true.

(** The predicted probability of the true class of [o]. *)
Definition true_class_probability (cols : list class_name) (o : scored) : R :=
  match index_of (s_class o) cols with
  | Some j => nth j (s_row o) 0
  | None => 0
  end.

(** The sum of the object weights within class [c]. *)
Definition class_total_weight (objs : list scored) (c : class_name) : R :=
  sum (map s_weight (filter (fun o => (s_class o =? c)%Z) objs)).

(** [-class_weight * object_weight * ln(p) / sum(object weights in the class)]. *)
Definition spec_contribution
    (cols : list class_name) (class_weights : option (gmap Z R))
    (objs : list scored) (o : scored) : R :=
  - get_class_weight class_weights (s_class o) * s_weight o
    * ln (floor_zero (true_class_probability cols o))
    / class_total_weight objs (s_class o).

(** The sum of the class weights of the non-zero-weighted classes present. *)
Definition spec_normalizer
    (true_classes : list class_name) (class_weights : option (gmap Z R)) : R :=
  sum (map (get_class_weight class_weights)
           (filter (nonzero_weight class_weights) (unique true_classes))).

Definition spec_logloss
    (true_classes : list class_name) (predictions : DataFrame)
    (object_weights : option (list R)) (class_weights : option (gmap Z R)) : R :=
  let objs := scored_objects true_classes predictions object_weights in
  sum (map (spec_contribution (columns predictions) class_weights objs)
           (filter (fun o => nonzero_weight class_weights (s_class o)) objs))
  / spec_normalizer true_classes class_weights.

(** Deleting the rows of class [c] from the three inputs. *)
Definition drop_class_rows (true_classes : list class_name) (c : class_name)
    {A : Type} (xs : list A) : list A :=
  mask_select (ne_mask true_classes c) xs.

Definition drop_class_frame (true_classes : list class_name) (c : class_name)
    (df : DataFrame) : DataFrame :=
  {| columns := columns df; rows := drop_class_rows true_classes c (rows df) |}.

(** *** The state of the loop, object by object *)

(** What the loop stores for an object of a class it has visited. *)
Definition object_logloss
    (cols : list class_name) (class_weights : option (gmap Z R))
    (objs : list scored) (o : scored) : xfloat :=
  let class_weight := get_class_weight class_weights (s_class o) in
  if Req_dec_T class_weight 0 then Fin 0
  else
    xdiv (xmul (Fin (- class_weight * s_weight o))
               (np_log (floor_zero (true_class_probability cols o))))
         (Fin (class_total_weight objs (s_class o))).

(** The class makes line 1024 raise. *)
Definition lacks_predictions
    (class_weights : option (gmap Z R)) (predictions : DataFrame)
    (c : class_name) : bool :=
  nonzero_weight class_weights c &&
  match index_of c (columns predictions) with Some _ => false | None => true end.

Definition visited (classes : list class_name) (o : scored) : bool :=
  existsb (fun c => (s_class o =? c)%Z) classes.

(** ** The dataset and the settings *)

(** A row of [dataset.metadata]: the object key (the index of the table),
    the class, the columns a key can name and the link of an augmented
    object to its original. *)
Record object_meta : Type := {
  object_id : Z;
  class : class_name;
  float_column : string -> xfloat;     (* a redshift column, NaN where unknown *)
  label_column : string -> Z;          (* a group column *)
  reference_object_id : option Z       (* null for an original object *)
}.

Record Dataset : Type := {
  metadata : list object_meta;
  has_reference_object_id : bool       (* "reference_object_id" in metadata *)
}.

(** A [pandas.Series]: the index and the values, aligned. *)
Record Series (A : Type) : Type := {
  index : list Z;
  values : list A
}.
Arguments index {A} s.
Arguments values {A} s.

(** The entries of [avocado.settings] the module reads. *)
Record Settings : Type := {
  redshift_weighting_group_key : option string;
  redshift_weighting_min_redshift : R;
  redshift_weighting_max_redshift : R;
  redshift_weighting_num_bins : nat;
  redshift_weighting_min_bin_count : R;
  redshift_weighting_redshift_key : string;
  classifier_directory : string
}.

(** ** WeightEngine: [evaluate_weights_flat] *)

(** [Series.value_counts()]: each class present with its number of
    objects. pandas orders the entries by decreasing count; the embedding
    lists them by increasing class, which only decides which of several
    missing keys a [KeyError] names. *)
Definition value_counts (xs : list class_name) : list (class_name * nat) :=
  map (fun c => (c, count_true (eq_mask xs c))) (unique xs).

(** Lines 54-63, one class of the loop: the dict [norm_class_weights]
    gets its entry, or [class_weights[class_name]] raises. *)
Definition flat_class
    (class_weights : option (gmap Z R)) (n_objects : nat)
    (norm_class_weights : gmap Z R) (entry : class_name * nat)
    : result (gmap Z R) :=
  let '(class_name, class_count) := entry in
  try class_weight <-
    match class_weights with
    | Some cw =>
        match cw !! class_name with
        | Some w => Return w
        | None => Raise (KeyError class_name)
        end
    | None => Return 1
    end in
  Return (<[class_name := class_weight * INR n_objects / INR class_count]>
            norm_class_weights).

Fixpoint flat_loop
    (class_weights : option (gmap Z R)) (n_objects : nat)
    (class_counts : list (class_name * nat)) (norm_class_weights : gmap Z R)
    : result (gmap Z R) :=
  match class_counts with
  | [] => Return norm_class_weights
  | entry :: class_counts' =>
      try norm <- flat_class class_weights n_objects norm_class_weights entry in
      flat_loop class_weights n_objects class_counts' norm
  end.

(** [object_classes.map(norm_class_weights)]. A class that is not a key of
    the dict would become NaN; every class of the Series is a key
    ([flat_loop_lookup]), so the second branch is never taken. *)
Definition series_map (norm_class_weights : gmap Z R) (xs : list class_name) : list R :=
  map (fun c => match norm_class_weights !! c with Some w => w | None => 0 end) xs.

Definition evaluate_weights_flat
    (dataset : Dataset) (class_weights : option (gmap Z R)) : result (Series R) :=
  let use_metadata := metadata dataset in
  let object_classes := map class use_metadata in
  let class_counts := value_counts object_classes in
  try norm_class_weights <-
    flat_loop class_weights (length object_classes) class_counts ∅ in
  Return {| index := map object_id use_metadata;
            values := series_map norm_class_weights object_classes |}.

(** The supplied mapping, when there is one, has a multiplier for [c]. *)
Definition listed (class_weights : option (gmap Z R)) (c : class_name) : Prop :=
  match class_weights with
  | Some w => is_Some (w !! c)
  | None => True
  end.

(** A dataset of three objects, two of class [1] and one of class [2]. *)
Definition three_objects : Dataset :=
  {| metadata :=
       map (fun '(i, c) =>
              {| object_id := i; class := c;
                 float_column := fun _ => Fin 0; label_column := fun _ => 0%Z;
                 reference_object_id := None |})
           [(10, 1); (11, 1); (12, 2)]%Z;
     has_reference_object_id := false |}.

(** ** WeightEngine: [evaluate_weights_redshift] *)

Definition np_log10 (x : R) : R := ln x / ln 10.

(** [np.linspace(start, stop, num)], end point included. *)
Definition linspace (start stop : R) (num : nat) : list R :=
  map (fun i => start + INR i * ((stop - start) / INR (num - 1))) (seq 0 num).

(** [np.logspace(start, stop, num)]: [10 ** linspace]. *)
Definition logspace (start stop : R) (num : nat) : list R :=
  map (Rpower 10) (linspace start stop num).

(** Lines 150-160: the logarithmic edges, the first and the last replaced
    by [1e-99] and [1e99], and [-1e99] put in front for the galactic bin. *)
Definition make_redshift_bins (min_redshift max_redshift : R) (num_bins : nat) : list R :=
  let redshift_bins :=
    logspace (np_log10 min_redshift) (np_log10 max_redshift) (num_bins + 1) in
  let redshift_bins := <[ 0%nat := / 10 ^ 99 ]> redshift_bins in
  let redshift_bins := <[ (length redshift_bins - 1)%nat := 10 ^ 99 ]> redshift_bins in
  - 10 ^ 99 :: redshift_bins.

(** [a < v] in the order numpy sorts by, NaN last. *)
Definition sorts_before (a : R) (v : xfloat) : bool :=
  match v with
  | Fin r => if Rlt_dec a r then true else false
  | PInf => true
  | NInf => false
  | NaN => true
  end.

(** [np.searchsorted(a, v)] on a sorted [a], [side='left']: the first
    index [i] with [v <= a[i]], the length of [a] when there is none. *)
Fixpoint searchsorted (a : list R) (v : xfloat) : nat :=
  match a with
  | [] => 0
  | x :: a' => if sorts_before x v then S (searchsorted a' v) else 0
  end.

(** Line 163: the bin of a redshift. *)
Definition redshift_index (redshift_bins : list R) (z : xfloat) : Z :=
  Z.of_nat (searchsorted redshift_bins z) - 1.

(** An index into an axis of [size] entries: a negative index counts from
    the end, anything else out of range raises. *)
Definition np_index (size : nat) (i : Z) : result nat :=
  if ((0 <=? i) && (i <? Z.of_nat size))%Z then Return (Z.to_nat i)
  else if ((- Z.of_nat size <=? i) && (i <? 0))%Z then Return (Z.to_nat (i + Z.of_nat size))
  else Raise (IndexError i).

(** [name_map[x]] for [name_map = {name: i for i, name in enumerate(names)}];
    [x] is always one of [names = np.unique(xs)] ([index_of_unique]). *)
Definition name_index (names : list Z) (x : Z) : nat :=
  match index_of x names with Some i => i | None => 0 end.

(** A cell of the three-dimensional arrays: group, redshift bin, class. *)
Definition cell : Type := nat * nat * nat.

Definition cell_eqb (a b : cell) : bool :=
  let '(g, r, c) := a in
  let '(g', r', c') := b in
  (g =? g')%nat && (r =? r')%nat && (c =? c')%nat.

(** Lines 184-188: [counts[g, r, c] += 1] for every object. The array is
    kept as the list of the cells incremented, each with its redshift index
    brought into range; an index out of range raises. *)
Fixpoint count_loop (n_bins : nat) (indices : list (nat * Z * nat)) : result (list cell) :=
  match indices with
  | [] => Return []
  | (g, r, c) :: indices' =>
      try r' <- np_index n_bins r in
      try cells <- count_loop n_bins indices' in
      Return ((g, r', c) :: cells)
  end.

(** [counts[g, r, c]]. *)
Definition counts_at (cells : list cell) (g r c : nat) : nat :=
  length (filter (cell_eqb (g, r, c)) cells).

Definition nat_sum (l : list nat) : nat := fold_right Nat.add 0%nat l.

(** The cells of a block [groups x bins x classes] of the array. *)
Definition block (groups bins classes : list nat) : list cell :=
  flat_map (fun g => flat_map (fun r => map (fun c => (g, r, c)) classes) bins) groups.

(** [class_weights[class_name]] for every class, in the order of the loop
    of line 222. *)
Fixpoint class_multipliers (cw : gmap Z R) (class_names : list class_name) : result (list R) :=
  match class_names with
  | [] => Return []
  | c :: class_names' =>
      match cw !! c with
      | Some k =>
          try ks <- class_multipliers cw class_names' in Return (k :: ks)
      | None => Raise (KeyError c)
      end
  end.

(** The resolved arguments of [evaluate_weights_redshift]. *)
Record redshift_args : Type := {
  use_group_key : option string;
  use_min_redshift : R;
  use_max_redshift : R;
  use_num_bins : nat;
  use_min_bin_count : R;
  use_redshift_key : string
}.

Definition option_or {A : Type} (x : option A) (d : A) : A :=
  match x with Some a => a | None => d end.

(** Lines 134-145. *)
Definition resolve_redshift_args (settings : Settings)
    (group_key : option string) (min_redshift max_redshift : option R)
    (num_bins : option nat) (min_bin_count : option R)
    (redshift_key : option string) : redshift_args :=
  {| use_group_key :=
       match group_key with
       | Some k => Some k
       | None => redshift_weighting_group_key settings
       end;
     use_min_redshift := option_or min_redshift (redshift_weighting_min_redshift settings);
     use_max_redshift := option_or max_redshift (redshift_weighting_max_redshift settings);
     use_num_bins := option_or num_bins (redshift_weighting_num_bins settings);
     use_min_bin_count := option_or min_bin_count (redshift_weighting_min_bin_count settings);
     use_redshift_key := option_or redshift_key (redshift_weighting_redshift_key settings) |}.

(** The arrays of lines 190-218, cell by cell, from the cells counted. *)
Section RedshiftArrays.
Variable cells : list cell.
Variables n_groups n_bins n_classes : nat.
Variable min_bin_count : R.

Definition total_counts : nat :=
  nat_sum (map (fun '(g, r, c) => counts_at cells g r c)
             (block (seq 0 n_groups) (seq 0 n_bins) (seq 0 n_classes))).

(** [np.sum(counts[:, 1:, :] > 1e-4 * total_counts)]. *)
Definition num_extgal_bins : nat :=
  length
    (filter (fun '(g, r, c) =>
               if Rlt_dec (/ 10 ^ 4 * INR total_counts) (INR (counts_at cells g r c))
               then true else false)
       (block (seq 0 n_groups) (seq 1 (n_bins - 1)) (seq 0 n_classes))).

Definition class_extgal_counts (c : nat) : nat :=
  nat_sum (map (fun '(g, r, c) => counts_at cells g r c)
             (block (seq 0 n_groups) (seq 1 (n_bins - 1)) [c])).

Definition class_gal_counts (c : nat) : nat :=
  nat_sum (map (fun g => counts_at cells g 0 c) (seq 0 n_groups)).

Definition extgal_mask (c : nat) : bool :=
  (class_gal_counts c <? class_extgal_counts c)%nat.

Definition num_extgal_classes : nat :=
  length (filter extgal_mask (seq 0 n_classes)).

Definition extgal_scale : xfloat :=
  xdiv (Fin (INR num_extgal_bins)) (Fin (INR num_extgal_classes)).

(** [np.clip(counts, min_bin_count, None)]. *)
Definition floor_counts (g r c : nat) : R :=
  Rmax (INR (counts_at cells g r c)) min_bin_count.

(** [weights[g, r, c]] after lines 215-218. *)
Definition scaled_weight (g r c : nat) : xfloat :=
  let w := xdiv (Fin (INR total_counts)) (Fin (floor_counts g r c)) in
  if extgal_mask c then xdiv w extgal_scale else w.

(** [weights[g, r, c]] after lines 221-223. *)
Definition cell_weight (multipliers : option (list R)) (g r c : nat) : xfloat :=
  match multipliers with
  | Some ks => xmul (scaled_weight g r c) (Fin (nth c ks 1))
  | None => scaled_weight g r c
  end.
End RedshiftArrays.

(** Lines 174-181: the number of groups and the group of each object. *)
Definition group_indexing
    (args : redshift_args) (use_metadata : list object_meta) : nat * list nat :=
  match use_group_key args with
  | Some key =>
      let groups := map (fun o => label_column o key) use_metadata in
      let group_names := unique groups in
      (length group_names, map (name_index group_names) groups)
  | None => (1%nat, repeat 0%nat (length use_metadata))
  end.

Definition evaluate_weights_redshift
    (settings : Settings) (dataset : Dataset) (class_weights : option (gmap Z R))
    (group_key : option string) (min_redshift max_redshift : option R)
    (num_bins : option nat) (min_bin_count : option R)
    (redshift_key : option string) : result (Series xfloat) :=
  let args := resolve_redshift_args settings group_key min_redshift max_redshift
                num_bins min_bin_count redshift_key in
  let use_metadata := metadata dataset in
  let redshift_bins :=
    make_redshift_bins (use_min_redshift args) (use_max_redshift args)
      (use_num_bins args) in
  let redshift_indices :=
    map (fun o => redshift_index redshift_bins
                    (float_column o (use_redshift_key args)))
        use_metadata in
  let object_classes := map class use_metadata in
  let class_names := unique object_classes in
  let class_indices := map (name_index class_names) object_classes in
  let '(n_groups, group_indices) := group_indexing args use_metadata in
  let n_bins := (length redshift_bins - 1)%nat in
  let n_classes := length class_names in
  try cells <-
    count_loop n_bins
      (zip_with (fun gr c => (gr, c))
         (zip_with (fun g r => (g, r)) group_indices redshift_indices)
         class_indices) in
  try multipliers <-
    match class_weights with
    | Some cw => try ks <- class_multipliers cw class_names in Return (Some ks)
    | None => Return None
    end in
  let object_weights :=
    map (fun '(g, r, c) =>
           cell_weight cells n_groups n_bins n_classes
             (use_min_bin_count args) multipliers g r c)
        cells in
  Return {| index := map object_id use_metadata; values := object_weights |}.

(** A weight above zero; plus infinity counts, as it does for numpy. *)
Definition xpositive (x : xfloat) : Prop :=
  match x with
  | Fin r => 0 < r
  | PInf => True
  | NInf | NaN => False
  end.

(** A redshift the last bin takes: a number up to [1e99], or minus
    infinity. NaN and anything above [1e99] sort after the last edge. *)
Definition redshift_in_range (z : xfloat) : Prop := sorts_before (10 ^ 99) z = false.

(** The index triples of lines 163-181, object by object. *)
Definition object_indices
    (args : redshift_args) (use_metadata : list object_meta) : list (nat * Z * nat) :=
  let redshift_bins :=
    make_redshift_bins (use_min_redshift args) (use_max_redshift args)
      (use_num_bins args) in
  let class_names := unique (map class use_metadata) in
  map (fun o =>
         (match use_group_key args with
          | Some key =>
              name_index (unique (map (fun o => label_column o key) use_metadata))
                (label_column o key)
          | None => 0%nat
          end,
          redshift_index redshift_bins (float_column o (use_redshift_key args)),
          name_index class_names (class o)))
      use_metadata.

(** Settings for the examples: no grouping, ten logarithmic bins between
    redshifts [0.1] and [3], at least fifty objects counted per bin. *)
Definition example_settings : Settings :=
  {| redshift_weighting_group_key := None;
     redshift_weighting_min_redshift := 1 / 10;
     redshift_weighting_max_redshift := 3;
     redshift_weighting_num_bins := 10;
     redshift_weighting_min_bin_count := 50;
     redshift_weighting_redshift_key := "host_specz";
     classifier_directory := "classifiers" |}.

(** ** CVOrchestrator: the fold loop *)

(** A row of the feature table; a feature may be NaN or infinite. *)
Definition feature_row : Type := list xfloat.

(** What the dataset collaborator provides. *)
Class DatasetOps : Type := {
  featurizer : Type;
  select_features : Dataset -> featurizer -> list feature_row;
  label_folds : Dataset -> option nat -> option Z -> list Z
}.

(** [np.max(folds) + 1]. Without a label [np.max] has nothing to take the
    largest of: on an array it raises (what a table of labels gives there
    depends on [label_folds], which is outside this file; no property below
    rests on that case). *)
Definition count_folds (folds : list Z) : result Z :=
  match folds with
  | [] => Raise ValueError
  | f :: folds' => Return (fold_right Z.max f folds' + 1)%Z
  end.

(** [range(n)]. *)
Definition range (n : Z) : list Z := map Z.of_nat (seq 0 (Z.to_nat n)).

(** [-1 * np.ones((n_rows, len(classes)))] with its column labels. *)
Definition sentinel_table (n_rows : nat) (classes : list class_name) : DataFrame :=
  {| columns := classes; rows := repeat (repeat (-1) (length classes)) n_rows |}.

(** [predictions[validation_mask] = validation_predictions]: the rows
    selected by the mask take the rows of the array, in order; the array
    must have one row per selected row and one cell per column. *)
Definition assign_rows (predictions : DataFrame) (mask : list bool)
    (validation_predictions : list (list R)) : result DataFrame :=
  if (length validation_predictions =? count_true mask)%nat
     && forallb (fun row => (length row =? length (columns predictions))%nat)
          validation_predictions
  then Return {| columns := columns predictions;
                 rows := mask_assign mask (rows predictions) validation_predictions |}
  else Raise ValueError.

(** The body of [for fold in range(num_folds)] that the two classifiers
    share: [fit_and_predict] stands for the training of the fold's model
    on the rows outside the fold and its predictions on the rows of the
    fold; [st] is whatever the backend carries from fold to fold. *)
Fixpoint fold_loop {S M : Type}
    (fit_and_predict : S -> Z -> list bool -> list bool -> result (S * M * list (list R)))
    (folds : list Z) (fold_ids : list Z)
    (st : S) (predictions : DataFrame) (classifiers : list M)
    : result (S * DataFrame * list M) :=
  match fold_ids with
  | [] => Return (st, predictions, classifiers)
  | fold :: fold_ids' =>
      let train_mask := ne_mask folds fold in
      let validation_mask := eq_mask folds fold in
      try out <- fit_and_predict st fold train_mask validation_mask in
      let '(st', classifier, validation_predictions) := out in
      try predictions' <- assign_rows predictions validation_mask validation_predictions in
      fold_loop fit_and_predict folds fold_ids' st' predictions'
        (classifiers ++ [classifier])
  end.

(** The keys of the rows fold [fold] validates. *)
Definition validation_keys (dataset : Dataset) (folds : list Z) (fold : Z) : list Z :=
  mask_select (eq_mask folds fold) (map object_id (metadata dataset)).

(** The four log-losses printed after the loop. *)
Record logloss_report : Type := {
  total_logloss : logloss_value;
  unweighted_total_logloss : logloss_value;
  original_logloss : option (logloss_value * logloss_value)
}.

(** Lines 436-466 (and 725-755). *)
Definition report_logloss
    (dataset : Dataset) (object_classes : list class_name) (predictions : DataFrame)
    (object_weights : list R) (class_weights : option (gmap Z R))
    : result logloss_report :=
  try total <- weighted_multi_logloss object_classes predictions
                 (Some object_weights) class_weights false in
  try unweighted <- weighted_multi_logloss object_classes predictions
                      None class_weights false in
  try original <-
    (if has_reference_object_id dataset then
       let original_mask :=
         map (fun o => match reference_object_id o with None => true | Some _ => false end)
             (metadata dataset) in
       let classes := mask_select original_mask object_classes in
       let table := {| columns := columns predictions;
                       rows := mask_select original_mask (rows predictions) |} in
       try weighted <- weighted_multi_logloss classes table
                         (Some (mask_select original_mask object_weights))
                         class_weights false in
       try plain <- weighted_multi_logloss classes table None class_weights false in
       Return (Some (weighted, plain))
     else Return None) in
  Return {| total_logloss := total;
            unweighted_total_logloss := unweighted;
            original_logloss := original |}.

(** ** TreeEnsembleBackend *)

Inductive param_value : Type :=
| PStr (s : string)
| PInt (z : Z)
| PReal (r : R).

(** The LightGBM library: a fitted classifier, its fit and its outputs. *)
Class LightGBM : Type := {
  LGBMClassifier : Type;
  LGBMClassifier_fit :
    gmap string param_value ->                (* lgb_params *)
    list feature_row -> list class_name ->    (* train_features, train_classes *)
    list R ->                                 (* sample_weight *)
    list feature_row -> list class_name ->    (* eval_set *)
    nat ->                                    (* early_stopping_rounds *)
    list R ->                                 (* eval_sample_weight *)
    LGBMClassifier;
  predict_proba : LGBMClassifier -> list feature_row -> list (list R);
  feature_importances : LGBMClassifier -> list R
}.

(** Lines 546-575. [lgb_params.update(kwargs)]: the caller's entries win. *)
Definition fit_lightgbm_classifier `{LightGBM}
    (train_features : list feature_row) (train_classes : list class_name)
    (train_weights : list R)
    (validation_features : list feature_row) (validation_classes : list class_name)
    (validation_weights : list R)
    (kwargs : gmap string param_value) : LGBMClassifier :=
  let lgb_params : gmap string param_value :=
    list_to_map
      [("boosting_type", PStr "gbdt"); ("objective", PStr "multiclass");
       ("num_class", PInt (Z.of_nat (length (unique train_classes))));
       ("metric", PStr "multi_logloss"); ("learning_rate", PReal (5 / 100));
       ("colsample_bytree", PReal (1 / 2)); ("reg_alpha", PReal 0);
       ("reg_lambda", PReal 0); ("min_split_gain", PReal 10);
       ("min_child_weight", PReal 2000); ("n_estimators", PInt 5000);
       ("silent", PInt (-1)); ("verbose", PInt (-1)); ("max_depth", PInt 7);
       ("num_leaves", PInt 50)]%string in
  let lgb_params := kwargs ∪ lgb_params in
  LGBMClassifier_fit lgb_params train_features train_classes train_weights
    validation_features validation_classes 50 validation_weights.

(** What [LightGBMClassifier.train] leaves on the object. *)
Record lgb_trained `{LightGBM} : Type := {
  lgb_importances : list (Z * list R);       (* fold + 1, gains *)
  lgb_train_predictions : DataFrame;
  lgb_train_classes : list class_name;
  lgb_classifiers : list LGBMClassifier;
  lgb_report : logloss_report
}.

(** The fields of a [LightGBMClassifier] (and of a [NNClassifier]) that
    [train] reads. *)
Record classifier_setup `{DatasetOps} : Type := {
  name : string;
  use_featurizer : featurizer;
  class_weights_of : option (gmap Z R);
  weighting_function : option (Dataset -> option (gmap Z R) -> result (Series R))
}.

Definition lgb_fit_and_predict `{LightGBM}
    (features : list feature_row) (object_classes : list class_name)
    (object_weights : list R) (kwargs : gmap string param_value)
    (st : unit) (fold : Z) (train_mask validation_mask : list bool)
    : result (unit * LGBMClassifier * list (list R)) :=
  let train_features := mask_select train_mask features in
  let train_classes := mask_select train_mask object_classes in
  let train_weights := mask_select train_mask object_weights in
  let validation_features := mask_select validation_mask features in
  let validation_classes := mask_select validation_mask object_classes in
  let validation_weights := mask_select validation_mask object_weights in
  let classifier :=
    fit_lightgbm_classifier train_features train_classes train_weights
      validation_features validation_classes validation_weights kwargs in
  let validation_predictions := predict_proba classifier validation_features in
  Return (st, classifier, validation_predictions).

(** Line 386: [self.weighting_function(dataset, self.class_weights)]. *)
Definition lgb_object_weights `{DatasetOps}
    (self : classifier_setup) (dataset : Dataset) : result (list R) :=
  match weighting_function self with
  | Some f => try w <- f dataset (class_weights_of self) in Return (values w)
  | None => Raise TypeError
  end.

Definition LightGBMClassifier_train `{DatasetOps} `{LightGBM}
    (self : classifier_setup) (dataset : Dataset)
    (num_folds : option nat) (random_state : option Z)
    (kwargs : gmap string param_value) : result lgb_trained :=
  let features := select_features dataset (use_featurizer self) in
  let folds := label_folds dataset num_folds random_state in
  try num_folds <- count_folds folds in
  try object_weights <- lgb_object_weights self dataset in
  let object_classes := map class (metadata dataset) in
  let classes := unique object_classes in
  let predictions := sentinel_table (length object_classes) classes in
  try out <- fold_loop
               (lgb_fit_and_predict features object_classes object_weights kwargs)
               folds (range num_folds) tt predictions [] in
  let '(_, predictions, classifiers) := out in
  try report <- report_logloss dataset object_classes predictions object_weights
                  (class_weights_of self) in
  Return {| lgb_importances :=
              zip_with (fun fold c => ((fold + 1)%Z, feature_importances c))
                (range num_folds) classifiers;
            lgb_train_predictions := predictions;
            lgb_train_classes := object_classes;
            lgb_classifiers := classifiers;
            lgb_report := report |}.

(** ** NeuralBackend *)

(** The largest [float32], which [torch.nan_to_num] puts for infinity. *)
Definition float32_max : R := 340282346638528859811704183484516925440.

(** [torch.nan_to_num]. *)
Definition nan_to_num (x : xfloat) : R :=
  match x with
  | Fin r => r
  | NaN => 0
  | PInf => float32_max
  | NInf => - float32_max
  end.

(** [scipy.special.softmax] of a vector of logits. *)
Definition softmax (logits : list R) : list R :=
  map (fun x => exp x / sum (map exp logits)) logits.

(** The configuration a network is built from and keeps as [config]. *)
Record net_config : Type := {
  model : string;                (* "ft" or "mlp" *)
  num_continuous : nat;
  net_dim : nat;
  dim_out : nat;
  net_depth : nat;
  net_heads : nat;
  net_dim_head : nat;
  attn_dropout : R;
  ff_dropout : R
}.

(** A mini-batch: features, labels, weights. *)
Definition batch : Type := list (list R) * list Z * list R.

(** The torch side: the parameters of a network, the optimizer, the
    random generators, and the library calls the module makes. *)
Class Torch : Type := {
  state_dict : Type;
  optimizer : Type;
  rng : Type;
  (* a new FTTransformer or SimpleMLP: freshly initialised parameters *)
  init_net : net_config -> rng -> state_dict * rng;
  (* classifier(None, x) in evaluation mode: one row of logits per row of x *)
  forward_eval : state_dict -> list (list R) -> list (list R);
  (* torch.optim.AdamW(classifier.parameters(), lr) *)
  AdamW : state_dict -> R -> optimizer;
  (* lines 941-947: zero_grad, forward in training mode, the weighted
     cross-entropy, backward, optimizer.step *)
  gradient_step : state_dict -> optimizer -> batch -> rng -> state_dict * optimizer * rng;
  (* F.cross_entropy(logits, y, reduction="none") for one row *)
  cross_entropy : list R -> Z -> R;
  (* np.random.randint(0, high, (size,)) *)
  randint : rng -> nat -> nat -> list nat * rng
}.

(** A network object: its parameters, its mode, its configuration. *)
Record net `{Torch} : Type := {
  parameters : state_dict;
  training : bool;
  config : net_config
}.

(** What the training loop can be seen to do. *)
Inductive event : Type :=
| WandbInit (fold : Z)
| Sampled (split : string)
| GradientStep (iter : nat)
| Evaluated (iter : nat)
| Checkpointed (iter : nat) (path : string)
| WandbLog (iter : nat).

(** The slices a fold trains and validates on. *)
Record nn_data : Type := {
  num_features : nat;                    (* train_features.shape[1] *)
  train_features : list feature_row;
  train_classes : list Z;
  train_weights : list R;
  validation_features : list feature_row;
  validation_classes : list Z;
  validation_weights : list R
}.

(** The keyword arguments [fit_nn_classifier] takes besides its named
    ones, which [fit_params.update(kwargs)] and [net_params.update(kwargs)]
    read. *)
Record nn_kwargs : Type := {
  kw_model_type : option string;
  kw_eval_iters : option nat;
  kw_eval_interval : option nat;
  kw_lr : option R;
  kw_attn_dropout : option R;
  kw_ff_dropout : option R
}.

(** The metrics of one evaluation. *)
Record metrics : Type := {
  train_loss : xfloat;
  train_accuracy : xfloat;
  val_loss : xfloat;
  val_accuracy : xfloat
}.

(** Everything outside the network the loop reads and writes: the random
    generators, the files, the trace. *)
Record world `{Torch} : Type := {
  w_rng : rng;
  w_files : gmap string state_dict;
  w_trace : list event
}.

(** The mean of a tensor; NaN when it is empty. *)
Definition xmean (l : list R) : xfloat :=
  match l with
  | [] => NaN
  | _ => Fin (sum l / INR (length l))
  end.

(** [x < y] on floats: false as soon as one side is NaN. *)
Definition xlt (x y : xfloat) : bool :=
  match x, y with
  | NaN, _ | _, NaN => false
  | Fin a, Fin b => if Rlt_dec a b then true else false
  | NInf, (Fin _ | PInf) => true
  | Fin _, PInf => true
  | _, _ => false
  end.

(** The index of the largest logit, the first one among equals. *)
Fixpoint argmax_from (best : R) (best_i i : nat) (l : list R) : nat :=
  match l with
  | [] => best_i
  | x :: l' =>
      if Rlt_dec best x then argmax_from x i (S i) l'
      else argmax_from best best_i (S i) l'
  end.

Definition argmax (l : list R) : Z :=
  match l with
  | [] => 0
  | x :: l' => Z.of_nat (argmax_from x 0 1 l')
  end.

Section FitNN.
Context `{Torch}.

Variable data : nn_data.

(** Lines 857-870. *)
Definition get_batch (split : string) (batch_size : nat) (w : world) : result (batch * world) :=
  let '(features, labels, weights) :=
    if String.eqb split "train"
    then (train_features data, train_classes data, train_weights data)
    else (validation_features data, validation_classes data, validation_weights data) in
  if (length features =? 0)%nat then Raise ValueError
  else
    let '(ix, g) := randint (w_rng w) (length features) batch_size in
    let x := map (fun i => map nan_to_num (nth i features [])) ix in
    let y := map (fun i => nth i labels 0%Z) ix in
    let wt := map (fun i => nth i weights 0) ix in
    Return ((x, y, wt),
            {| w_rng := g; w_files := w_files w;
               w_trace := w_trace w ++ [Sampled split] |}).

(** Lines 916-924, one mini-batch of an evaluation: the loss of the batch
    and how many rows are classified right. *)
Definition evaluate_batch (params : state_dict) (b : batch) : xfloat * nat :=
  let '(x, y, wt) := b in
  let logits := forward_eval params x in
  let loss := zip_with cross_entropy logits y in
  (xmean (zip_with Rmult loss wt),
   length (filter (fun b : bool => b)
             (zip_with (fun row label => (argmax row =? label)%Z) logits y))).

(** Lines 913-926 for one split. *)
Fixpoint evaluate_split (params : state_dict) (split : string) (batch_size : nat)
    (k : nat) (losses : list xfloat) (correct total : nat) (w : world)
    : result (list xfloat * nat * nat * world) :=
  match k with
  | O => Return (losses, correct, total, w)
  | S k' =>
      try bw <- get_batch split batch_size w in
      let '(b, w') := bw in
      let '(loss, hits) := evaluate_batch params b in
      evaluate_split params split batch_size k' (losses ++ [loss])
        (correct + hits) (total + length (fst (fst b))) w'
  end.

(** The mean of the losses of an evaluation; a NaN loss makes it NaN. *)
Definition mean_losses (losses : list xfloat) : xfloat :=
  match losses with
  | [] => NaN
  | _ => xdiv (fold_right xadd (Fin 0) losses) (Fin (INR (length losses)))
  end.

(** Lines 907-928. *)
Definition estimate_loss (params : state_dict) (batch_size eval_iters : nat) (w : world)
    : result (metrics * world) :=
  try tr <- evaluate_split params "train" batch_size eval_iters [] 0 0 w in
  let '(t_losses, t_correct, t_total, w1) := tr in
  (* without a batch, [correct / total] is the integer division [0 / 0] *)
  try _ <- (if (eval_iters =? 0)%nat then Raise ZeroDivisionError else Return tt) in
  try va <- evaluate_split params "val" batch_size eval_iters [] 0 0 w1 in
  let '(v_losses, v_correct, v_total, w2) := va in
  Return ({| train_loss := mean_losses t_losses;
             train_accuracy := xdiv (Fin (INR t_correct)) (Fin (INR t_total));
             val_loss := mean_losses v_losses;
             val_accuracy := xdiv (Fin (INR v_correct)) (Fin (INR v_total)) |}, w2).

(** The state of the loop of lines 940-958. *)
Record loop_state : Type := {
  ls_parameters : state_dict;
  ls_optimizer : optimizer;
  ls_best_loss : xfloat;
  ls_world : world
}.

Variables (batch_size max_iters eval_iters eval_interval : nat).
Variable logger : option string.
Variable save_model_path : option string.

Definition is_wandb : bool :=
  match logger with
  | Some l => String.eqb l "wandb"
  | None => false
  end.

(** One iteration of the loop. *)
Definition train_iteration (iter : nat) (s : loop_state) : result loop_state :=
  try bw <- get_batch "train" batch_size (ls_world s) in
  let '(b, w) := bw in
  let '(params, opt, g) := gradient_step (ls_parameters s) (ls_optimizer s) b (w_rng w) in
  let w := {| w_rng := g; w_files := w_files w;
              w_trace := w_trace w ++ [GradientStep iter] |} in
  if (eval_interval =? 0)%nat then Raise ZeroDivisionError
  else if (iter mod eval_interval =? 0)%nat || (iter =? max_iters - 1)%nat then
    try mw <- estimate_loss params batch_size eval_iters w in
    let '(m, w) := mw in
    let w := {| w_rng := w_rng w; w_files := w_files w;
                w_trace := w_trace w ++ [Evaluated iter] |} in
    let '(best_loss, w) :=
      match save_model_path with
      | Some path =>
          if xlt (val_loss m) (ls_best_loss s)
          then (val_loss m,
                {| w_rng := w_rng w; w_files := <[ path := params ]> (w_files w);
                   w_trace := w_trace w ++ [Checkpointed iter path] |})
          else (ls_best_loss s, w)
      | None => (ls_best_loss s, w)
      end in
    let w := if is_wandb
             then {| w_rng := w_rng w; w_files := w_files w;
                     w_trace := w_trace w ++ [WandbLog iter] |}
             else w in
    Return {| ls_parameters := params; ls_optimizer := opt;
              ls_best_loss := best_loss; ls_world := w |}
  else
    Return {| ls_parameters := params; ls_optimizer := opt;
              ls_best_loss := ls_best_loss s; ls_world := w |}.

(** [for iter in range(max_iters)], from iteration [iter] on. *)
Fixpoint train_iterations (iters : list nat) (s : loop_state) : result loop_state :=
  match iters with
  | [] => Return s
  | iter :: iters' =>
      try s' <- train_iteration iter s in
      train_iterations iters' s'
  end.

End FitNN.

(** Lines 872-960. *)
Definition fit_nn_classifier `{Torch}
    (data : nn_data) (batch_size max_iters : nat) (fold : Z)
    (dim depth heads dim_head : nat)
    (logger : option string) (save_model_path : option string)
    (kwargs : nn_kwargs) (w : world) : result (net * world) :=
  let n_classes := length (unique (train_classes data)) in
  let net_params :=
    {| model := "ft"; num_continuous := num_features data; net_dim := dim;
       dim_out := n_classes; net_depth := depth; net_heads := heads;
       net_dim_head := dim_head;
       attn_dropout := option_or (kw_attn_dropout kwargs) (1 / 10);
       ff_dropout := option_or (kw_ff_dropout kwargs) (1 / 10) |} in
  let eval_iters := option_or (kw_eval_iters kwargs) 200%nat in
  let eval_interval := option_or (kw_eval_interval kwargs) 200%nat in
  let lr := option_or (kw_lr kwargs) (/ 10 ^ 4) in
  let model_type := option_or (kw_model_type kwargs) "ft"%string in
  try cfg <-
    (if String.eqb model_type "ft" then Return net_params
     else if String.eqb model_type "mlp" then
       Return {| model := "mlp"; num_continuous := 0; net_dim := num_features data;
                 dim_out := n_classes; net_depth := 0; net_heads := 0;
                 net_dim_head := 0; attn_dropout := 0; ff_dropout := 0 |}
     else Raise UnboundLocalError) in
  let '(params, g) := init_net cfg (w_rng w) in
  let opt := AdamW params lr in
  let logs_to_wandb :=
    match logger with Some l => String.eqb l "wandb" | None => false end in
  let w := {| w_rng := g; w_files := w_files w;
              w_trace := if logs_to_wandb then w_trace w ++ [WandbInit fold]
                         else w_trace w |} in
  try s <- train_iterations data batch_size max_iters eval_iters eval_interval
             logger save_model_path (seq 0 max_iters)
             {| ls_parameters := params; ls_optimizer := opt;
                ls_best_loss := PInf; ls_world := w |} in
  Return ({| parameters := ls_parameters s; training := true; config := cfg |},
          ls_world s).

(** The fields of an [NNClassifier] besides those of every classifier. *)
Record nn_setup : Type := {
  class_map : option (gmap Z Z);
  model_type : string;
  nn_batch_size : nat;
  nn_max_iters : nat;
  nn_dim : nat;
  nn_depth : nat;
  nn_heads : nat;
  nn_dim_head : nat;
  nn_logger : option string
}.

(** [os.path.join(classifier_directory, "classifier_%s_%s.pt" % (name, fold))]. *)
Definition model_path (settings : Settings) (name : string) (fold : Z) : string :=
  (classifier_directory settings ++ "/classifier_" ++ name ++ "_" ++ pretty fold ++ ".pt")%string.

(** [object_classes.map(class_map)]. A class the dict does not list would
    become NaN, which no label can be: the embedding stops there. *)
Fixpoint map_classes (cm : gmap Z Z) (xs : list class_name) : result (list class_name) :=
  match xs with
  | [] => Return []
  | c :: xs' =>
      match cm !! c with
      | Some v => try vs <- map_classes cm xs' in Return (v :: vs)
      | None => Raise ValueError
      end
  end.

(** Lines 714-720: the network in evaluation mode, one row at a time. *)
Definition predict_rows `{Torch} (params : state_dict) (features : list feature_row)
    : list (list R) :=
  map (fun validation_feature =>
         let x := map nan_to_num validation_feature in
         let logits := forward_eval params [x] in
         softmax (nth 0 logits []))
      features.

(** Lines 682-723, the body of the fold loop of [NNClassifier.train]. *)
Definition nn_fit_and_predict `{Torch} `{DatasetOps}
    (settings : Settings) (self : classifier_setup) (nn : nn_setup)
    (n_features : nat) (features : list feature_row)
    (object_classes : list class_name) (object_weights : list R)
    (kwargs : nn_kwargs)
    (w : world) (fold : Z) (train_mask validation_mask : list bool)
    : result (world * net * list (list R)) :=
  let data :=
    {| num_features := n_features;
       train_features := mask_select train_mask features;
       train_classes := mask_select train_mask object_classes;
       train_weights := mask_select train_mask object_weights;
       validation_features := mask_select validation_mask features;
       validation_classes := mask_select validation_mask object_classes;
       validation_weights := mask_select validation_mask object_weights |} in
  try kwargs <-
    (* [model_type=self.model_type] next to the caller's keywords *)
    match kw_model_type kwargs with
    | Some _ => Raise TypeError
    | None =>
        Return {| kw_model_type := Some (model_type nn);
                  kw_eval_iters := kw_eval_iters kwargs;
                  kw_eval_interval := kw_eval_interval kwargs;
                  kw_lr := kw_lr kwargs;
                  kw_attn_dropout := kw_attn_dropout kwargs;
                  kw_ff_dropout := kw_ff_dropout kwargs |}
    end in
  try fitted <-
    fit_nn_classifier data (nn_batch_size nn) (nn_max_iters nn) fold
      (nn_dim nn) (nn_depth nn) (nn_heads nn) (nn_dim_head nn) (nn_logger nn)
      (Some (model_path settings (name self) fold)) kwargs w in
  let '(classifier, w') := fitted in
  let classifier :=
    {| parameters := parameters classifier; training := false;
       config := config classifier |} in
  let validation_predictions :=
    predict_rows (parameters classifier) (validation_features data) in
  Return (w', classifier, validation_predictions).

(** What [NNClassifier.train] leaves on the object and returns. *)
Record nn_trained `{Torch} : Type := {
  nn_train_predictions : DataFrame;
  nn_train_classes : list class_name;
  nn_classifiers : list (string * net_config);   (* model_path, config *)
  nn_returned : list net;                         (* the value of [train] *)
  nn_report : logloss_report
}.

Definition NNClassifier_train `{Torch} `{DatasetOps}
    (settings : Settings) (self : classifier_setup) (nn : nn_setup)
    (dataset : Dataset) (n_features : nat)
    (num_folds : option nat) (random_state : option Z)
    (kwargs : nn_kwargs) (w : world) : result (nn_trained * world) :=
  let features := select_features dataset (use_featurizer self) in
  let folds := label_folds dataset num_folds random_state in
  try num_folds <- count_folds folds in
  try object_weights <-
    match weighting_function self with
    | Some f => try ws <- f dataset (class_weights_of self) in Return (values ws)
    | None => Return (repeat 1 (length (metadata dataset)))
    end in
  try object_classes <-
    match class_map nn with
    | Some cm => map_classes cm (map class (metadata dataset))
    | None => Return (map class (metadata dataset))
    end in
  let classes := unique object_classes in
  let predictions := sentinel_table (length object_classes) classes in
  try out <- fold_loop
               (nn_fit_and_predict settings self nn n_features features
                  object_classes object_weights kwargs)
               folds (range num_folds) w predictions [] in
  let '(w', predictions, classifiers) := out in
  try report <- report_logloss dataset object_classes predictions object_weights
                  (class_weights_of self) in
  Return ({| nn_train_predictions := predictions;
             nn_train_classes := object_classes;
             nn_classifiers :=
               zip_with (fun i classifier =>
                           (model_path settings (name self) i, config classifier))
                 (range (Z.of_nat (length classifiers))) classifiers;
             nn_returned := classifiers;
             nn_report := report |}, w').

(** Elementwise sum of two tables of the same shape. *)
Definition add_rows (a b : list (list R)) : list (list R) :=
  zip_with (zip_with Rplus) a b.

(** Lines 783-797, one classifier of the ensemble: the network is built
    from its configuration, its parameters are those stored at
    [model_path]. [classifier] is the network left by the iteration
    before, which a configuration of an unknown model would reuse. *)
Definition predict_fold `{Torch}
    (features : list feature_row) (c : string * net_config)
    (st : option net * option (list (list R)) * world)
    : result (option net * option (list (list R)) * world) :=
  let '(classifier, predictions, w) := st in
  let '(path, cfg) := c in
  try built <-
    (if String.eqb (model cfg) "ft" || String.eqb (model cfg) "mlp" then
       let '(params, g) := init_net cfg (w_rng w) in
       Return ({| parameters := params; training := true; config := cfg |},
               {| w_rng := g; w_files := w_files w; w_trace := w_trace w |})
     else
       match classifier with
       | Some old => Return (old, w)
       | None => Raise UnboundLocalError
       end) in
  let '(classifier, w) := built in
  match w_files w !! path with
  | None => Raise FileNotFoundError
  | Some stored =>
      let classifier :=
        {| parameters := stored; training := false; config := config classifier |} in
      let x := map (map nan_to_num) features in
      let fold_scores := forward_eval (parameters classifier) x in
      let fold_predictions := map softmax fold_scores in
      let predictions :=
        match predictions with
        | None => fold_predictions
        | Some total => add_rows total fold_predictions
        end in
      Return (Some classifier, Some predictions, w)
  end.

Fixpoint predict_folds `{Torch}
    (features : list feature_row) (classifiers : list (string * net_config))
    (st : option net * option (list (list R)) * world)
    : result (option net * option (list (list R)) * world) :=
  match classifiers with
  | [] => Return st
  | c :: classifiers' =>
      try st' <- predict_fold features c st in
      predict_folds features classifiers' st'
  end.

(** The class [class_map] sends to [v]; [v] itself when there is none. *)
Definition unmap_class (cm : gmap Z Z) (v : class_name) : class_name :=
  match filter (fun kv => (snd kv =? v)%Z) (map_to_list cm) with
  | kv :: _ => fst kv
  | [] => v
  end.

Definition NNClassifier_predict `{Torch} `{DatasetOps}
    (self : classifier_setup) (nn : nn_setup) (trained : nn_trained)
    (dataset : Dataset) (w : world) : result (DataFrame * world) :=
  let features := select_features dataset (use_featurizer self) in
  try st <- predict_folds features (nn_classifiers trained) (None, None, w) in
  let '(_, predictions, w') := st in
  match predictions with
  | None => Raise ZeroDivisionError          (* [0 / len([])] *)
  | Some total =>
      let n := INR (length (nn_classifiers trained)) in
      let predictions := map (map (fun x => x / n)) total in
      let columns := columns (nn_train_predictions trained) in
      let columns :=
        match class_map nn with
        | Some cm => map (unmap_class cm) columns
        | None => columns
        end in
      Return ({| columns := columns; rows := predictions |}, w')
  end.

(** ** A small instance of the collaborators, for the examples *)

(** The folds go by the parity of the object key; the only feature is the
    host redshift. *)
Definition example_dataset_ops : DatasetOps :=
  {| featurizer := unit;
     select_features := fun dataset _ =>
       map (fun o => [float_column o "host_specz"]) (metadata dataset);
     label_folds := fun dataset _ _ =>
       map (fun o => (object_id o mod 2)%Z) (metadata dataset) |}.

(** A tree ensemble that gives both classes the probability one half. *)
Definition example_lightgbm : LightGBM :=
  {| LGBMClassifier := unit;
     LGBMClassifier_fit := fun _ _ _ _ _ _ _ _ => tt;
     predict_proba := fun _ X => map (fun _ => [1 / 2; 1 / 2]) X;
     feature_importances := fun _ => [] |}.

(** A network with one parameter, which counts the gradient steps made,
    and whose loss is that parameter. *)
Definition example_torch : Torch :=
  {| state_dict := nat;
     optimizer := unit;
     rng := unit;
     init_net := fun _ g => (0%nat, g);
     forward_eval := fun p X => map (fun _ => [INR p; 0]) X;
     AdamW := fun _ _ => tt;
     gradient_step := fun p o _ g => (S p, o, g);
     cross_entropy := fun logits _ => nth 0 logits 0;
     randint := fun g _ size => (repeat 0%nat size, g) |}.

(** Weights of one for every object. *)
Definition unit_weights (dataset : Dataset) (_ : option (gmap Z R)) : result (Series R) :=
  Return {| index := map object_id (metadata dataset);
            values := repeat 1 (length (metadata dataset)) |}.

Definition example_setup : @classifier_setup example_dataset_ops :=
  {| name := "example";
     use_featurizer := tt : @featurizer example_dataset_ops;
     class_weights_of := None;
     weighting_function := Some unit_weights |}.

Definition example_nn_setup (max_iters : nat) : nn_setup :=
  {| class_map := None; model_type := "mlp"; nn_batch_size := 1;
     nn_max_iters := max_iters; nn_dim := 32; nn_depth := 6; nn_heads := 8;
     nn_dim_head := 16; nn_logger := None |}.

Definition no_kwargs : nn_kwargs :=
  {| kw_model_type := None; kw_eval_iters := None; kw_eval_interval := None;
     kw_lr := None; kw_attn_dropout := None; kw_ff_dropout := None |}.

Definition empty_world : @world example_torch :=
  {| w_rng := tt : @rng example_torch; w_files := ∅; w_trace := [] |}.

(** ** Vocabulary of the cross-validation invariant *)

(** What [predictions[validation_mask] = validation_predictions] does to
    the table, row by row: a row the mask selects takes its row of the
    array, in order; every other row is left as it was. *)
Definition writes_slice (mask : list bool) (validation_predictions : list (list R))
    (before after : DataFrame) : Prop :=
  forall i,
    match nth_error mask i with
    | Some true =>
        exists row,
          nth_error validation_predictions (count_true (firstn i mask)) = Some row
          /\ nth_error (rows after) i = Some row
    | _ => nth_error (rows after) i = nth_error (rows before) i
    end.

(** The loop over [range(n)] taken pass by pass, from the state [st] and
    the table [T]. [final] is the table the loop leaves. The pass of a fold
    starts from what the passes of the folds before it leave, fits and
    predicts, and writes the rows of the validation slice of the fold and
    no other row; a row of that slice is as in [T] until then, and as that
    pass leaves it from then on. *)
Definition one_fold_per_row {St M : Type}
    (fit_and_predict : St -> Z -> list bool -> list bool
                       -> result (St * M * list (list R)))
    (folds : list Z) (n : Z) (st : St) (T final : DataFrame) : Prop :=
  (exists st' classifiers,
     fold_loop fit_and_predict folds (range n) st T []
     = Return (st', final, classifiers))
  /\ forall fold, In fold (range n) ->
       exists st_before before classifiers st_after classifier
              validation_predictions after,
         fold_loop fit_and_predict folds (range fold) st T []
         = Return (st_before, before, classifiers)
         /\ fit_and_predict st_before fold (ne_mask folds fold) (eq_mask folds fold)
            = Return (st_after, classifier, validation_predictions)
         /\ fold_loop fit_and_predict folds (range (fold + 1)) st T []
            = Return (st_after, after, classifiers ++ [classifier])
         /\ writes_slice (eq_mask folds fold) validation_predictions before after
         /\ forall i, nth_error (eq_mask folds fold) i = Some true ->
              nth_error (rows before) i = nth_error (rows T) i
              /\ nth_error (rows final) i = nth_error (rows after) i.

(** ** Persistence: [get_classifier_path], [Classifier.write], [Classifier.load] *)

Fixpoint ends_with_slash (a : string) : bool :=
  match a with
  | EmptyString => false
  | String c EmptyString => String.eqb (String c EmptyString) "/"
  | String _ a' => ends_with_slash a'
  end.

(** [os.path.join(a, b)] for a relative [b]: no separator is added after
    an empty [a] or after one that ends with a separator. *)
Definition path_join (a b : string) : string :=
  if String.eqb a "" || ends_with_slash a then (a ++ b)%string
  else (a ++ "/" ++ b)%string.

(** Lines 15-26. *)
Definition get_classifier_path (settings : Settings) (name : string) : string :=
  path_join (classifier_directory settings) ("classifier_" ++ name ++ ".pkl")%string.

Definition is_sep (c : Ascii.ascii) : bool := String.eqb (String c EmptyString) "/".

Fixpoint has_sep (p : string) : bool :=
  match p with
  | EmptyString => false
  | String c p' => is_sep c || has_sep p'
  end.

Fixpoint all_sep (p : string) : bool :=
  match p with
  | EmptyString => true
  | String c p' => is_sep c && all_sep p'
  end.

(** [p[:p.rfind("/") + 1]]: up to the last separator, which is kept. *)
Fixpoint head_of (p : string) : string :=
  match p with
  | EmptyString => ""
  | String c p' =>
      if has_sep p' then String c (head_of p')
      else if is_sep c then String c "" else ""
  end.

(** [head.rstrip("/")]. *)
Fixpoint rstrip_sep (p : string) : string :=
  match p with
  | EmptyString => ""
  | String c p' =>
      let r := rstrip_sep p' in
      if String.eqb r "" && is_sep c then "" else String c r
  end.

(** [os.path.dirname(p)]: the head, without its trailing separators unless
    it is made of separators only. *)
Definition dirname (p : string) : string :=
  let head := head_of p in
  if negb (String.eqb head "") && negb (all_sep head) then rstrip_sep head
  else head.

(** What [write] and [load] raise. *)
Inductive store_exn : Type :=
| AlreadyExists (path : string)   (* AvocadoException("Dataset %s already exists! Can't write.") *)
| NoSuchFile (path : string)      (* FileNotFoundError: open(path, "rb"), os.makedirs("") *)
| OSError (path : string).        (* any other failure of os.makedirs *)

(** The pickle files are a map from paths to the objects pickled: two
    paths are one file when they are one string, and a file that is opened
    for writing in a directory that exists is written. The directories are
    not in the map: [makedirs directory] is what
    [os.makedirs(directory, exist_ok=True)] raises, if anything. [C] is the
    class of the object, a subclass of [Classifier], and [classifier_name]
    its attribute [name]. *)
Section Persistence.
Context {C : Type}.
Variable classifier_name : C -> string.
Variable settings : Settings.
Variable makedirs : string -> option store_exn.

(** The property [path]. *)
Definition Classifier_path (self : C) : string :=
  get_classifier_path settings (classifier_name self).

(** Lines 278-307: the exception raised, if any, and the files afterwards. *)
Definition Classifier_write (self : C) (overwrite : bool) (files : gmap string C)
    : option store_exn * gmap string C :=
  let path := Classifier_path self in
  let directory := dirname path in
  match makedirs directory with
  | Some e => (Some e, files)
  | None =>
      let checked :=
        match files !! path with
        | Some _ =>
            if overwrite then inr (delete path files)
            else inl (AlreadyExists path)
        | None => inr files
        end in
      match checked with
      | inl e => (Some e, files)
      | inr files' => (None, <[ path := self ]> files')
      end
  end.

(** Lines 309-326. *)
Definition Classifier_load (name : string) (files : gmap string C) : store_exn + C :=
  let path := get_classifier_path settings name in
  match files !! path with
  | Some classifier => inr classifier
  | None => inl (NoSuchFile path)
  end.

End Persistence.

(** [os.makedirs] where every directory but the empty path can be made. *)
Definition example_makedirs (directory : string) : option store_exn :=
  if String.eqb directory "" then Some (NoSuchFile "") else None.

(** ** [LightGBMClassifier.predict] *)

(** [classifier.predict_proba(features, raw_score=True,
    num_iteration=classifier.best_iteration_)]. *)
Class LightGBMScores `{LightGBM} : Type := {
  predict_raw_score : LGBMClassifier -> list feature_row -> list (list R)
}.

(** [a += b] on vectors: [b] has the length of [a], or the length one and
    is broadcast. *)
Definition iadd_row (a b : list R) : result (list R) :=
  if (length b =? length a)%nat then Return (zip_with Rplus a b)
  else
    match b with
    | [y] => Return (map (fun x => x + y) a)
    | _ => Raise ValueError
    end.

Fixpoint sequence {A : Type} (l : list (result A)) : result (list A) :=
  match l with
  | [] => Return []
  | m :: l' =>
      try x <- m in
      try xs <- sequence l' in
      Return (x :: xs)
  end.

(** [a += b] on tables, row by row, with the same rule for the rows. *)
Definition iadd (a b : list (list R)) : result (list (list R)) :=
  if (length b =? length a)%nat then sequence (zip_with iadd_row a b)
  else
    match b with
    | [row] => sequence (map (fun r => iadd_row r row) a)
    | _ => Raise ValueError
    end.

(** Lines 492-500, the loop over [self.classifiers]; [predictions] is
    [None] while it is still the integer [0]. *)
Fixpoint lgb_predict_folds `{LightGBMScores}
    (features : list feature_row) (classifiers : list LGBMClassifier)
    (predictions : option (list (list R))) : result (option (list (list R))) :=
  match classifiers with
  | [] => Return predictions
  | classifier :: classifiers' =>
      let fold_scores := predict_raw_score classifier features in
      let fold_predictions := map softmax fold_scores in
      try predictions' <-
        match predictions with
        | None => Return fold_predictions
        | Some total => iadd total fold_predictions
        end in
      lgb_predict_folds features classifiers' (Some predictions')
  end.

(** Lines 475-508. The table takes the columns of the out-of-fold table;
    [pd.DataFrame] refuses rows of another width. *)
Definition LightGBMClassifier_predict `{DatasetOps} `{LightGBMScores}
    (self : classifier_setup) (trained : lgb_trained) (dataset : Dataset)
    : result DataFrame :=
  let features := select_features dataset (use_featurizer self) in
  try predictions <- lgb_predict_folds features (lgb_classifiers trained) None in
  match predictions with
  | None => Raise ZeroDivisionError          (* [0 / len([])] *)
  | Some total =>
      let n := INR (length (lgb_classifiers trained)) in
      let predictions := map (map (fun x => x / n)) total in
      let columns := columns (lgb_train_predictions trained) in
      if forallb (fun row => (length row =? length columns)%nat) predictions
      then Return {| columns := columns; rows := predictions |}
      else Raise ValueError
  end.

(** Raw scores of zero for both classes. *)
Definition example_lightgbm_scores : @LightGBMScores example_lightgbm :=
  {| predict_raw_score := fun _ X => map (fun _ => [0; 0]) X |}.

(** ** Vocabulary of the further properties *)

(** Object weights rescaled by a factor that depends on the class. *)
Definition scale_by_class (k : class_name -> R)
    (true_classes : list class_name) (object_weights : list R) : list R :=
  zip_with (fun c w => k c * w) true_classes object_weights.

(** The table with the floor of line 1032 applied to every cell. *)
Definition floor_table (predictions : DataFrame) : DataFrame :=
  {| columns := columns predictions;
     rows := map (map floor_zero) (rows predictions) |}.

(** The iterations of the loop that end with an evaluation (line 948). *)
Definition evaluates (max_iters eval_interval iter : nat) : bool :=
  (iter mod eval_interval =? 0)%nat || (iter =? max_iters - 1)%nat.

Definition gradient_steps (trace : list event) : list nat :=
  flat_map (fun e => match e with GradientStep i => [i] | _ => [] end) trace.

Definition evaluations (trace : list event) : list nat :=
  flat_map (fun e => match e with Evaluated i => [i] | _ => [] end) trace.

(** The event of drawing a mini-batch. *)
Definition is_sampled (e : event) : Prop := exists which, e = Sampled which.

(** A named object to pickle, for the examples. *)
Definition example_classifier (name : string) (state : nat) : string * nat := (name, state).

(** One object to train on and one to validate on, and the keywords of a
    short run: a [SimpleMLP], one mini-batch per evaluation. *)
Definition example_data : nn_data :=
  {| num_features := 1; train_features := [[Fin 0]]; train_classes := [1%Z];
     train_weights := [1]; validation_features := [[Fin 0]];
     validation_classes := [2%Z]; validation_weights := [1] |}.

Definition example_kwargs : nn_kwargs :=
  {| kw_model_type := Some "mlp"%string; kw_eval_iters := Some 1%nat;
     kw_eval_interval := None; kw_lr := None; kw_attn_dropout := None;
     kw_ff_dropout := None |}.

(** A table whose rows have [k] cells, all positive, that add up to [s]:
    for [s = 1], a table of probabilities. *)
Definition stacked (s : R) (k : nat) (table : list (list R)) : Prop :=
  Forall (fun row => length row = k /\ Forall (fun p => 0 < p) row /\ sum row = s)
    table.

(** An ensemble of two networks whose checkpoints are on disk, and one of
    two tree classifiers, for the examples. *)
Definition example_config : net_config :=
  {| model := "mlp"; num_continuous := 0; net_dim := 1; dim_out := 2;
     net_depth := 0; net_heads := 0; net_dim_head := 0;
     attn_dropout := 0; ff_dropout := 0 |}.

Definition example_report : logloss_report :=
  {| total_logloss := Scalar (Fin 0);
     unweighted_total_logloss := Scalar (Fin 0);
     original_logloss := None |}.

Definition example_nn_trained : @nn_trained example_torch :=
  {| nn_train_predictions := {| columns := [1; 2]%Z; rows := [] |};
     nn_train_classes := [];
     nn_classifiers := [("fold0.pt"%string, example_config);
                        ("fold1.pt"%string, example_config)];
     nn_returned := [];
     nn_report := example_report |}.

Definition example_checkpoints : @world example_torch :=
  {| w_rng := tt : @rng example_torch;
     w_files := <[ "fold0.pt"%string := 1%nat ]> (<[ "fold1.pt"%string := 2%nat ]> ∅);
     w_trace := [] |}.

Definition example_lgb_trained : @lgb_trained example_lightgbm :=
  {| lgb_importances := [];
     lgb_train_predictions := {| columns := [1; 2]%Z; rows := [] |};
     lgb_train_classes := [];
     lgb_classifiers := [tt; tt] : list (@LGBMClassifier example_lightgbm);
     lgb_report := example_report |}.
(* ================================================================== *)
(** * Properties *)
(* ================================================================== *)

(** ** Lists, masks and [np.unique] *)

Lemma In_insert_unique (x y : Z) (l : list Z) :
  In x (insert_unique y l) <-> x = y \/ In x l.
Proof.
  induction l as [|z l IH]; simpl.
  - intuition.
  - destruct (Z.ltb_spec y z) as [Hlt|Hge].
    + simpl. intuition.
    + destruct (Z.eqb_spec y z) as [->|Hne]; simpl.
      * intuition.
      * rewrite IH. intuition.
Qed.

Lemma In_unique (x : Z) (l : list Z) : In x (unique l) <-> In x l.
Proof.
  induction l as [|y l IH]; simpl.
  - tauto.
  - unfold unique in *. simpl. rewrite In_insert_unique, IH. intuition.
Qed.

Lemma insert_unique_sorted (x : Z) (l : list Z) :
  StronglySorted Z.lt l -> StronglySorted Z.lt (insert_unique x l).
Proof.
  induction 1 as [|z l Hs IH Hall]; simpl.
  - repeat constructor.
  - destruct (Z.ltb_spec x z) as [Hlt|Hge].
    + constructor; [constructor; assumption|].
      constructor; [assumption|].
      apply Forall_forall. intros w Hw.
      rewrite Forall_forall in Hall. specialize (Hall _ Hw). lia.
    + destruct (Z.eqb_spec x z) as [->|Hne].
      * constructor; assumption.
      * constructor; [assumption|].
        apply Forall_forall. intros w Hw.
        apply In_insert_unique in Hw as [->|Hw]; [lia|].
        rewrite Forall_forall in Hall. auto.
Qed.

Lemma unique_sorted (l : list Z) : StronglySorted Z.lt (unique l).
Proof.
  induction l as [|x l IH]; [constructor|].
  apply insert_unique_sorted, IH.
Qed.

Lemma sorted_NoDup (l : list Z) : StronglySorted Z.lt l -> NoDup l.
Proof.
  induction 1 as [|z l Hs IH Hall]; constructor; [|assumption].
  intros Hin. rewrite Forall_forall in Hall. specialize (Hall _ Hin). lia.
Qed.

Lemma unique_NoDup (l : list Z) : NoDup (unique l).
Proof. apply sorted_NoDup, unique_sorted. Qed.

Lemma index_of_None (c : class_name) (cols : list class_name) :
  index_of c cols = None <-> ~ In c cols.
Proof.
  induction cols as [|c' cols IH]; simpl.
  - tauto.
  - destruct (Z.eqb_spec c c') as [->|Hne].
    + split; [discriminate|]. intros H; exfalso; apply H; now left.
    + destruct (index_of c cols) eqn:E; simpl.
      * split; [discriminate|]. intros H. exfalso.
        assert (Hn : ~ In c cols) by (intros Hi; apply H; now right).
        apply IH in Hn. discriminate.
      * split; [|reflexivity]. intros _ [Heq|Hin]; [congruence|].
        now apply (proj1 IH).
Qed.

Lemma column_None (df : DataFrame) (c : class_name) :
  column df c = None <-> ~ In c (columns df).
Proof.
  unfold column. rewrite <- index_of_None.
  destruct (index_of c (columns df)); split; congruence.
Qed.

(** ** [weighted_multi_logloss]: when it raises *)

Lemma logloss_class_raises tc pred ow cw st c :
  raises (logloss_class tc pred ow cw st c) <->
  get_class_weight cw c <> 0 /\ ~ In c (columns pred).
Proof.
  unfold logloss_class, raises. destruct st as [ol s].
  rewrite <- column_None.
  destruct (Req_dec_T (get_class_weight cw c) 0) as [Hz|Hnz].
  - split; [intros [e He]; discriminate | intros [H _]; contradiction].
  - destruct (column pred c) as [col|].
    + split; [intros [e He]; discriminate | intros [_ H]; discriminate].
    + split; [auto | intros _; eauto].
Qed.

Lemma logloss_loop_raises tc pred ow cw classes st :
  raises (logloss_loop tc pred ow cw classes st) <->
  exists c, In c classes /\ get_class_weight cw c <> 0 /\ ~ In c (columns pred).
Proof.
  revert st. induction classes as [|c classes IH]; intros st; simpl.
  - split; [intros [e He]; discriminate | intros (c & [] & _)].
  - destruct (logloss_class tc pred ow cw st c) as [st'|e] eqn:E; simpl.
    + rewrite IH. split.
      * intros (c' & Hin & H). exists c'. auto.
      * intros (c' & [<-|Hin] & H); [|eauto].
        exfalso. apply (proj2 (logloss_class_raises tc pred ow cw st c)) in H.
        destruct H as [e He]. congruence.
    + split; [|intros _; exists e; reflexivity].
      intros _. exists c. split; [now left|].
      apply (logloss_class_raises tc pred ow cw st c). exists e. exact E.
Qed.

(** C5. [weighted_multi_logloss] raises exactly when some class among the
    true labels has a non-zero class weight and no column in the prediction
    table; a class of weight zero never raises, with or without a column.
    The outcome is either the exception or a value, never both. *)
Theorem weighted_multi_logloss_raises_iff
    (true_classes : list class_name) (predictions : DataFrame)
    (object_weights : option (list R)) (class_weights : option (gmap Z R))
    (return_object_contributions : bool) :
  raises (weighted_multi_logloss true_classes predictions object_weights
            class_weights return_object_contributions)
  <->
  exists c, In c true_classes
            /\ get_class_weight class_weights c <> 0
            /\ ~ In c (columns predictions).
Proof.
  unfold weighted_multi_logloss.
  set (st0 := (repeat (Fin (10 ^ 10)) (length true_classes), 0)).
  pose proof (logloss_loop_raises true_classes predictions object_weights
                class_weights (unique true_classes) st0) as Hloop.
  assert (Hu : (exists c, In c (unique true_classes)
                  /\ get_class_weight class_weights c <> 0
                  /\ ~ In c (columns predictions))
               <-> (exists c, In c true_classes
                  /\ get_class_weight class_weights c <> 0
                  /\ ~ In c (columns predictions))).
  { split; intros (c & Hin & H); exists c; (split; [|exact H]);
      now apply In_unique. }
  rewrite <- Hu, <- Hloop.
  destruct (logloss_loop _ _ _ _ _ st0) as [[ol s]|e]; simpl.
  - split; intros [e He]; [|discriminate].
    destruct return_object_contributions; discriminate.
  - split; intros _; exists e; reflexivity.
Qed.

(** ** Masks over a list of objects *)

Section Masks.
Context {A B C D : Type}.

Lemma mask_select_map (f : A -> B) (m : list bool) (xs : list A) :
  mask_select m (map f xs) = map f (mask_select m xs).
Proof.
  revert xs. induction m as [|b m IH]; intros [|x xs]; simpl; try reflexivity.
  destruct b; simpl; now rewrite IH.
Qed.

Lemma mask_select_filter (p : A -> bool) (l : list A) :
  mask_select (map p l) l = filter p l.
Proof.
  induction l as [|x l IH]; simpl; [reflexivity|].
  destruct (p x); now rewrite IH.
Qed.

Lemma mask_select_map_filter (p : A -> bool) (f : A -> B) (l : list A) :
  mask_select (map p l) (map f l) = map f (filter p l).
Proof. now rewrite mask_select_map, mask_select_filter. Qed.

Lemma zip_with_map (g : B -> C -> D) (f1 : A -> B) (f2 : A -> C) (l : list A) :
  zip_with g (map f1 l) (map f2 l) = map (fun o => g (f1 o) (f2 o)) l.
Proof. induction l as [|x l IH]; simpl; [reflexivity|now rewrite IH]. Qed.

Lemma mask_assign_map (p : A -> bool) (h v : A -> B) (l : list A) :
  mask_assign (map p l) (map h l) (map v (filter p l))
  = map (fun o => if p o then v o else h o) l.
Proof.
  induction l as [|x l IH]; simpl; [reflexivity|].
  destruct (p x); simpl; now rewrite IH.
Qed.

Lemma mask_fill_map (p : A -> bool) (h : A -> B) (v : B) (l : list A) :
  mask_fill (map p l) (map h l) v = map (fun o => if p o then v else h o) l.
Proof. induction l as [|x l IH]; simpl; [reflexivity|now rewrite IH]. Qed.

Lemma count_true_map (p : A -> bool) (l : list A) :
  count_true (map p l) = length (filter p l).
Proof.
  unfold count_true. induction l as [|x l IH]; simpl; [reflexivity|].
  destruct (p x); simpl; now rewrite IH.
Qed.
End Masks.

Lemma map_const_repeat {A B : Type} (f : A -> B) (v : B) (l : list A) :
  Forall (fun x => f x = v) l -> map f l = repeat v (length l).
Proof. induction 1 as [|x l Hx _ IH]; simpl; [reflexivity|now rewrite Hx, IH]. Qed.

Lemma repeat_length_map {A B : Type} (v : B) (l : list A) :
  repeat v (length l) = map (fun _ => v) l.
Proof. induction l as [|x l IH]; simpl; [reflexivity|now rewrite IH]. Qed.

(** ** The scored objects are the three inputs, zipped *)

Lemma zip_scored_class tc w rs :
  length w = length tc -> length rs = length tc ->
  map s_class (zip_scored tc w rs) = tc.
Proof.
  revert w rs. induction tc as [|c tc IH]; intros [|x w] [|r rs]; simpl;
    try discriminate; try reflexivity.
  intros Hw Hr. f_equal. apply IH; lia.
Qed.

Lemma zip_scored_weight tc w rs :
  length w = length tc -> length rs = length tc ->
  map s_weight (zip_scored tc w rs) = w.
Proof.
  revert w rs. induction tc as [|c tc IH]; intros [|x w] [|r rs]; simpl;
    try discriminate; try reflexivity.
  intros Hw Hr. f_equal. apply IH; lia.
Qed.

Lemma zip_scored_row tc w rs :
  length w = length tc -> length rs = length tc ->
  map s_row (zip_scored tc w rs) = rs.
Proof.
  revert w rs. induction tc as [|c tc IH]; intros [|x w] [|r rs]; simpl;
    try discriminate; try reflexivity.
  intros Hw Hr. f_equal. apply IH; lia.
Qed.

Lemma scored_objects_class tc pred ow :
  aligned tc pred ow -> map s_class (scored_objects tc pred ow) = tc.
Proof.
  intros [Hr Hw]. unfold scored_objects. apply zip_scored_class; [|exact Hr].
  destruct ow; [exact Hw|apply repeat_length].
Qed.

Lemma scored_objects_row tc pred ow :
  aligned tc pred ow -> map s_row (scored_objects tc pred ow) = rows pred.
Proof.
  intros [Hr Hw]. unfold scored_objects. apply zip_scored_row; [|exact Hr].
  destruct ow; [exact Hw|apply repeat_length].
Qed.

Lemma scored_objects_weight tc pred ow :
  aligned tc pred ow ->
  map s_weight (scored_objects tc pred ow)
  = match ow with Some w => w | None => repeat 1 (length tc) end.
Proof.
  intros [Hr Hw]. unfold scored_objects. apply zip_scored_weight; [|exact Hr].
  destruct ow; [exact Hw|apply repeat_length].
Qed.

Lemma class_object_weights_scored tc pred ow c :
  aligned tc pred ow ->
  class_object_weights tc ow c
  = map s_weight (filter (fun o => (s_class o =? c)%Z) (scored_objects tc pred ow)).
Proof.
  intros Hal. unfold class_object_weights, eq_mask.
  set (objs := scored_objects tc pred ow).
  pose proof (scored_objects_class tc pred ow Hal) as Hc.
  pose proof (scored_objects_weight tc pred ow Hal) as Hw.
  fold objs in Hc, Hw. rewrite <- Hc, map_map.
  destruct ow as [w|].
  - rewrite <- Hw. apply mask_select_map_filter.
  - rewrite (count_true_map (fun o => (s_class o =? c)%Z) objs).
    symmetry.
    rewrite (map_const_repeat s_weight 1).
    + reflexivity.
    + apply Forall_forall. intros o Ho. apply filter_In in Ho as [Ho _].
      assert (Hin : In (s_weight o) (map s_weight objs)) by now apply in_map.
      rewrite Hw in Hin. now apply repeat_spec in Hin.
Qed.

Lemma column_scored tc pred ow c j :
  aligned tc pred ow -> index_of c (columns pred) = Some j ->
  column pred c = Some (map (fun o => nth j (s_row o) 0) (scored_objects tc pred ow)).
Proof.
  intros Hal Hj. unfold column. rewrite Hj.
  rewrite <- (scored_objects_row tc pred ow Hal), map_map. reflexivity.
Qed.

(** ** One class of the loop, object by object *)

Lemma logloss_class_scored tc pred ow cw h s c :
  aligned tc pred ow ->
  logloss_class tc pred ow cw (map h (scored_objects tc pred ow), s) c
  = if lacks_predictions cw pred c then Raise (AvocadoException c)
    else Return
           (map (fun o => if (s_class o =? c)%Z
                          then object_logloss (columns pred) cw
                                 (scored_objects tc pred ow) o
                          else h o) (scored_objects tc pred ow),
            if nonzero_weight cw c then s + get_class_weight cw c else s).
Proof.
  intros Hal. set (objs := scored_objects tc pred ow). unfold logloss_class, lacks_predictions, nonzero_weight.
  pose proof (scored_objects_class tc pred ow Hal) as Hc. fold objs in Hc.
  assert (Hmask : eq_mask tc c = map (fun o => (s_class o =? c)%Z) objs).
  { unfold eq_mask. rewrite <- Hc at 1. now rewrite map_map. }
  rewrite Hmask.
  destruct (Req_dec_T (get_class_weight cw c) 0) as [Hz|Hnz]; cbn [andb].
  - rewrite mask_fill_map. do 2 f_equal.
    apply map_ext_in. intros o _. cbv beta.
    destruct (Z.eqb_spec (s_class o) c) as [Heq|]; [|reflexivity].
    unfold object_logloss. rewrite Heq.
    destruct (Req_dec_T _ 0); [reflexivity|contradiction].
  - destruct (index_of c (columns pred)) as [j|] eqn:Hj.
    + rewrite (column_scored tc pred ow c j Hal Hj). fold objs.
      rewrite (class_object_weights_scored tc pred ow c Hal). fold objs.
      rewrite mask_select_map_filter, map_map, zip_with_map.
      rewrite (mask_assign_map (fun o => (s_class o =? c)%Z) h
                 (fun o => xdiv (xmul (Fin (- get_class_weight cw c * s_weight o))
                                   (np_log (floor_zero (nth j (s_row o) 0))))
                             (Fin (class_total_weight objs c)))).
      do 2 f_equal. apply map_ext_in. intros o _. cbv beta.
      destruct (Z.eqb_spec (s_class o) c) as [Heq|]; [|reflexivity].
      unfold object_logloss, true_class_probability. rewrite Heq, Hj.
      destruct (Req_dec_T _ 0); [contradiction|reflexivity].
    + unfold column. rewrite Hj. reflexivity.
Qed.

(** ** The whole loop, object by object *)

Lemma logloss_loop_scored tc pred ow cw classes h s :
  aligned tc pred ow ->
  logloss_loop tc pred ow cw classes (map h (scored_objects tc pred ow), s)
  = match find (lacks_predictions cw pred) classes with
    | Some c => Raise (AvocadoException c)
    | None =>
        Return
          (map (fun o => if visited classes o
                         then object_logloss (columns pred) cw
                                (scored_objects tc pred ow) o
                         else h o) (scored_objects tc pred ow),
           s + sum (map (get_class_weight cw) (filter (nonzero_weight cw) classes)))
    end.
Proof.
  intros Hal. set (objs := scored_objects tc pred ow). revert h s.
  induction classes as [|c classes IH]; intros h s;
    cbn [logloss_loop find filter map sum fold_right].
  - apply f_equal, f_equal2; [|lra]. apply map_ext. reflexivity.
  - pose proof (logloss_class_scored tc pred ow cw h s c Hal) as Hstep.
    fold objs in Hstep. rewrite Hstep. clear Hstep.
    destruct (lacks_predictions cw pred c); [reflexivity|].
    cbn [bind]. rewrite IH.
    destruct (find (lacks_predictions cw pred) classes); [reflexivity|].
    apply f_equal, f_equal2.
    + apply map_ext. intros o. unfold visited. simpl.
      destruct (s_class o =? c)%Z; simpl; [|reflexivity].
      match goal with |- context [if ?b then _ else _] => destruct b end;
        reflexivity.
    + destruct (nonzero_weight cw c); unfold sum; cbn [map fold_right]; lra.
Qed.

Lemma visited_unique tc pred ow o :
  aligned tc pred ow -> In o (scored_objects tc pred ow) ->
  visited (unique tc) o = true.
Proof.
  intros Hal Ho. unfold visited. apply existsb_exists.
  exists (s_class o). split; [|apply Z.eqb_refl].
  apply In_unique. rewrite <- (scored_objects_class tc pred ow Hal).
  now apply in_map.
Qed.

Lemma weighted_multi_logloss_scored tc pred ow cw flag :
  aligned tc pred ow ->
  weighted_multi_logloss tc pred ow cw flag
  = match find (lacks_predictions cw pred) (unique tc) with
    | Some c => Raise (AvocadoException c)
    | None =>
        let objs := scored_objects tc pred ow in
        let xs :=
          map (fun o => xdiv (object_logloss (columns pred) cw objs o)
                             (Fin (spec_normalizer tc cw))) objs in
        Return (if flag then Contributions xs else Scalar (series_sum xs))
    end.
Proof.
  intros Hal. unfold weighted_multi_logloss.
  pose proof (scored_objects_class tc pred ow Hal) as Hc.
  set (objs := scored_objects tc pred ow) in *.
  assert (Hinit : repeat (Fin (10 ^ 10)) (length tc)
                  = map (fun _ : scored => Fin (10 ^ 10)) objs).
  { rewrite <- Hc, length_map. apply repeat_length_map. }
  pose proof (logloss_loop_scored tc pred ow cw (unique tc)
                (fun _ => Fin (10 ^ 10)) 0 Hal) as Hloop.
  fold objs in Hloop. rewrite Hinit, Hloop. clear Hloop.
  destruct (find (lacks_predictions cw pred) (unique tc)); [reflexivity|].
  cbn [bind]. rewrite map_map.
  assert (Hxs : forall xs ys : list xfloat, xs = ys ->
            (if flag then Return (Contributions xs) else Return (Scalar (series_sum xs)))
            = Return (if flag then Contributions ys else Scalar (series_sum ys))).
  { intros xs ys ->. now destruct flag. }
  apply Hxs. apply map_ext_in. intros o Ho.
  rewrite (visited_unique tc pred ow o Hal Ho).
  unfold spec_normalizer. apply f_equal, f_equal. lra.
Qed.

(** ** The metric is the specification's formula *)

Lemma series_sum_Fin {A : Type} (f : A -> R) (l : list A) :
  series_sum (map (fun o => Fin (f o)) l) = Fin (sum (map f l)).
Proof.
  unfold series_sum, sum. induction l as [|x l IH]; simpl; [reflexivity|].
  rewrite IH. reflexivity.
Qed.

Lemma sum_filter_div {A : Type} (p : A -> bool) (g : A -> R) (n : R) (l : list A) :
  sum (map (fun o => if p o then g o / n else 0) l)
  = sum (map g (filter p l)) / n.
Proof.
  unfold sum. induction l as [|x l IH]; simpl.
  - unfold Rdiv. now rewrite Rmult_0_l.
  - rewrite IH. destruct (p x); simpl; unfold Rdiv; ring.
Qed.

Lemma find_lacks_None cw pred classes :
  (forall c, In c classes -> get_class_weight cw c <> 0 -> In c (columns pred)) ->
  find (lacks_predictions cw pred) classes = None.
Proof.
  intros H. destruct (find _ classes) as [c|] eqn:E; [|reflexivity].
  apply find_some in E as [Hin Hl]. exfalso.
  unfold lacks_predictions, nonzero_weight in Hl.
  destruct (Req_dec_T (get_class_weight cw c) 0) as [|Hnz]; [discriminate|].
  specialize (H c Hin Hnz).
  destruct (index_of c (columns pred)) eqn:Hi; [discriminate|].
  now apply index_of_None in Hi.
Qed.

Lemma true_class_probability_nonneg cols o :
  Forall (fun p => 0 <= p) (s_row o) -> 0 <= true_class_probability cols o.
Proof.
  intros Hrow. unfold true_class_probability.
  destruct (index_of (s_class o) cols) as [j|]; [|lra].
  destruct (nth_in_or_default j (s_row o) 0) as [Hin | Hd]; [|rewrite Hd; lra].
  rewrite Forall_forall in Hrow. now apply Hrow.
Qed.

Lemma floor_zero_pos p : 0 <= p -> 0 < floor_zero p.
Proof.
  intros Hp. unfold floor_zero. destruct (Req_dec_T p 0) as [->|Hne]; [|lra].
  apply Rinv_0_lt_compat, pow_lt. lra.
Qed.

Lemma object_logloss_finite cols cw objs o n :
  n <> 0 ->
  (get_class_weight cw (s_class o) <> 0 -> class_total_weight objs (s_class o) <> 0) ->
  Forall (fun p => 0 <= p) (s_row o) ->
  xdiv (object_logloss cols cw objs o) (Fin n)
  = Fin (if nonzero_weight cw (s_class o)
         then spec_contribution cols cw objs o / n else 0).
Proof.
  intros Hn Htot Hrow. unfold object_logloss, nonzero_weight, spec_contribution.
  destruct (Req_dec_T (get_class_weight cw (s_class o)) 0) as [Hz|Hnz].
  - simpl. destruct (Req_dec_T n 0); [contradiction|].
    f_equal. unfold Rdiv. ring.
  - specialize (Htot Hnz).
    pose proof (floor_zero_pos _ (true_class_probability_nonneg cols o Hrow)) as Hpos.
    unfold np_log. destruct (Rlt_dec 0 _) as [_|Hn0]; [|contradiction].
    simpl. destruct (Req_dec_T (class_total_weight objs (s_class o)) 0);
      [contradiction|].
    simpl. destruct (Req_dec_T n 0); [contradiction|]. reflexivity.
Qed.

(** C1. On aligned inputs with a column for every class that counts, a
    non-zero sum of object weights in each such class, a non-zero sum of
    class weights and non-negative prediction entries,
    [weighted_multi_logloss] returns the finite value of the specification's
    formula: each object of a class with non-zero weight contributes
    [-class_weight * object_weight * ln(p) / sum(object weights of the class)],
    with [p] the predicted probability of the true class and a probability of
    exactly [0] replaced by [1e-10]; the total is divided by the sum of the
    weights of the non-zero-weighted classes present. The per-object
    contributions returned on request are the same terms, already divided. *)
Theorem weighted_multi_logloss_formula
    (true_classes : list class_name) (predictions : DataFrame)
    (object_weights : option (list R)) (class_weights : option (gmap Z R)) :
  aligned true_classes predictions object_weights ->
  (forall c, In c true_classes -> get_class_weight class_weights c <> 0 ->
             In c (columns predictions)) ->
  (forall c, In c true_classes -> get_class_weight class_weights c <> 0 ->
             sum (class_object_weights true_classes object_weights c) <> 0) ->
  spec_normalizer true_classes class_weights <> 0 ->
  Forall (Forall (fun p => 0 <= p)) (rows predictions) ->
  weighted_multi_logloss true_classes predictions object_weights class_weights false
  = Return (Scalar (Fin (spec_logloss true_classes predictions object_weights
                           class_weights)))
  /\
  weighted_multi_logloss true_classes predictions object_weights class_weights true
  = Return (Contributions
      (map (fun o =>
              Fin (if nonzero_weight class_weights (s_class o)
                   then spec_contribution (columns predictions) class_weights
                          (scored_objects true_classes predictions object_weights) o
                        / spec_normalizer true_classes class_weights
                   else 0))
           (scored_objects true_classes predictions object_weights))).
Proof.
  intros Hal Hcols Hsum Hnorm Hpred.
  rewrite !(weighted_multi_logloss_scored _ _ _ _ _ Hal).
  rewrite find_lacks_None
    by (intros c Hc; apply Hcols; now apply In_unique).
  cbv zeta.
  set (objs := scored_objects true_classes predictions object_weights).
  assert (Hxs :
    map (fun o => xdiv (object_logloss (columns predictions) class_weights objs o)
                       (Fin (spec_normalizer true_classes class_weights))) objs
    = map (fun o =>
             Fin (if nonzero_weight class_weights (s_class o)
                  then spec_contribution (columns predictions) class_weights objs o
                       / spec_normalizer true_classes class_weights
                  else 0)) objs).
  { apply map_ext_in. intros o Ho. apply object_logloss_finite; [exact Hnorm| |].
    - intros Hnz.
      assert (Hin : In (s_class o) true_classes).
      { rewrite <- (scored_objects_class _ _ _ Hal). now apply in_map. }
      specialize (Hsum _ Hin Hnz).
      rewrite (class_object_weights_scored _ predictions _ _ Hal) in Hsum.
      exact Hsum.
    - rewrite Forall_forall in Hpred. apply Hpred.
      rewrite <- (scored_objects_row _ _ _ Hal). now apply in_map. }
  rewrite Hxs. split; [|reflexivity].
  rewrite (series_sum_Fin
             (fun o => if nonzero_weight class_weights (s_class o)
                       then spec_contribution (columns predictions) class_weights objs o
                            / spec_normalizer true_classes class_weights
                       else 0)).
  rewrite (sum_filter_div (fun o => nonzero_weight class_weights (s_class o))).
  reflexivity.
Qed.

(** Decide the tests on real numbers the embedding leaves to the proof. *)
Ltac absurd_real := exfalso; simplify_map_eq; lra.

Ltac real_tests :=
  repeat match goal with
  | |- context [Req_dec_T ?a ?b] =>
      destruct (Req_dec_T a b); [try absurd_real|try absurd_real]
  | |- context [Rlt_dec ?a ?b] =>
      destruct (Rlt_dec a b); [try absurd_real|try absurd_real]
  end.

Lemma weighted_multi_logloss_formula_witness :
  let true_classes := [1; 1; 2; 3]%Z in
  let predictions :=
    {| columns := [1; 2]%Z;
       rows := [[9 / 10; 1 / 10]; [0; 1]; [1 / 2; 1 / 2]; [1 / 5; 4 / 5]] |} in
  let object_weights := Some [1; 2; 3; 4] in
  let class_weights := Some ({[ 3%Z := 0 ]} : gmap Z R) in
  weighted_multi_logloss true_classes predictions object_weights class_weights false
  = Return (Scalar (Fin (spec_logloss true_classes predictions object_weights
                           class_weights))).
Proof.
  intros tc pred ow cw.
  refine (proj1 (weighted_multi_logloss_formula tc pred ow cw _ _ _ _ _)).
  - split; reflexivity.
  - intros c Hc Hnz. simpl in Hc.
    destruct Hc as [<-|[<-|[<-|[<-|[]]]]]; simpl; auto.
  - intros c Hc Hnz. simpl in Hc.
    destruct Hc as [<-|[<-|[<-|[<-|[]]]]]; simpl; lra.
  - unfold spec_normalizer, nonzero_weight. simpl. real_tests.
    simpl. simplify_map_eq. lra.
  - repeat constructor; lra.
Defined.

(** The scenario of the specification: three objects of classes
    [A, A, B] (here [1, 1, 2]), uniform weights, no class weights. *)
Example weighted_multi_logloss_scenario :
  weighted_multi_logloss [1; 1; 2]%Z
    {| columns := [1; 2]%Z;
       rows := [[9 / 10; 1 / 10]; [1 / 2; 1 / 2]; [1 / 2; 1 / 2]] |}
    None None false
  = Return (Scalar (Fin (- (ln (9 / 10) + ln (1 / 2)) / 2 / 2 + - ln (1 / 2) / 1 / 2))).
Proof.
  rewrite weighted_multi_logloss_scored by (split; reflexivity).
  rewrite find_lacks_None by (intros c Hc _; simpl in Hc |- *; tauto).
  unfold spec_normalizer, nonzero_weight, object_logloss, class_total_weight,
    true_class_probability, floor_zero, np_log, series_sum.
  simpl. repeat (real_tests; simpl).
  do 3 f_equal. field.
Qed.

(** ** Deleting the rows of a class *)

Lemma insert_unique_below (x : Z) (l : list Z) :
  Forall (Z.lt x) l -> insert_unique x l = x :: l.
Proof.
  destruct 1 as [|y l Hy _]; simpl; [reflexivity|].
  destruct (Z.ltb_spec x y); [reflexivity|lia].
Qed.

Lemma insert_unique_filter (p : Z -> bool) (x : Z) (u : list Z) :
  StronglySorted Z.lt u ->
  filter p (insert_unique x u)
  = if p x then insert_unique x (filter p u) else filter p u.
Proof.
  induction 1 as [|y u Hs IH Hall]; simpl.
  - destruct (p x); reflexivity.
  - destruct (Z.ltb_spec x y) as [Hlt|Hge].
    + simpl. destruct (p x) eqn:Hpx; [|reflexivity].
      symmetry. apply insert_unique_below.
      assert (Hxu : Forall (Z.lt x) (y :: u)).
      { constructor; [exact Hlt|]. rewrite Forall_forall in Hall |- *.
        intros z Hz. specialize (Hall z Hz). lia. }
      rewrite Forall_forall in Hxu |- *. intros z Hz. apply Hxu.
      change (In z (filter p (y :: u))) in Hz. now apply filter_In in Hz as [Hz _].
    + destruct (Z.eqb_spec x y) as [->|Hne].
      * simpl. destruct (p y); simpl; [|reflexivity].
        rewrite Z.ltb_irrefl, Z.eqb_refl. reflexivity.
      * simpl. rewrite IH. destruct (p y), (p x); simpl; try reflexivity.
        destruct (Z.ltb_spec x y); [lia|].
        destruct (Z.eqb_spec x y); [lia|reflexivity].
Qed.

Lemma unique_filter (p : Z -> bool) (l : list Z) :
  unique (filter p l) = filter p (unique l).
Proof.
  induction l as [|x l IH]; [reflexivity|].
  change (unique (x :: l)) with (insert_unique x (unique l)).
  rewrite insert_unique_filter by apply unique_sorted.
  simpl. destruct (p x); [|exact IH].
  change (unique (x :: filter p l)) with (insert_unique x (unique (filter p l))).
  now rewrite IH.
Qed.

Lemma find_filter {A : Type} (q p : A -> bool) (l : list A) :
  (forall x, q x = true -> p x = true) ->
  find q (filter p l) = find q l.
Proof.
  intros Hqp. induction l as [|x l IH]; simpl; [reflexivity|].
  destruct (p x) eqn:Hp; simpl.
  - destruct (q x); [reflexivity|exact IH].
  - destruct (q x) eqn:Hq; [|exact IH].
    rewrite (Hqp x Hq) in Hp. discriminate.
Qed.

Lemma filter_filter_imp {A : Type} (q p : A -> bool) (l : list A) :
  (forall x, q x = true -> p x = true) ->
  filter q (filter p l) = filter q l.
Proof.
  intros Hqp. induction l as [|x l IH]; simpl; [reflexivity|].
  destruct (p x) eqn:Hp; simpl.
  - destruct (q x); now rewrite IH.
  - destruct (q x) eqn:Hq; [|exact IH].
    rewrite (Hqp x Hq) in Hp. discriminate.
Qed.

Lemma zip_scored_map (l : list scored) :
  zip_scored (map s_class l) (map s_weight l) (map s_row l) = l.
Proof.
  induction l as [|[c w r] l IH]; simpl; [reflexivity|now rewrite IH].
Qed.

Lemma scored_objects_map (l : list scored) (cols : list class_name) (ow : option (list R)) :
  match ow with
  | Some w => w = map s_weight l
  | None => Forall (fun o => s_weight o = 1) l
  end ->
  scored_objects (map s_class l) {| columns := cols; rows := map s_row l |} ow = l.
Proof.
  intros Hw. unfold scored_objects. simpl.
  destruct ow as [w|].
  - subst w. apply zip_scored_map.
  - rewrite length_map, <- (map_const_repeat s_weight 1 l Hw).
    apply zip_scored_map.
Qed.

(** The inputs without the rows of class [c] describe the objects of the
    other classes. *)
Lemma drop_class_scored tc pred ow c :
  aligned tc pred ow ->
  let keep := fun o => negb (s_class o =? c)%Z in
  let objs := scored_objects tc pred ow in
  drop_class_rows tc c tc = map s_class (filter keep objs) /\
  drop_class_frame tc c pred
  = {| columns := columns pred; rows := map s_row (filter keep objs) |} /\
  match option_map (drop_class_rows tc c) ow with
  | Some w => w = map s_weight (filter keep objs)
  | None => Forall (fun o => s_weight o = 1) (filter keep objs)
  end.
Proof.
  intros Hal keep objs.
  pose proof (scored_objects_class tc pred ow Hal) as Hc.
  pose proof (scored_objects_row tc pred ow Hal) as Hr.
  pose proof (scored_objects_weight tc pred ow Hal) as Hw.
  fold objs in Hc, Hr, Hw.
  assert (Hmask : ne_mask tc c = map keep objs).
  { unfold ne_mask. rewrite <- Hc, map_map. reflexivity. }
  unfold drop_class_frame, drop_class_rows. rewrite Hmask.
  split; [|split].
  - rewrite <- Hc. apply mask_select_map_filter.
  - f_equal. rewrite <- Hr. apply mask_select_map_filter.
  - destruct ow as [w|]; simpl.
    + rewrite <- Hw. apply mask_select_map_filter.
    + apply Forall_forall. intros o Ho. apply filter_In in Ho as [Ho _].
      assert (Hin : In (s_weight o) (map s_weight objs)) by now apply in_map.
      rewrite Hw in Hin. now apply repeat_spec in Hin.
Qed.

Lemma aligned_map (l : list scored) (cols : list class_name) (ow : option (list R)) :
  match ow with
  | Some w => w = map s_weight l
  | None => True
  end ->
  aligned (map s_class l) {| columns := cols; rows := map s_row l |} ow.
Proof.
  intros Hw. split; simpl; [now rewrite !length_map|].
  destruct ow; [subst; now rewrite !length_map|exact I].
Qed.

Lemma xadd_zero_l (x : xfloat) : xadd (Fin 0) x = x.
Proof. destruct x; simpl; try reflexivity. f_equal. lra. Qed.

Lemma series_sum_filter {A : Type} (keep : A -> bool) (g : A -> xfloat) (l : list A) :
  (forall o, keep o = false -> g o = Fin 0 \/ g o = NaN) ->
  series_sum (map g l) = series_sum (map g (filter keep l)).
Proof.
  intros Hg. unfold series_sum. induction l as [|o l IH]; simpl; [reflexivity|].
  destruct (keep o) eqn:Hk; simpl; rewrite IH; [reflexivity|].
  destruct (Hg o Hk) as [-> | ->]; [apply xadd_zero_l|reflexivity].
Qed.

Lemma xdiv_zero (n : R) : xdiv (Fin 0) (Fin n) = Fin 0 \/ xdiv (Fin 0) (Fin n) = NaN.
Proof.
  simpl. destruct (Req_dec_T n 0).
  - right. unfold inf_of_sign.
    destruct (total_order_T 0 0) as [[H|H]|H]; try reflexivity; lra.
  - left. f_equal. unfold Rdiv. ring.
Qed.

Lemma drop_class_rows_filter tc c :
  drop_class_rows tc c tc = filter (fun x => negb (x =? c)%Z) tc.
Proof. unfold drop_class_rows, ne_mask. apply mask_select_filter. Qed.

Lemma nonzero_weight_other cw c x :
  get_class_weight cw c = 0 -> nonzero_weight cw x = true -> negb (x =? c)%Z = true.
Proof.
  intros Hz Hx. destruct (Z.eqb_spec x c) as [->|]; [|reflexivity].
  unfold nonzero_weight in Hx. destruct (Req_dec_T _ 0); [discriminate|contradiction].
Qed.

Lemma spec_normalizer_drop tc cw c :
  get_class_weight cw c = 0 ->
  spec_normalizer (drop_class_rows tc c tc) cw = spec_normalizer tc cw.
Proof.
  intros Hz. unfold spec_normalizer.
  rewrite drop_class_rows_filter, unique_filter, filter_filter_imp; [reflexivity|].
  intros x. apply nonzero_weight_other, Hz.
Qed.

Lemma class_total_weight_drop objs c c' :
  c' <> c ->
  class_total_weight (filter (fun o => negb (s_class o =? c)%Z) objs) c'
  = class_total_weight objs c'.
Proof.
  intros Hne. unfold class_total_weight. rewrite filter_filter_imp; [reflexivity|].
  intros o Ho. apply Z.eqb_eq in Ho. rewrite Ho.
  destruct (Z.eqb_spec c' c); [contradiction|reflexivity].
Qed.

(** C4. A class of weight [0] has no influence on the metric: the scalar
    [weighted_multi_logloss] equals the one computed after deleting every
    row of that class from the true classes, the prediction table and the
    object weights, the class weights being summed over the remaining
    classes. The class is excluded from the normalizer, and where the
    normalizer is not zero each of its objects contributes exactly [0]. *)
Theorem zero_weight_class_has_no_influence
    (true_classes : list class_name) (predictions : DataFrame)
    (object_weights : option (list R)) (class_weights : option (gmap Z R))
    (c : class_name) :
  aligned true_classes predictions object_weights ->
  get_class_weight class_weights c = 0 ->
  weighted_multi_logloss true_classes predictions object_weights class_weights false
  = weighted_multi_logloss
      (drop_class_rows true_classes c true_classes)
      (drop_class_frame true_classes c predictions)
      (option_map (drop_class_rows true_classes c) object_weights)
      class_weights false
  /\
  spec_normalizer true_classes class_weights
  = spec_normalizer (drop_class_rows true_classes c true_classes) class_weights
  /\
  (forall xs i,
      weighted_multi_logloss true_classes predictions object_weights class_weights true
      = Return (Contributions xs) ->
      spec_normalizer true_classes class_weights <> 0 ->
      nth_error true_classes i = Some c ->
      nth_error xs i = Some (Fin 0)).
Proof.
  intros Hal Hz.
  set (keep := fun o => negb (s_class o =? c)%Z).
  set (objs := scored_objects true_classes predictions object_weights).
  destruct (drop_class_scored true_classes predictions object_weights c Hal)
    as (Htc & Hpred & Hw).
  fold keep objs in Htc, Hpred, Hw.
  split; [|split].
  - rewrite (weighted_multi_logloss_scored _ _ _ _ _ Hal). fold objs.
    assert (Hal' : aligned (drop_class_rows true_classes c true_classes)
                     (drop_class_frame true_classes c predictions)
                     (option_map (drop_class_rows true_classes c) object_weights)).
    { rewrite Htc, Hpred. apply aligned_map.
      destruct (option_map _ object_weights); [exact Hw|exact I]. }
    rewrite (weighted_multi_logloss_scored _ _ _ _ _ Hal').
    rewrite (spec_normalizer_drop _ _ _ Hz).
    assert (Hobjs : scored_objects (drop_class_rows true_classes c true_classes)
                      (drop_class_frame true_classes c predictions)
                      (option_map (drop_class_rows true_classes c) object_weights)
                    = filter keep objs).
    { rewrite Htc, Hpred. apply scored_objects_map. exact Hw. }
    rewrite Hobjs.
    assert (Hfind : find (lacks_predictions class_weights
                            (drop_class_frame true_classes c predictions))
                         (unique (drop_class_rows true_classes c true_classes))
                    = find (lacks_predictions class_weights predictions)
                         (unique true_classes)).
    { rewrite drop_class_rows_filter, unique_filter.
      rewrite <- (find_filter (lacks_predictions class_weights predictions)
                    (fun x => negb (x =? c)%Z) (unique true_classes)).
      - reflexivity.
      - intros x Hx. unfold lacks_predictions in Hx.
        apply andb_true_iff in Hx as [Hx _].
        exact (nonzero_weight_other _ _ _ Hz Hx). }
    rewrite Hfind.
    destruct (find (lacks_predictions class_weights predictions)
                (unique true_classes)); [reflexivity|].
    cbv zeta. do 2 f_equal.
    rewrite (series_sum_filter keep).
    + f_equal. apply map_ext_in. intros o Ho.
      apply filter_In in Ho as [_ Hk]. f_equal.
      unfold object_logloss, drop_class_frame, keep. cbn [columns].
      rewrite class_total_weight_drop; [reflexivity|].
      unfold keep in Hk. destruct (Z.eqb_spec (s_class o) c); [discriminate|assumption].
    + intros o Hk. unfold keep in Hk.
      destruct (Z.eqb_spec (s_class o) c) as [Heq|]; [|discriminate].
      unfold object_logloss. rewrite Heq.
      destruct (Req_dec_T _ 0); [|contradiction]. apply xdiv_zero.
  - symmetry. apply spec_normalizer_drop, Hz.
  - intros xs i Hret Hnorm Hi.
    rewrite (weighted_multi_logloss_scored _ _ _ _ _ Hal) in Hret. fold objs in Hret.
    destruct (find (lacks_predictions class_weights predictions)
                (unique true_classes)); [discriminate|].
    cbv zeta in Hret. injection Hret as <-.
    rewrite <- (scored_objects_class _ _ _ Hal) in Hi. fold objs in Hi.
    rewrite nth_error_map in Hi |- *.
    destruct (nth_error objs i) as [o|]; [|discriminate].
    simpl in Hi |- *. injection Hi as Ho. f_equal.
    unfold object_logloss. rewrite Ho.
    destruct (Req_dec_T _ 0); [|contradiction].
    simpl. destruct (Req_dec_T _ 0); [contradiction|].
    f_equal. unfold Rdiv. ring.
Qed.

Lemma zero_weight_class_has_no_influence_witness :
  let true_classes := [1; 1; 2; 3]%Z in
  let predictions :=
    {| columns := [1; 2]%Z;
       rows := [[9 / 10; 1 / 10]; [0; 1]; [1 / 2; 1 / 2]; [1 / 5; 4 / 5]] |} in
  let object_weights := Some [1; 2; 3; 4] in
  let class_weights := Some ({[ 3%Z := 0 ]} : gmap Z R) in
  weighted_multi_logloss true_classes predictions object_weights class_weights false
  = weighted_multi_logloss [1; 1; 2]%Z
      {| columns := [1; 2]%Z;
         rows := [[9 / 10; 1 / 10]; [0; 1]; [1 / 2; 1 / 2]] |}
      (Some [1; 2; 3]) class_weights false.
Proof.
  intros tc pred ow cw.
  refine (proj1 (zero_weight_class_has_no_influence tc pred ow cw 3%Z _ _)).
  - split; reflexivity.
  - unfold cw, get_class_weight. simplify_map_eq. reflexivity.
Defined.

(** ** [evaluate_weights_flat] *)

Lemma flat_class_result cw n m c k :
  flat_class cw n m (c, k)
  = match cw with
    | Some w =>
        match w !! c with
        | Some x => Return (<[c := x * INR n / INR k]> m)
        | None => Raise (KeyError c)
        end
    | None => Return (<[c := 1 * INR n / INR k]> m)
    end.
Proof.
  unfold flat_class. destruct cw as [w|]; [|reflexivity].
  destruct (w !! c); reflexivity.
Qed.

Lemma flat_loop_raises cw n l m :
  raises (flat_loop cw n l m) <-> exists e, In e l /\ ~ listed cw (fst e).
Proof.
  revert m. induction l as [|[c k] l IH]; intros m; cbn [flat_loop].
  - split; [intros [e He]; discriminate|intros (e & [] & _)].
  - rewrite flat_class_result. destruct cw as [w|]; cbn [listed] in *.
    + destruct (w !! c) as [x|] eqn:Hc; cbn [bind].
      * rewrite IH. split.
        -- intros (e & He & Hn). exists e. split; [now right|exact Hn].
        -- intros (e & [<-|He] & Hn); [|eauto].
           exfalso. apply Hn. simpl. rewrite Hc. eauto.
      * split; [|intros _; eexists; reflexivity].
        intros _. exists (c, k). split; [now left|].
        simpl. rewrite Hc. intros [x Hx]. discriminate.
    + cbn [bind]. rewrite IH. split.
      * intros (e & He & Hn). exfalso. apply Hn. exact I.
      * intros (e & He & Hn). exfalso. apply Hn. exact I.
Qed.

Lemma flat_loop_raises_KeyError cw n l m e :
  flat_loop cw n l m = Raise e ->
  exists c, e = KeyError c /\ In c (map fst l) /\ ~ listed cw c.
Proof.
  revert m. induction l as [|[c k] l IH]; intros m; cbn [flat_loop].
  - discriminate.
  - rewrite flat_class_result. destruct cw as [w|]; cbn [listed] in *.
    + destruct (w !! c) as [x|] eqn:Hc; cbn [bind].
      * intros H. destruct (IH _ H) as (c' & -> & Hin & Hn).
        exists c'. split; [reflexivity|]. split; [now right|exact Hn].
      * intros [= <-]. exists c. split; [reflexivity|]. split; [now left|].
        rewrite Hc. intros [x Hx]. discriminate.
    + cbn [bind]. intros H. destruct (IH _ H) as (c' & _ & _ & Hn).
      exfalso. apply Hn. exact I.
Qed.

(** The dict the loop builds: the entry of each class counted, the others
    as they were. *)
Lemma flat_loop_lookup cw n l m :
  NoDup (map fst l) ->
  (forall e, In e l -> listed cw (fst e)) ->
  exists m', flat_loop cw n l m = Return m' /\
    (forall c k, In (c, k) l ->
       m' !! c = Some (get_class_weight cw c * INR n / INR k)) /\
    (forall c, ~ In c (map fst l) -> m' !! c = m !! c).
Proof.
  revert m. induction l as [|[c k] l IH]; intros m Hnd Hl; cbn [flat_loop].
  - exists m. split; [reflexivity|]. split; [intros c k []|reflexivity].
  - inversion Hnd as [|? ? Hc Hnd']; subst.
    rewrite flat_class_result.
    assert (Hstep : exists x,
      match cw with
      | Some w => match w !! c with
                  | Some x => Return (<[c := x * INR n / INR k]> m)
                  | None => Raise (KeyError c)
                  end
      | None => Return (<[c := 1 * INR n / INR k]> m)
      end = Return (<[c := x * INR n / INR k]> m)
      /\ x = get_class_weight cw c).
    { specialize (Hl (c, k) (or_introl eq_refl)). unfold get_class_weight.
      destruct cw as [w|]; cbn [listed fst] in Hl.
      - destruct Hl as [x Hx]. rewrite Hx. eauto.
      - eauto. }
    destruct Hstep as (x & -> & ->). cbn [bind].
    destruct (IH (<[c := get_class_weight cw c * INR n / INR k]> m) Hnd')
      as (m' & Hm' & Hin & Hout).
    { intros e He. apply Hl. now right. }
    exists m'. split; [exact Hm'|]. split.
    + intros c' k' [[= <- <-]|He]; [|now apply Hin].
      rewrite (Hout c Hc). apply lookup_insert_eq.
    + intros c' Hc'. simpl in Hc'.
      rewrite Hout by tauto. apply lookup_insert_ne. tauto.
Qed.

Lemma value_counts_keys xs : map fst (value_counts xs) = unique xs.
Proof.
  unfold value_counts. rewrite map_map. simpl. apply map_id.
Qed.

Lemma sum_repeat (v : R) (n : nat) : sum (repeat v n) = INR n * v.
Proof.
  unfold sum. induction n as [|n IH]; [simpl; ring|].
  cbn [repeat fold_right]. rewrite IH, S_INR. ring.
Qed.

Lemma count_true_pos xs c : In c xs -> (0 < count_true (eq_mask xs c))%nat.
Proof.
  intros Hin. unfold eq_mask. rewrite count_true_map.
  assert (Hf : In c (filter (fun x => (x =? c)%Z) xs)).
  { apply filter_In. split; [exact Hin|apply Z.eqb_refl]. }
  destruct (filter _ xs); [destruct Hf|simpl; lia].
Qed.

Lemma flat_values_class_sum (f : class_name -> R) (xs : list class_name) (c : class_name) :
  sum (mask_select (eq_mask xs c) (map f xs))
  = INR (count_true (eq_mask xs c)) * f c.
Proof.
  unfold eq_mask. rewrite mask_select_map_filter, count_true_map.
  rewrite (map_const_repeat f (f c)).
  - apply sum_repeat.
  - apply Forall_forall. intros x Hx. apply filter_In in Hx as [_ Hx].
    apply Z.eqb_eq in Hx. now rewrite Hx.
Qed.

(** C2. When the supplied mapping lists every class of the dataset (or no
    mapping is supplied), [evaluate_weights_flat] returns a Series on the
    index of the metadata in which the weights of the objects of each class
    sum to the user multiplier of the class times the total object count,
    the multiplier being [1] without a mapping: whatever the class counts,
    every class carries the same total weight before user multipliers. *)
Theorem evaluate_weights_flat_class_sum
    (dataset : Dataset) (class_weights : option (gmap Z R)) :
  (forall c, In c (map class (metadata dataset)) -> listed class_weights c) ->
  exists weights,
    evaluate_weights_flat dataset class_weights = Return weights
    /\ index weights = map object_id (metadata dataset)
    /\ length (values weights) = length (metadata dataset)
    /\ forall c, In c (map class (metadata dataset)) ->
         sum (mask_select (eq_mask (map class (metadata dataset)) c) (values weights))
         = get_class_weight class_weights c * INR (length (metadata dataset)).
Proof.
  intros Hlisted. unfold evaluate_weights_flat.
  set (xs := map class (metadata dataset)) in *.
  destruct (flat_loop_lookup class_weights (length xs) (value_counts xs) ∅)
    as (m & Hm & Hin & _).
  { rewrite value_counts_keys. apply unique_NoDup. }
  { intros e He. apply Hlisted, In_unique. rewrite <- value_counts_keys.
    now apply in_map. }
  rewrite Hm. cbn [bind]. eexists. split; [reflexivity|]. cbn [index values].
  split; [reflexivity|]. split.
  { unfold series_map, xs. now rewrite !length_map. }
  intros c Hc.
  set (f := fun c => get_class_weight class_weights c * INR (length xs)
                     / INR (count_true (eq_mask xs c))).
  assert (Hvals : series_map m xs = map f xs).
  { unfold series_map. apply map_ext_in. intros x Hx.
    rewrite (Hin x (count_true (eq_mask xs x))); [reflexivity|].
    unfold value_counts.
    apply (in_map (fun c => (c, count_true (eq_mask xs c)))).
    now apply In_unique. }
  rewrite Hvals, flat_values_class_sum. unfold f.
  pose proof (count_true_pos xs c Hc) as Hpos. apply lt_0_INR in Hpos.
  assert (Hlen : length (metadata dataset) = length xs)
    by (unfold xs; now rewrite length_map).
  rewrite Hlen. field. lra.
Qed.


Lemma evaluate_weights_flat_class_sum_witness :
  exists weights,
    evaluate_weights_flat three_objects (Some {[ 1%Z := 2; 2%Z := 3 ]})
    = Return weights
    /\ index weights = [10; 11; 12]%Z
    /\ length (values weights) = 3%nat
    /\ forall c, In c [1; 1; 2]%Z ->
         sum (mask_select (eq_mask [1; 1; 2]%Z c) (values weights))
         = get_class_weight (Some {[ 1%Z := 2; 2%Z := 3 ]}) c * INR 3.
Proof.
  apply (evaluate_weights_flat_class_sum three_objects
           (Some {[ 1%Z := 2; 2%Z := 3 ]})).
  intros c Hc. simpl in Hc. cbn [listed].
  destruct Hc as [<-|[<-|[<-|[]]]]; simplify_map_eq; eauto.
Defined.

(** The scenario of the specification: a hundred objects, fifty of each of
    two classes, no mapping: every object weighs [100 / 50 * 1 = 2]. *)
Example evaluate_weights_flat_balanced :
  let meta := fun c : class_name =>
    {| object_id := 0; class := c; float_column := fun _ => Fin 0;
       label_column := fun _ => 0%Z; reference_object_id := None |} in
  let dataset :=
    {| metadata := repeat (meta 1%Z) 50 ++ repeat (meta 2%Z) 50;
       has_reference_object_id := false |} in
  exists weights,
    evaluate_weights_flat dataset None = Return weights
    /\ Forall (fun w => w = 2) (values weights).
Proof.
  intros meta dataset. unfold evaluate_weights_flat.
  assert (Hxs : map class (metadata dataset) = (repeat 1 50 ++ repeat 2 50)%Z)
    by reflexivity.
  rewrite Hxs.
  assert (Hvc : value_counts (repeat 1 50 ++ repeat 2 50)%Z
                = [(1%Z, 50%nat); (2%Z, 50%nat)]) by (vm_compute; reflexivity).
  rewrite Hvc. cbn [flat_loop]. rewrite !flat_class_result. cbn [bind].
  eexists. split; [reflexivity|]. cbn [values]. unfold series_map.
  apply Forall_map, Forall_forall. intros c Hc.
  match goal with |- context [INR (length ?l)] =>
    change (length l) with 100%nat
  end.
  replace (INR 100) with 100 by (rewrite INR_IZR_INZ; reflexivity).
  replace (INR 50) with 50 by (rewrite INR_IZR_INZ; reflexivity).
  apply in_app_or in Hc as [Hc|Hc]; apply repeat_spec in Hc; subst c;
    simplify_map_eq; lra.
Qed.

(** ** [evaluate_weights_flat]: the key error *)

Lemma evaluate_weights_flat_raises dataset cw :
  raises (evaluate_weights_flat dataset cw)
  <-> exists c, In c (map class (metadata dataset)) /\ ~ listed cw c.
Proof.
  unfold evaluate_weights_flat.
  set (xs := map class (metadata dataset)).
  pose proof (flat_loop_raises cw (length xs) (value_counts xs) ∅) as Hloop.
  assert (Hkeys : (exists e, In e (value_counts xs) /\ ~ listed cw (fst e))
                  <-> exists c, In c xs /\ ~ listed cw c).
  { split.
    - intros (e & He & Hn). exists (fst e). split; [|exact Hn].
      apply In_unique. rewrite <- value_counts_keys. now apply in_map.
    - intros (c & Hc & Hn). exists (c, count_true (eq_mask xs c)).
      split; [|exact Hn]. unfold value_counts.
      apply (in_map (fun c => (c, count_true (eq_mask xs c)))).
      now apply In_unique. }
  rewrite <- Hkeys, <- Hloop.
  destruct (flat_loop cw (length xs) (value_counts xs) ∅) as [m|e]; cbn [bind].
  - split; intros [e He]; discriminate.
  - split; intros _; exists e; reflexivity.
Qed.

Lemma flat_loop_agree w w' n l m :
  (forall e, In e l -> w !! fst e = w' !! fst e) ->
  flat_loop (Some w) n l m = flat_loop (Some w') n l m.
Proof.
  revert m. induction l as [|[c k] l IH]; intros m Hag; cbn [flat_loop];
    [reflexivity|].
  rewrite !flat_class_result.
  pose proof (Hag (c, k) (or_introl eq_refl)) as Hc. cbn [fst] in Hc.
  rewrite <- Hc.
  destruct (w !! c); cbn [bind]; [|reflexivity].
  apply IH. intros e He. apply Hag. now right.
Qed.

(** C8, as the code has it. [evaluate_weights_flat] raises exactly when a
    mapping is supplied and some class of the dataset is not one of its
    keys; what it raises is the [KeyError] of such a class. A key of the
    mapping that is no class of the dataset is never looked up: two
    mappings that agree on the classes of the dataset give the same
    outcome. No default multiplier stands in for a class the mapping does
    not list; the multiplier is [1] only when no mapping is supplied. *)
Theorem evaluate_weights_flat_key_error
    (dataset : Dataset) (class_weights : option (gmap Z R)) :
  (raises (evaluate_weights_flat dataset class_weights)
   <-> exists w c, class_weights = Some w
                   /\ In c (map class (metadata dataset)) /\ w !! c = None)
  /\
  (forall e, evaluate_weights_flat dataset class_weights = Raise e ->
     exists w c, class_weights = Some w /\ e = KeyError c
                 /\ In c (map class (metadata dataset)) /\ w !! c = None)
  /\
  (forall w w' : gmap Z R,
     (forall c, In c (map class (metadata dataset)) -> w !! c = w' !! c) ->
     evaluate_weights_flat dataset (Some w) = evaluate_weights_flat dataset (Some w')).
Proof.
  assert (Hnl : forall c, ~ listed class_weights c
                  <-> exists w, class_weights = Some w /\ w !! c = None).
  { intros c. destruct class_weights as [w|]; cbn [listed].
    - split.
      + intros Hn. exists w. split; [reflexivity|].
        destruct (w !! c) eqn:E; [|reflexivity]. exfalso. apply Hn. eauto.
      + intros (w' & [= <-] & Hw) [x Hx]. congruence.
    - split; [intros Hn; exfalso; apply Hn; exact I|intros (w & Hw & _); discriminate]. }
  split; [|split].
  - rewrite evaluate_weights_flat_raises. split.
    + intros (c & Hc & Hn). apply Hnl in Hn as (w & Hw & Hnone). eauto.
    + intros (w & c & Hw & Hc & Hnone). exists c. split; [exact Hc|].
      apply Hnl. eauto.
  - intros e He. unfold evaluate_weights_flat in He.
    destruct (flat_loop class_weights _ _ ∅) as [m|e'] eqn:Hloop;
      cbn [bind] in He; [discriminate|].
    injection He as <-.
    apply flat_loop_raises_KeyError in Hloop as (c & -> & Hc & Hn).
    apply Hnl in Hn as (w & Hw & Hnone).
    rewrite value_counts_keys in Hc. apply (proj1 (In_unique _ _)) in Hc.
    exists w, c. repeat split; assumption || reflexivity.
  - intros w w' Hag. unfold evaluate_weights_flat.
    rewrite (flat_loop_agree w w'); [reflexivity|].
    intros e He. apply Hag, In_unique. rewrite <- value_counts_keys.
    now apply in_map.
Qed.

(** C8 as stated fails twice on the dataset of three objects: a mapping
    with a key (99) that is no class of the dataset raises nothing, and a
    mapping that leaves class [2] out raises [KeyError] instead of taking
    the multiplier to be [1]. *)
Lemma evaluate_weights_flat_key_error_counterexample :
  ~ raises (evaluate_weights_flat three_objects
              (Some {[ 1%Z := 1; 2%Z := 1; 99%Z := 5 ]}))
  /\ evaluate_weights_flat three_objects (Some {[ 1%Z := 2 ]})
     = Raise (KeyError 2%Z).
Proof.
  split.
  - rewrite evaluate_weights_flat_raises. intros (c & Hc & Hn).
    apply Hn. cbn [listed]. simpl in Hc.
    destruct Hc as [<-|[<-|[<-|[]]]]; simplify_map_eq; eauto.
  - unfold evaluate_weights_flat.
    assert (Hvc : value_counts (map class (metadata three_objects))
                  = [(1%Z, 2%nat); (2%Z, 1%nat)]) by reflexivity.
    rewrite Hvc. cbn [flat_loop]. rewrite !flat_class_result.
    simplify_map_eq. reflexivity.
Qed.

(** ** The redshift bins *)

Lemma Rpower10_log10 (x : R) : 0 < x -> Rpower 10 (np_log10 x) = x.
Proof.
  intros Hx. unfold Rpower, np_log10.
  assert (Hln : ln 10 <> 0).
  { pose proof (ln_increasing 1 10 ltac:(lra) ltac:(lra)) as H.
    rewrite ln_1 in H. lra. }
  replace (ln x / ln 10 * ln 10) with (ln x) by (field; exact Hln).
  now apply exp_ln.
Qed.

Lemma np_log10_increasing (x y : R) : 0 < x -> x < y -> np_log10 x < np_log10 y.
Proof.
  intros Hx Hxy. unfold np_log10.
  pose proof (ln_increasing 1 10 ltac:(lra) ltac:(lra)) as H10.
  rewrite ln_1 in H10.
  pose proof (ln_increasing x y Hx Hxy) as Hln.
  apply Rmult_lt_compat_r; [|exact Hln]. now apply Rinv_0_lt_compat.
Qed.

(** The logarithmic edge of rank [i] among [n + 1]. *)
Lemma logspace_edges (a b : R) (n : nat) :
  logspace a b (n + 1)
  = map (fun i => Rpower 10 (a + INR i * ((b - a) / INR n))) (seq 0 (n + 1)).
Proof.
  unfold logspace, linspace. rewrite map_map, Nat.add_sub. reflexivity.
Qed.

Lemma edge_increasing (a b : R) (n i j : nat) :
  a < b -> (0 < n)%nat -> (i < j)%nat ->
  Rpower 10 (a + INR i * ((b - a) / INR n))
  < Rpower 10 (a + INR j * ((b - a) / INR n)).
Proof.
  intros Hab Hn Hij. apply Rpower_lt; [lra|].
  apply lt_0_INR in Hn. apply lt_INR in Hij.
  assert (Hd : 0 < (b - a) / INR n).
  { apply Rmult_lt_0_compat; [lra|now apply Rinv_0_lt_compat]. }
  nra.
Qed.

Lemma edge_first (a b : R) (n : nat) :
  Rpower 10 (a + INR 0 * ((b - a) / INR n)) = Rpower 10 a.
Proof. f_equal. simpl. ring. Qed.

Lemma edge_last (a b : R) (n : nat) :
  (0 < n)%nat -> Rpower 10 (a + INR n * ((b - a) / INR n)) = Rpower 10 b.
Proof.
  intros Hn. apply lt_0_INR in Hn. f_equal. field. lra.
Qed.

Lemma list_insert_last {A : Type} (l : list A) (x y : A) :
  <[ length l := y ]> (l ++ [x]) = l ++ [y].
Proof. induction l as [|z l IH]; simpl; [reflexivity|]. f_equal. exact IH. Qed.

Lemma set_first_last {A : Type} (x y a b : A) (l : list A) :
  <[ (length (<[ 0%nat := a ]> (x :: l ++ [y])) - 1)%nat := b ]>
    (<[ 0%nat := a ]> (x :: l ++ [y]))
  = a :: l ++ [b].
Proof.
  change (<[ 0%nat := a ]> (x :: l ++ [y])) with (a :: l ++ [y]).
  replace (length (a :: l ++ [y]) - 1)%nat with (length (a :: l)).
  - exact (list_insert_last (a :: l) y b).
  - cbn [length]. rewrite length_app. simpl. lia.
Qed.

(** The bins for at least one logarithmic bin: [-1e99], [1e-99], the inner
    logarithmic edges, [1e99]. *)
Lemma make_redshift_bins_shape (lo hi : R) (n : nat) :
  make_redshift_bins lo hi (S n)
  = - 10 ^ 99 :: / 10 ^ 99
    :: map (fun i => Rpower 10 (np_log10 lo
                       + INR i * ((np_log10 hi - np_log10 lo) / INR (S n))))
           (seq 1 n)
    ++ [10 ^ 99].
Proof.
  unfold make_redshift_bins. rewrite logspace_edges.
  replace (S n + 1)%nat with (S (S n)) by lia.
  rewrite seq_S. cbn [seq]. rewrite map_app. cbn [map].
  cbn [app]. rewrite set_first_last. replace (0 + S n)%nat with (S n) by lia. reflexivity.
Qed.

Lemma sorted_map_seq (f : nat -> R) (s k : nat) :
  (forall i j, (s <= i)%nat -> (i < j)%nat -> (j < s + k)%nat -> f i < f j) ->
  StronglySorted Rlt (map f (seq s k)).
Proof.
  revert s. induction k as [|k IH]; intros s Hf; simpl; constructor.
  - apply IH. intros i j Hi Hij Hj. apply Hf; lia.
  - apply Forall_forall. intros x Hx. apply in_map_iff in Hx as (j & <- & Hj).
    apply in_seq in Hj. apply Hf; lia.
Qed.

Lemma sorted_app_last (l : list R) (y : R) :
  StronglySorted Rlt l -> Forall (fun x => x < y) l ->
  StronglySorted Rlt (l ++ [y]).
Proof.
  induction 1 as [|x l Hs IH Hx]; intros Hy; simpl.
  - repeat constructor.
  - inversion Hy as [|? ? Hxy Hly]; subst. constructor; [now apply IH|].
    apply Forall_app. split; [exact Hx|]. repeat constructor. exact Hxy.
Qed.

Lemma make_redshift_bins_sorted (lo hi : R) (n : nat) :
  / 10 ^ 99 <= lo -> lo < hi -> hi <= 10 ^ 99 ->
  StronglySorted Rlt (make_redshift_bins lo hi (S n)).
Proof.
  intros Hlo Hlh Hhi. rewrite make_redshift_bins_shape.
  assert (H0 : 0 < lo) by lra.
  pose proof (np_log10_increasing lo hi H0 Hlh) as Hab.
  set (a := np_log10 lo) in *. set (b := np_log10 hi) in *.
  set (E := fun i => Rpower 10 (a + INR i * ((b - a) / INR (S n)))).
  assert (Hinc : forall i j, (i < j)%nat -> E i < E j).
  { intros i j Hij. apply edge_increasing; [exact Hab|lia|exact Hij]. }
  assert (HE0 : E 0%nat = lo).
  { unfold E. rewrite edge_first. apply Rpower10_log10, H0. }
  assert (HEn : E (S n) = hi).
  { unfold E. rewrite edge_last by lia. apply Rpower10_log10. lra. }
  assert (Hin : forall x, In x (map E (seq 1 n)) -> lo < x < hi).
  { intros x Hx. apply in_map_iff in Hx as (i & <- & Hi). apply in_seq in Hi.
    rewrite <- HE0, <- HEn. split; apply Hinc; lia. }
  assert (Hmid : StronglySorted Rlt (map E (seq 1 n) ++ [10 ^ 99])).
  { apply sorted_app_last.
    - apply sorted_map_seq. intros i j _ Hij _. now apply Hinc.
    - apply Forall_forall. intros x Hx. apply Hin in Hx. lra. }
  constructor; [constructor; [exact Hmid|]|].
  - apply Forall_forall. intros x Hx. apply in_app_or in Hx as [Hx|[<-|[]]].
    + apply Hin in Hx. lra.
    + lra.
  - constructor; [lra|].
    apply Forall_forall. intros x Hx. apply in_app_or in Hx as [Hx|[<-|[]]].
    + apply Hin in Hx. lra.
    + lra.
Qed.

(** ** [np.searchsorted] on sorted bins *)

Lemma searchsorted_edge (a : list R) (k : nat) :
  StronglySorted Rlt a -> (k < length a)%nat ->
  searchsorted a (Fin (nth k a 0)) = k.
Proof.
  intros Hs. revert k. induction Hs as [|x a Hs IH Hx]; intros k Hk; simpl in Hk.
  - lia.
  - destruct k as [|k]; simpl.
    + destruct (Rlt_dec x x) as [H|_]; [lra|reflexivity].
    + assert (Hin : In (nth k a 0) a) by (apply nth_In; lia).
      rewrite Forall_forall in Hx. specialize (Hx _ Hin).
      destruct (Rlt_dec x (nth k a 0)); [|contradiction].
      f_equal. apply IH. lia.
Qed.

Lemma searchsorted_inside (a : list R) (k : nat) (z : R) :
  StronglySorted Rlt a -> (S k < length a)%nat ->
  nth k a 0 < z -> z <= nth (S k) a 0 ->
  searchsorted a (Fin z) = S k.
Proof.
  intros Hs. revert k. induction Hs as [|x a Hs IH Hx]; intros k Hk Hlo Hhi;
    simpl in Hk; [lia|].
  rewrite Forall_forall in Hx.
  destruct k as [|k]; cbn [nth] in Hlo, Hhi; cbn [searchsorted sorts_before].
  - destruct (Rlt_dec x z); [|contradiction]. f_equal.
    destruct a as [|y a]; [simpl in Hk; lia|]. simpl in Hhi |- *.
    destruct (Rlt_dec y z); [lra|reflexivity].
  - assert (Hin : In (nth k a 0) a) by (apply nth_In; lia).
    specialize (Hx _ Hin).
    destruct (Rlt_dec x z); [|lra]. f_equal. apply IH; [lia|assumption..].
Qed.

Lemma make_redshift_bins_length (lo hi : R) (n : nat) :
  length (make_redshift_bins lo hi (S n)) = (n + 3)%nat.
Proof.
  rewrite make_redshift_bins_shape. cbn [length].
  rewrite length_app, length_map, length_seq. simpl. lia.
Qed.

Lemma redshift_index_edge (a : list R) (k : nat) :
  StronglySorted Rlt a -> (k < length a)%nat ->
  redshift_index a (Fin (nth k a 0)) = (Z.of_nat k - 1)%Z.
Proof.
  intros Hs Hk. unfold redshift_index. now rewrite searchsorted_edge.
Qed.

Lemma np_index_in_range (size : nat) (i : nat) :
  (i < size)%nat -> np_index size (Z.of_nat i) = Return i.
Proof.
  intros Hi. unfold np_index.
  destruct (Z.leb_spec 0 (Z.of_nat i)); [|lia].
  destruct (Z.ltb_spec (Z.of_nat i) (Z.of_nat size)); [|lia].
  simpl. now rewrite Nat2Z.id.
Qed.

(** C6, as the code has it. With [1e-99 <= min_redshift < max_redshift <=
    1e99] and at least one logarithmic bin, a redshift exactly on an inner
    bin edge (edge [k] of the layout, [1 <= k <= num_bins]) gets redshift
    index [k - 1]: the bin counted is the one for which that edge is the
    upper edge. The bins are closed on the right: a redshift above edge [k]
    and up to edge [k + 1] gets index [k]. *)
Theorem boundary_redshift_falls_in_bin_below (lo hi : R) (n k : nat) :
  / 10 ^ 99 <= lo -> lo < hi -> hi <= 10 ^ 99 ->
  (1 <= k <= S n)%nat ->
  let redshift_bins := make_redshift_bins lo hi (S n) in
  redshift_index redshift_bins (Fin (nth k redshift_bins 0)) = (Z.of_nat k - 1)%Z
  /\ np_index (length redshift_bins - 1)
       (redshift_index redshift_bins (Fin (nth k redshift_bins 0)))
     = Return (k - 1)%nat
  /\ forall z, nth k redshift_bins 0 < z -> z <= nth (S k) redshift_bins 0 ->
       redshift_index redshift_bins (Fin z) = Z.of_nat k.
Proof.
  intros Hlo Hlh Hhi Hk bins.
  pose proof (make_redshift_bins_sorted lo hi n Hlo Hlh Hhi) as Hs.
  pose proof (make_redshift_bins_length lo hi n) as Hlen.
  fold bins in Hs, Hlen.
  assert (Hedge : redshift_index bins (Fin (nth k bins 0)) = (Z.of_nat k - 1)%Z)
    by (apply redshift_index_edge; [exact Hs|lia]).
  split; [exact Hedge|]. split.
  - rewrite Hedge. replace (Z.of_nat k - 1)%Z with (Z.of_nat (k - 1)) by lia.
    apply np_index_in_range. lia.
  - intros z Hz1 Hz2. unfold redshift_index.
    rewrite (searchsorted_inside bins k z Hs); [lia|lia|assumption..].
Qed.

Lemma boundary_redshift_falls_in_bin_below_witness :
  let redshift_bins := make_redshift_bins (1 / 10) 10 2 in
  redshift_index redshift_bins (Fin (nth 2 redshift_bins 0)) = 1%Z
  /\ np_index (length redshift_bins - 1)
       (redshift_index redshift_bins (Fin (nth 2 redshift_bins 0)))
     = Return 1%nat
  /\ forall z, nth 2 redshift_bins 0 < z -> z <= nth 3 redshift_bins 0 ->
       redshift_index redshift_bins (Fin z) = 2%Z.
Proof.
  apply (boundary_redshift_falls_in_bin_below (1 / 10) 10 1 2); try lra; lia.
Defined.

(** C6 as stated fails: with two logarithmic bins between [0.1] and [10],
    a redshift exactly on edge [2] of the layout is counted in bin [1], of
    which that edge is the upper edge, not in bin [2], of which it is the
    lower edge. *)
Lemma boundary_redshift_counterexample :
  let redshift_bins := make_redshift_bins (1 / 10) 10 2 in
  redshift_index redshift_bins (Fin (nth 2 redshift_bins 0)) = 1%Z
  /\ redshift_index redshift_bins (Fin (nth 2 redshift_bins 0)) <> 2%Z.
Proof.
  intros bins.
  assert (H : redshift_index bins (Fin (nth 2 bins 0)) = 1%Z).
  { apply (redshift_index_edge bins 2).
    - apply make_redshift_bins_sorted; lra.
    - unfold bins. rewrite make_redshift_bins_length. lia. }
  split; [exact H|]. rewrite H. discriminate.
Qed.

(** ** [evaluate_weights_redshift] *)

Lemma make_redshift_bins_ends (lo hi : R) (n : nat) :
  exists front,
    make_redshift_bins lo hi n = front ++ [10 ^ 99] /\ length front = (n + 1)%nat.
Proof.
  destruct n as [|n].
  - exists [- 10 ^ 99]. split; reflexivity.
  - rewrite make_redshift_bins_shape.
    exists (- 10 ^ 99 :: / 10 ^ 99
            :: map (fun i => Rpower 10 (np_log10 lo
                               + INR i * ((np_log10 hi - np_log10 lo) / INR (S n))))
                   (seq 1 n)).
    split; [reflexivity|]. cbn [length]. rewrite length_map, length_seq. lia.
Qed.

Lemma searchsorted_before_last (front : list R) (y : R) (z : xfloat) :
  sorts_before y z = false ->
  (searchsorted (front ++ [y]) z <= length front)%nat.
Proof.
  intros Hy. induction front as [|x front IH]; simpl.
  - rewrite Hy. lia.
  - destruct (sorts_before x z); lia.
Qed.

Lemma np_index_ok (size : nat) (i : Z) :
  (0 < size)%nat -> (-1 <= i < Z.of_nat size)%Z ->
  exists j, np_index size i = Return j /\ (j < size)%nat.
Proof.
  intros Hs Hi. unfold np_index.
  destruct (Z.leb_spec 0 i); destruct (Z.ltb_spec i (Z.of_nat size)); try lia; simpl.
  - exists (Z.to_nat i). split; [reflexivity|lia].
  - destruct (Z.leb_spec (- Z.of_nat size) i); [|lia].
    destruct (Z.ltb_spec i 0); [|lia]. simpl.
    exists (Z.to_nat (i + Z.of_nat size)). split; [reflexivity|lia].
Qed.

Lemma redshift_index_ok (lo hi : R) (n : nat) (z : xfloat) :
  redshift_in_range z ->
  exists j,
    np_index (length (make_redshift_bins lo hi n) - 1)
      (redshift_index (make_redshift_bins lo hi n) z) = Return j
    /\ (j < length (make_redshift_bins lo hi n) - 1)%nat.
Proof.
  intros Hz. destruct (make_redshift_bins_ends lo hi n) as (front & -> & Hlen).
  pose proof (searchsorted_before_last front (10 ^ 99) z Hz) as Hle.
  rewrite length_app. cbn [length].
  apply np_index_ok; unfold redshift_index; lia.
Qed.

Lemma index_of_lt (x : Z) (names : list Z) (i : nat) :
  index_of x names = Some i -> (i < length names)%nat.
Proof.
  revert i. induction names as [|y names IH]; intros i; simpl; [discriminate|].
  destruct (x =? y)%Z; [intros [= <-]; lia|].
  destruct (index_of x names) as [j|]; simpl; [|discriminate].
  intros [= <-]. specialize (IH j eq_refl). lia.
Qed.

Lemma index_of_nth (x : Z) (names : list Z) (i : nat) :
  index_of x names = Some i -> nth_error names i = Some x.
Proof.
  revert i. induction names as [|y names IH]; intros i; simpl; [discriminate|].
  destruct (Z.eqb_spec x y) as [->|_]; [intros [= <-]; reflexivity|].
  destruct (index_of x names) as [j|]; simpl; [|discriminate].
  intros [= <-]. simpl. now apply IH.
Qed.

Lemma index_of_unique (xs : list Z) (x : Z) :
  In x xs -> exists i, index_of x (unique xs) = Some i.
Proof.
  intros Hx. destruct (index_of x (unique xs)) as [i|] eqn:E; [eauto|].
  apply index_of_None in E. exfalso. apply E. now apply In_unique.
Qed.

Lemma name_index_lt (xs : list Z) (x : Z) :
  In x xs -> (name_index (unique xs) x < length (unique xs))%nat.
Proof.
  intros Hx. unfold name_index.
  destruct (index_of_unique xs x Hx) as [i Hi]. rewrite Hi.
  now apply index_of_lt in Hi.
Qed.

Lemma name_index_nth (xs : list Z) (x : Z) :
  In x xs -> nth_error (unique xs) (name_index (unique xs) x) = Some x.
Proof.
  intros Hx. unfold name_index.
  destruct (index_of_unique xs x Hx) as [i Hi]. rewrite Hi.
  now apply index_of_nth.
Qed.

(** The triples the counting loop walks are [object_indices]. *)
Lemma zip_indices (args : redshift_args) (use_metadata : list object_meta) :
  zip_with (fun gr c => (gr, c))
    (zip_with (fun g r => (g, r))
       (snd (group_indexing args use_metadata))
       (map (fun o => redshift_index
                        (make_redshift_bins (use_min_redshift args)
                           (use_max_redshift args) (use_num_bins args))
                        (float_column o (use_redshift_key args)))
            use_metadata))
    (map (name_index (unique (map class use_metadata))) (map class use_metadata))
  = object_indices args use_metadata.
Proof.
  unfold object_indices, group_indexing.
  destruct (use_group_key args) as [key|]; cbn [snd].
  - rewrite !map_map. rewrite zip_with_map.
    rewrite (zip_with_map (fun gr c => (gr, c))). reflexivity.
  - rewrite repeat_length_map, !map_map. rewrite zip_with_map.
    rewrite (zip_with_map (fun gr c => (gr, c))). reflexivity.
Qed.

Lemma count_loop_ok (n_bins : nat) (indices : list (nat * Z * nat)) :
  Forall (fun '(g, r, c) => exists j, np_index n_bins r = Return j /\ (j < n_bins)%nat)
    indices ->
  exists cells,
    count_loop n_bins indices = Return cells
    /\ Forall2 (fun '(g, r, c) '(g', r', c') => g' = g /\ c' = c /\ (r' < n_bins)%nat)
         indices cells.
Proof.
  induction 1 as [|[[g r] c] indices (j & Hj & Hlt) _ (cells & Hcells & Hall)];
    cbn [count_loop].
  - exists []. split; [reflexivity|constructor].
  - rewrite Hj, Hcells. cbn [bind]. exists ((g, j, c) :: cells).
    split; [reflexivity|]. constructor; [auto|exact Hall].
Qed.

Lemma cell_eqb_refl (x : cell) : cell_eqb x x = true.
Proof. destruct x as [[g r] c]. simpl. now rewrite !Nat.eqb_refl. Qed.

Lemma counts_at_pos (cells : list cell) (g r c : nat) :
  In (g, r, c) cells -> (1 <= counts_at cells g r c)%nat.
Proof.
  intros Hin. unfold counts_at.
  assert (Hf : In (g, r, c) (filter (cell_eqb (g, r, c)) cells)).
  { apply filter_In. split; [exact Hin|apply cell_eqb_refl]. }
  destruct (filter _ cells); [destruct Hf|simpl; lia].
Qed.

Lemma nat_sum_ge {A : Type} (f : A -> nat) (l : list A) (x : A) :
  In x l -> (f x <= nat_sum (map f l))%nat.
Proof.
  induction l as [|y l IH]; simpl; [tauto|].
  intros [->|Hin]; [lia|]. specialize (IH Hin). lia.
Qed.

Lemma In_block (gs rs cs : list nat) (g r c : nat) :
  In g gs -> In r rs -> In c cs -> In (g, r, c) (block gs rs cs).
Proof.
  intros Hg Hr Hc. unfold block.
  apply in_flat_map. exists g. split; [exact Hg|].
  apply in_flat_map. exists r. split; [exact Hr|].
  apply in_map_iff. exists c. split; [reflexivity|exact Hc].
Qed.

Section RedshiftWeights.
Variable cells : list cell.
Variables n_groups n_bins n_classes : nat.
Variable min_bin_count : R.
Variables g r c : nat.
Hypothesis Hcell : In (g, r, c) cells.
Hypothesis Hg : (g < n_groups)%nat.
Hypothesis Hr : (r < n_bins)%nat.
Hypothesis Hc : (c < n_classes)%nat.

Lemma total_counts_pos :
  (1 <= total_counts cells n_groups n_bins n_classes)%nat.
Proof.
  unfold total_counts.
  pose proof (counts_at_pos cells g r c Hcell) as Hpos.
  pose proof (nat_sum_ge (fun '(g, r, c) => counts_at cells g r c)
                (block (seq 0 n_groups) (seq 0 n_bins) (seq 0 n_classes))
                (g, r, c)) as Hge.
  cbv beta iota in Hge.
  assert (Hin : In (g, r, c) (block (seq 0 n_groups) (seq 0 n_bins) (seq 0 n_classes))).
  { apply In_block; apply in_seq; lia. }
  specialize (Hge Hin). lia.
Qed.

Lemma floor_counts_pos : 0 < floor_counts cells min_bin_count g r c.
Proof.
  unfold floor_counts.
  pose proof (counts_at_pos cells g r c Hcell) as Hpos. apply le_INR in Hpos.
  simpl in Hpos.
  pose proof (Rmax_l (INR (counts_at cells g r c)) min_bin_count). lra.
Qed.

Lemma extgal_classes_pos :
  extgal_mask cells n_groups n_bins c = true ->
  (1 <= num_extgal_classes cells n_groups n_bins n_classes)%nat.
Proof.
  intros Hm. unfold num_extgal_classes.
  assert (Hf : In c (filter (extgal_mask cells n_groups n_bins) (seq 0 n_classes))).
  { apply filter_In. split; [apply in_seq; lia|exact Hm]. }
  destruct (filter _ (seq 0 n_classes)); [destruct Hf|simpl; lia].
Qed.

Lemma scaled_weight_positive :
  xpositive (scaled_weight cells n_groups n_bins n_classes min_bin_count g r c).
Proof.
  unfold scaled_weight.
  pose proof total_counts_pos as Ht. apply le_INR in Ht. simpl in Ht.
  pose proof floor_counts_pos as Hf.
  set (t := INR (total_counts cells n_groups n_bins n_classes)) in *.
  set (f := floor_counts cells min_bin_count g r c) in *.
  assert (Hw : xdiv (Fin t) (Fin f) = Fin (t / f)).
  { simpl. destruct (Req_dec_T f 0); [lra|reflexivity]. }
  assert (Hpos : 0 < t / f).
  { apply Rmult_lt_0_compat; [lra|now apply Rinv_0_lt_compat]. }
  rewrite Hw.
  destruct (extgal_mask cells n_groups n_bins c) eqn:Hm; [|exact Hpos].
  pose proof (extgal_classes_pos Hm) as Hn. apply le_INR in Hn. simpl in Hn.
  unfold extgal_scale.
  set (a := INR (num_extgal_bins cells n_groups n_bins n_classes)).
  set (b := INR (num_extgal_classes cells n_groups n_bins n_classes)) in *.
  assert (Ha : 0 <= a) by apply pos_INR.
  assert (Hs : xdiv (Fin a) (Fin b) = Fin (a / b)).
  { simpl. destruct (Req_dec_T b 0); [lra|reflexivity]. }
  rewrite Hs. simpl.
  destruct (Req_dec_T (a / b) 0) as [Hz|Hnz].
  - unfold inf_of_sign. destruct (total_order_T (t / f) 0) as [[H|H]|H]; simpl; lra.
  - simpl. apply Rmult_lt_0_compat; [exact Hpos|].
    apply Rinv_0_lt_compat.
    assert (0 <= a / b).
    { apply Rmult_le_pos; [exact Ha|]. left. apply Rinv_0_lt_compat. lra. }
    lra.
Qed.

Lemma cell_weight_positive (multipliers : option (list R)) :
  match multipliers with
  | Some ks => 0 < nth c ks 1
  | None => True
  end ->
  xpositive (cell_weight cells n_groups n_bins n_classes min_bin_count multipliers g r c).
Proof.
  intros Hk. unfold cell_weight. pose proof scaled_weight_positive as Hs.
  destruct multipliers as [ks|]; [|exact Hs].
  destruct (scaled_weight cells n_groups n_bins n_classes min_bin_count g r c);
    simpl in Hs |- *; try contradiction.
  - now apply Rmult_lt_0_compat.
  - unfold inf_of_sign. destruct (total_order_T (nth c ks 1) 0) as [[H|H]|H]; simpl; lra.
Qed.
End RedshiftWeights.

Lemma Forall2_In_r {A B : Type} (P : A -> B -> Prop) (l : list A) (l' : list B) (y : B) :
  Forall2 P l l' -> In y l' -> exists x, In x l /\ P x y.
Proof.
  induction 1 as [|x y' l l' Hxy _ IH]; intros Hin; [destruct Hin|].
  destruct Hin as [<-|Hin].
  - exists x. split; [now left|exact Hxy].
  - destruct (IH Hin) as (x' & Hx' & HP). exists x'. split; [now right|exact HP].
Qed.

Lemma Forall2_length_eq {A B : Type} (P : A -> B -> Prop) (l : list A) (l' : list B) :
  Forall2 P l l' -> length l' = length l.
Proof. induction 1; simpl; congruence. Qed.

Lemma class_multipliers_ok (w : gmap Z R) (names : list class_name) :
  (forall c, In c names -> exists k, w !! c = Some k /\ 0 < k) ->
  exists ks, class_multipliers w names = Return ks
    /\ forall i c, nth_error names i = Some c -> 0 < nth i ks 1.
Proof.
  induction names as [|c names IH]; intros Hw; cbn [class_multipliers].
  - exists []. split; [reflexivity|]. intros [|i] c; discriminate.
  - destruct (Hw c (or_introl eq_refl)) as (k & Hk & Hpos). rewrite Hk.
    destruct IH as (ks & Hks & Hnth); [intros c' Hc'; apply Hw; now right|].
    rewrite Hks. cbn [bind]. exists (k :: ks). split; [reflexivity|].
    intros [|i] c'; simpl; [intros _; exact Hpos|apply Hnth].
Qed.

Lemma class_multipliers_raises (w : gmap Z R) (names : list class_name) :
  (exists c, In c names /\ w !! c = None) ->
  exists c, In c names /\ w !! c = None
            /\ class_multipliers w names = Raise (KeyError c).
Proof.
  induction names as [|c names IH]; intros (c' & Hin & Hnone); [destruct Hin|].
  cbn [class_multipliers]. destruct (w !! c) as [k|] eqn:Hk.
  - destruct Hin as [->|Hin]; [congruence|].
    destruct IH as (c'' & Hin'' & Hnone'' & Hr); [eauto|].
    exists c''. split; [now right|]. split; [exact Hnone''|].
    rewrite Hr. reflexivity.
  - exists c. split; [now left|]. split; [exact Hk|reflexivity].
Qed.

(** Once every redshift is in range the counting loop goes through, and
    what is left of the function is the lookup of the class multipliers. *)
Lemma evaluate_weights_redshift_counted
    settings dataset class_weights group_key min_redshift max_redshift
    num_bins min_bin_count redshift_key :
  let args := resolve_redshift_args settings group_key min_redshift max_redshift
                num_bins min_bin_count redshift_key in
  let n_bins := (length (make_redshift_bins (use_min_redshift args)
                           (use_max_redshift args) (use_num_bins args)) - 1)%nat in
  let n_groups := fst (group_indexing args (metadata dataset)) in
  let n_classes := length (unique (map class (metadata dataset))) in
  (forall o, In o (metadata dataset) ->
     redshift_in_range (float_column o (use_redshift_key args))) ->
  exists cells,
    Forall2 (fun '(g, r, c) '(g', r', c') => g' = g /\ c' = c /\ (r' < n_bins)%nat)
      (object_indices args (metadata dataset)) cells
    /\ evaluate_weights_redshift settings dataset class_weights group_key
         min_redshift max_redshift num_bins min_bin_count redshift_key
       = try multipliers <-
           match class_weights with
           | Some cw =>
               try ks <- class_multipliers cw (unique (map class (metadata dataset)))
               in Return (Some ks)
           | None => Return None
           end in
         Return {| index := map object_id (metadata dataset);
                   values :=
                     map (fun '(g, r, c) =>
                            cell_weight cells n_groups n_bins n_classes
                              (use_min_bin_count args) multipliers g r c) cells |}.
Proof.
  intros args n_bins n_groups n_classes Hz.
  destruct (count_loop_ok n_bins (object_indices args (metadata dataset)))
    as (cells & Hcells & Hall).
  { unfold object_indices. apply Forall_map, Forall_forall. intros o Ho.
    apply redshift_index_ok, Hz, Ho. }
  exists cells. split; [exact Hall|].
  unfold evaluate_weights_redshift. fold args.
  pose proof (zip_indices args (metadata dataset)) as Hzip.
  unfold n_groups.
  destruct (group_indexing args (metadata dataset)) as [ng gi].
  cbn [snd fst] in Hzip |- *. rewrite Hzip. fold n_bins. rewrite Hcells.
  reflexivity.
Qed.

Lemma object_indices_bounds args use_metadata g r c :
  In (g, r, c) (object_indices args use_metadata) ->
  (g < fst (group_indexing args use_metadata))%nat
  /\ exists o, In o use_metadata
       /\ c = name_index (unique (map class use_metadata)) (class o).
Proof.
  unfold object_indices, group_indexing. intros Hin.
  apply in_map_iff in Hin as (o & Heq & Ho).
  injection Heq as Hg _ Hc. split; [|exists o; split; [exact Ho|now symmetry]].
  destruct (use_group_key args) as [key|]; cbn [fst]; [|lia].
  rewrite <- Hg. apply name_index_lt.
  apply (in_map (fun o => label_column o key)), Ho.
Qed.

(** C7, as the code has it. When every redshift is in range (not NaN and
    at most [1e99]) and the mapping, if one is supplied, gives every class
    of the dataset a positive multiplier, [evaluate_weights_redshift]
    returns a Series on the index of the metadata, one weight per object,
    every weight strictly positive. *)
Theorem evaluate_weights_redshift_positive
    (settings : Settings) (dataset : Dataset) (class_weights : option (gmap Z R))
    (group_key : option string) (min_redshift max_redshift : option R)
    (num_bins : option nat) (min_bin_count : option R)
    (redshift_key : option string) :
  (forall o, In o (metadata dataset) ->
     redshift_in_range
       (float_column o
          (use_redshift_key
             (resolve_redshift_args settings group_key min_redshift max_redshift
                num_bins min_bin_count redshift_key)))) ->
  (forall w c, class_weights = Some w -> In c (map class (metadata dataset)) ->
     exists k, w !! c = Some k /\ 0 < k) ->
  exists weights,
    evaluate_weights_redshift settings dataset class_weights group_key
      min_redshift max_redshift num_bins min_bin_count redshift_key
    = Return weights
    /\ index weights = map object_id (metadata dataset)
    /\ length (values weights) = length (metadata dataset)
    /\ Forall xpositive (values weights).
Proof.
  intros Hz Hw.
  destruct (evaluate_weights_redshift_counted settings dataset class_weights
              group_key min_redshift max_redshift num_bins min_bin_count
              redshift_key Hz) as (cells & Hall & Heval).
  set (args := resolve_redshift_args settings group_key min_redshift max_redshift
                 num_bins min_bin_count redshift_key) in *.
  set (names := unique (map class (metadata dataset))) in *.
  assert (Hm : exists multipliers,
    match class_weights with
    | Some cw => try ks <- class_multipliers cw names in Return (Some ks)
    | None => Return None
    end = Return multipliers
    /\ forall i c, nth_error names i = Some c ->
         match multipliers with Some ks => 0 < nth i ks 1 | None => True end).
  { destruct class_weights as [w|].
    - destruct (class_multipliers_ok w names) as (ks & Hks & Hpos).
      { intros c Hc. apply (Hw w c eq_refl). unfold names in Hc.
        exact (proj1 (In_unique _ _) Hc). }
      rewrite Hks. exists (Some ks). split; [reflexivity|exact Hpos].
    - exists None. split; [reflexivity|trivial]. }
  destruct Hm as (multipliers & Hm & Hpos).
  rewrite Heval, Hm. cbn [bind]. eexists. split; [reflexivity|].
  cbn [index values]. split; [reflexivity|]. split.
  - rewrite length_map, (Forall2_length_eq _ _ _ Hall).
    unfold object_indices. apply length_map.
  - apply Forall_map, Forall_forall. intros [[g r] c] Hcell.
    destruct (Forall2_In_r _ _ _ _ Hall Hcell) as ([[g0 r0] c0] & Hin & -> & -> & Hr).
    destruct (object_indices_bounds _ _ _ _ _ Hin) as (Hg & o & Ho & Hc).
    assert (Hclass : In (class o) (map class (metadata dataset)))
      by (apply in_map, Ho).
    apply cell_weight_positive; try assumption.
    + rewrite Hc. apply name_index_lt, Hclass.
    + specialize (Hpos c0 (class o)). rewrite Hc in Hpos |- *.
      apply Hpos. apply name_index_nth, Hclass.
Qed.

Lemma three_objects_in_range (key : string) (o : object_meta) :
  In o (metadata three_objects) -> redshift_in_range (float_column o key).
Proof.
  intros Ho. simpl in Ho.
  assert (Hz : float_column o key = Fin 0)
    by (destruct Ho as [<-|[<-|[<-|[]]]]; reflexivity).
  rewrite Hz. unfold redshift_in_range, sorts_before.
  destruct (Rlt_dec (10 ^ 99) 0) as [H|_]; [lra|reflexivity].
Qed.

Lemma evaluate_weights_redshift_positive_witness :
  exists weights,
    evaluate_weights_redshift example_settings three_objects
      (Some {[ 1%Z := 2; 2%Z := 3 ]}) None None None None None None
    = Return weights
    /\ index weights = [10; 11; 12]%Z
    /\ length (values weights) = 3%nat
    /\ Forall xpositive (values weights).
Proof.
  apply (evaluate_weights_redshift_positive example_settings three_objects
           (Some {[ 1%Z := 2; 2%Z := 3 ]}) None None None None None None).
  - intros o Ho. now apply three_objects_in_range.
  - intros w c [= <-] Hc. simpl in Hc.
    destruct Hc as [<-|[<-|[<-|[]]]]; simplify_map_eq; eexists; (split; [reflexivity|lra]).
Defined.

(** C7 as stated fails: on the dataset of three objects, the positive
    mapping that gives class [1] the multiplier [2] and does not list
    class [2] makes the function raise [KeyError]; no weight Series is
    returned. *)
Lemma evaluate_weights_redshift_counterexample :
  evaluate_weights_redshift example_settings three_objects
    (Some {[ 1%Z := 2 ]}) None None None None None None
  = Raise (KeyError 2%Z).
Proof.
  destruct (evaluate_weights_redshift_counted example_settings three_objects
              (Some {[ 1%Z := 2 ]}) None None None None None None
              (fun o Ho => three_objects_in_range _ o Ho)) as (cells & _ & ->).
  change (unique (map class (metadata three_objects))) with [1; 2]%Z.
  cbn [class_multipliers]. simplify_map_eq. reflexivity.
Qed.

(** ** Masked assignment, position by position *)

(** The rank of position [i] among the positions a mask selects. *)
Lemma mask_select_rank {A : Type} (mask : list bool) (xs : list A) (i : nat) :
  length xs = length mask ->
  nth_error mask i = Some true ->
  nth_error (mask_select mask xs) (count_true (firstn i mask)) = nth_error xs i.
Proof.
  revert xs i. induction mask as [|b mask IH]; intros [|x xs] [|i] Hlen Hi;
    simpl in *; try discriminate.
  - injection Hi as ->. reflexivity.
  - injection Hlen as Hlen. destruct b; simpl.
    + unfold count_true in *. simpl. now apply IH.
    + unfold count_true in *. simpl. now apply IH.
Qed.

Lemma mask_assign_nth_error {A : Type} (mask : list bool) (xs vs : list A) (i : nat) :
  length xs = length mask ->
  length vs = count_true mask ->
  nth_error (mask_assign mask xs vs) i
  = match nth_error mask i with
    | Some true => nth_error vs (count_true (firstn i mask))
    | _ => nth_error xs i
    end.
Proof.
  revert xs vs i. unfold count_true.
  induction mask as [|b mask IH]; intros [|x xs] vs i Hlen Hvs;
    simpl in *; try discriminate.
  - destruct i; reflexivity.
  - injection Hlen as Hlen. destruct b; simpl in Hvs.
    + destruct vs as [|v vs]; [discriminate|]. injection Hvs as Hvs.
      destruct i as [|i]; simpl; [reflexivity|]. now apply IH.
    + destruct i as [|i]; simpl; [reflexivity|]. now apply IH.
Qed.

Lemma mask_assign_length {A : Type} (mask : list bool) (xs vs : list A) :
  length (mask_assign mask xs vs) = length xs.
Proof.
  revert xs vs. induction mask as [|b mask IH]; intros [|x xs] vs; simpl;
    try reflexivity.
  destruct b; [destruct vs as [|v vs]; simpl; [reflexivity|]|]; simpl;
    now rewrite IH.
Qed.

Lemma count_true_firstn_lt (mask : list bool) (i : nat) :
  nth_error mask i = Some true ->
  (count_true (firstn i mask) < count_true mask)%nat.
Proof.
  unfold count_true. revert i.
  induction mask as [|b mask IH]; intros [|i] Hi; simpl in *; try discriminate.
  - injection Hi as ->. simpl. lia.
  - specialize (IH i Hi). destruct b; simpl; lia.
Qed.

Lemma eq_mask_nth_error (folds : list Z) (fold : Z) (i : nat) :
  nth_error (eq_mask folds fold) i
  = option_map (fun lab => (lab =? fold)%Z) (nth_error folds i).
Proof. unfold eq_mask. apply nth_error_map. Qed.

Lemma eq_mask_length (folds : list Z) (fold : Z) :
  length (eq_mask folds fold) = length folds.
Proof. unfold eq_mask. apply length_map. Qed.

(** ** The fold labels and [range] *)

Lemma In_range (n z : Z) : In z (range n) <-> (0 <= z < n)%Z.
Proof.
  unfold range. rewrite in_map_iff. split.
  - intros (k & <- & Hk). apply in_seq in Hk. lia.
  - intros Hz. exists (Z.to_nat z). split; [lia|]. apply in_seq. lia.
Qed.

Lemma range_NoDup (n : Z) : NoDup (range n).
Proof.
  unfold range. apply Finite.Injective_map_NoDup; [|apply seq_NoDup].
  intros a b Hab. lia.
Qed.

Lemma fold_max_ge (f : Z) (folds : list Z) (x : Z) :
  In x (f :: folds) -> (x <= fold_right Z.max f folds)%Z.
Proof.
  induction folds as [|y folds IH]; simpl.
  - intros [->|[]]. lia.
  - intros [->|[->|Hin]].
    + specialize (IH (or_introl eq_refl)). lia.
    + lia.
    + specialize (IH (or_intror Hin)). lia.
Qed.

Lemma count_folds_covers (folds : list Z) (n : Z) :
  count_folds folds = Return n ->
  Forall (fun f => (0 <= f)%Z) folds ->
  forall lab, In lab folds -> In lab (range n).
Proof.
  intros Hn Hpos lab Hlab. apply In_range.
  destruct folds as [|f folds]; [discriminate|]. injection Hn as <-.
  rewrite Forall_forall in Hpos. specialize (Hpos lab Hlab).
  pose proof (fold_max_ge f folds lab Hlab). lia.
Qed.

Lemma mask_select_disjoint {A B : Type} (p q : B -> bool) (l : list B) (xs : list A) :
  (forall x, p x = true -> q x = false) ->
  Permutation (mask_select (map p l) xs ++ mask_select (map q l) xs)
    (mask_select (map (fun x => p x || q x) l) xs).
Proof.
  intros Hpq. revert xs. induction l as [|b l IH]; intros [|x xs]; simpl;
    try apply Permutation_refl.
  destruct (p b) eqn:Hp; simpl.
  - rewrite (Hpq b Hp). apply perm_skip, IH.
  - destruct (q b); simpl; [|apply IH].
    apply Permutation_sym, Permutation_cons_app, Permutation_sym, IH.
Qed.

Lemma mask_select_none {A B : Type} (l : list B) (xs : list A) :
  mask_select (map (fun _ => false) l) xs = [].
Proof. revert xs. induction l as [|b l IH]; intros [|x xs]; simpl; auto. Qed.

Lemma mask_select_all {A B : Type} (p : B -> bool) (l : list B) (xs : list A) :
  length xs = length l -> Forall (fun b => p b = true) l ->
  mask_select (map p l) xs = xs.
Proof.
  intros Hlen Hall. revert xs Hlen.
  induction Hall as [|b l Hb _ IH]; intros [|x xs] Hlen; try discriminate;
    [reflexivity|].
  simpl. rewrite Hb. f_equal. apply IH. now injection Hlen.
Qed.

(** The keys of the validation slices of the folds listed are the keys of
    the objects whose label is listed. *)
Lemma validation_keys_permutation (keys : list Z) (folds : list Z) (fold_ids : list Z) :
  NoDup fold_ids ->
  Permutation
    (concat (map (fun fold => mask_select (eq_mask folds fold) keys) fold_ids))
    (mask_select (map (fun lab => existsb (Z.eqb lab) fold_ids) folds) keys).
Proof.
  induction 1 as [|f fold_ids Hf Hnd IH]; simpl.
  - rewrite mask_select_none. apply Permutation_refl.
  - eapply Permutation_trans; [apply Permutation_app_head, IH|].
    unfold eq_mask.
    apply (mask_select_disjoint (fun lab => (lab =? f)%Z)
             (fun lab => existsb (Z.eqb lab) fold_ids)).
    intros lab Hlab. apply Z.eqb_eq in Hlab as ->.
    destruct (existsb (Z.eqb f) fold_ids) eqn:E; [|reflexivity].
    apply existsb_exists in E as (f' & Hin & Heq). apply Z.eqb_eq in Heq as <-.
    contradiction.
Qed.

(** ** The fold loop *)

Lemma assign_rows_Return (T T' : DataFrame) (mask : list bool) (V : list (list R)) :
  assign_rows T mask V = Return T' ->
  length V = count_true mask
  /\ Forall (fun row => length row = length (columns T)) V
  /\ T' = {| columns := columns T; rows := mask_assign mask (rows T) V |}.
Proof.
  unfold assign_rows.
  destruct (Nat.eqb_spec (length V) (count_true mask)) as [Hlen|]; [|discriminate].
  destruct (forallb _ V) eqn:Hw; [|discriminate]. simpl.
  intros [= <-]. split; [exact Hlen|]. split; [|reflexivity].
  apply Forall_forall. intros row Hrow.
  rewrite forallb_forall in Hw. specialize (Hw row Hrow). now apply Nat.eqb_eq in Hw.
Qed.

Lemma fold_loop_step {St M : Type}
    (fit : St -> Z -> list bool -> list bool -> result (St * M * list (list R)))
    (folds : list Z) (fold : Z) (fold_ids : list Z)
    (st : St) (T : DataFrame) (cs : list M) (out : St * DataFrame * list M) :
  fold_loop fit folds (fold :: fold_ids) st T cs = Return out ->
  exists st1 m V T1,
    fit st fold (ne_mask folds fold) (eq_mask folds fold) = Return (st1, m, V)
    /\ assign_rows T (eq_mask folds fold) V = Return T1
    /\ fold_loop fit folds fold_ids st1 T1 (cs ++ [m]) = Return out.
Proof.
  cbn [fold_loop].
  destruct (fit st fold (ne_mask folds fold) (eq_mask folds fold))
    as [[[st1 m] V]|e] eqn:Hfit; cbn [bind]; [|discriminate].
  destruct (assign_rows T (eq_mask folds fold) V) as [T1|e] eqn:Hassign;
    cbn [bind]; [|discriminate].
  intros Hrest. exists st1, m, V, T1. auto.
Qed.

(** Whatever the rows a fold predicts satisfy, the rows of the objects of
    the folds visited satisfy; the other rows are as they were. *)
Lemma fold_loop_rows {St M : Type} (Q : list R -> Prop)
    (fit : St -> Z -> list bool -> list bool -> result (St * M * list (list R)))
    (folds : list Z) :
  (forall s f tm vm s' m V, fit s f tm vm = Return (s', m, V) -> Forall Q V) ->
  forall fold_ids st T cs st' T' cs',
    length (rows T) = length folds ->
    fold_loop fit folds fold_ids st T cs = Return (st', T', cs') ->
    columns T' = columns T
    /\ length (rows T') = length folds
    /\ (forall i row, nth_error (rows T') i = Some row ->
          (Q row /\ length row = length (columns T))
          \/ nth_error (rows T) i = Some row)
    /\ (forall i lab, nth_error folds i = Some lab -> In lab fold_ids ->
          exists row, nth_error (rows T') i = Some row
                      /\ Q row /\ length row = length (columns T)).
Proof.
  intros Hfit. induction fold_ids as [|fold fold_ids IH];
    intros st T cs st' T' cs' Hlen Hloop.
  - injection Hloop as <- <- <-. repeat split; auto.
    intros i lab _ [].
  - apply fold_loop_step in Hloop as (st1 & m & V & T1 & Hstep & Hassign & Hrest).
    apply assign_rows_Return in Hassign as (HlenV & Hwidth & ->).
    pose proof (Hfit _ _ _ _ _ _ _ Hstep) as HQ.
    specialize (IH st1 {| columns := columns T;
                          rows := mask_assign (eq_mask folds fold) (rows T) V |}
                  (cs ++ [m]) st' T' cs'
                  (eq_trans (mask_assign_length _ _ _) Hlen) Hrest).
    cbn [rows columns] in IH.
    destruct IH as (Hcols & Hlen' & Hany & Hin).
    assert (Hrow1 : forall i lab, nth_error folds i = Some lab ->
      (lab = fold ->
         exists row, nth_error (mask_assign (eq_mask folds fold) (rows T) V) i = Some row
                     /\ In row V)
      /\ (lab <> fold ->
            nth_error (mask_assign (eq_mask folds fold) (rows T) V) i
            = nth_error (rows T) i)).
    { intros i lab Hlab.
      rewrite mask_assign_nth_error by (rewrite ?eq_mask_length; assumption).
      pose proof (count_true_firstn_lt (eq_mask folds fold) i) as Hrank.
      rewrite eq_mask_nth_error, Hlab in Hrank |- *. simpl in Hrank |- *.
      destruct (Z.eqb_spec lab fold) as [Heq|Hne]; split; try tauto.
      intros _. specialize (Hrank eq_refl). rewrite <- HlenV in Hrank.
      destruct (nth_error V (count_true (firstn i (eq_mask folds fold)))) as [row|] eqn:E;
        [|apply nth_error_None in E; lia].
      exists row. split; [reflexivity|]. now apply nth_error_In in E. }
    rewrite Forall_forall in HQ, Hwidth.
    split; [exact Hcols|]. split; [exact Hlen'|]. split.
    + intros i row Hi. destruct (Hany i row Hi) as [H|H]; [now left|].
      assert (Hlt : (i < length folds)%nat).
      { rewrite <- Hlen, <- (mask_assign_length (eq_mask folds fold) (rows T) V).
        apply nth_error_Some. congruence. }
      destruct (nth_error folds i) as [lab|] eqn:Hlab;
        [|apply nth_error_None in Hlab; lia].
      destruct (Hrow1 i lab Hlab) as [Hsame Hother].
      destruct (Z.eq_dec lab fold) as [Heq|Hne].
      * destruct (Hsame Heq) as (row' & Hrow' & HV).
        assert (row' = row) by congruence. subst row'.
        left. split; [now apply HQ|now apply Hwidth].
      * right. rewrite <- (Hother Hne). exact H.
    + intros i lab Hlab [<-|Hlater]; [|now apply (Hin i lab)].
      destruct (Hrow1 i fold Hlab) as [Hsame _].
      destruct (Hsame eq_refl) as (row1 & Hrow1' & HV1).
      assert (Hlt : (i < length (rows T'))%nat).
      { rewrite Hlen'. apply nth_error_Some. congruence. }
      destruct (nth_error (rows T') i) as [row|] eqn:Hi;
        [|apply nth_error_None in Hi; lia].
      exists row. split; [reflexivity|].
      destruct (Hany i row Hi) as [H|H]; [exact H|].
      assert (row1 = row) by congruence. subst row1.
      split; [now apply HQ|now apply Hwidth].
Qed.

(** When each fold predicts its rows one by one from its model, the row of
    an object is what the model of its fold predicts for it, and the models
    are returned in the order of the folds. *)
Lemma fold_loop_pointwise {St M : Type}
    (g : M -> feature_row -> list R) (Pm : M -> Prop)
    (fit : St -> Z -> list bool -> list bool -> result (St * M * list (list R)))
    (X : list feature_row) (folds : list Z) :
  (forall s f tm vm s' m V, fit s f tm vm = Return (s', m, V) ->
     Pm m /\ V = map (g m) (mask_select vm X)) ->
  length X = length folds ->
  forall n k st T cs st' T' cs',
    length (rows T) = length folds ->
    length cs = k ->
    fold_loop fit folds (map Z.of_nat (seq k n)) st T cs = Return (st', T', cs') ->
    length cs' = (k + n)%nat
    /\ firstn k cs' = cs
    /\ (forall j m, (k <= j)%nat -> nth_error cs' j = Some m -> Pm m)
    /\ (forall i lab, nth_error folds i = Some lab ->
          ~ (Z.of_nat k <= lab < Z.of_nat (k + n))%Z ->
          nth_error (rows T') i = nth_error (rows T) i)
    /\ (forall i lab x, nth_error folds i = Some lab -> nth_error X i = Some x ->
          (Z.of_nat k <= lab < Z.of_nat (k + n))%Z ->
          exists m, nth_error cs' (Z.to_nat lab) = Some m
                    /\ nth_error (rows T') i = Some (g m x)).
Proof.
  intros Hfit HX. induction n as [|n IH]; intros k st T cs st' T' cs' HT Hcs Hloop.
  - injection Hloop as <- <- <-. split; [lia|]. split.
    + rewrite <- Hcs. apply firstn_all.
    + split; [|split].
      * intros j m Hj Hm.
        assert (j < length cs)%nat by (apply nth_error_Some; congruence). lia.
      * reflexivity.
      * intros; lia.
  - cbn [seq map] in Hloop.
    apply fold_loop_step in Hloop as (st1 & m & V & T1 & Hstep & Hassign & Hrest).
    apply assign_rows_Return in Hassign as (HlenV & _ & ->).
    destruct (Hfit _ _ _ _ _ _ _ Hstep) as (HPm & HV).
    specialize (IH (S k) st1
                  {| columns := columns T;
                     rows := mask_assign (eq_mask folds (Z.of_nat k)) (rows T) V |}
                  (cs ++ [m]) st' T' cs'
                  (eq_trans (mask_assign_length _ _ _) HT)
                  ltac:(rewrite length_app; simpl; lia) Hrest).
    cbn [rows] in IH.
    destruct IH as (Hlen' & Hfirst & HPm' & Hout & Hin).
    assert (Hk : nth_error cs' k = Some m).
    { pose proof (nth_error_firstn (S k) cs' k) as Hnth.
      rewrite (proj2 (Nat.ltb_lt k (S k)) (Nat.lt_succ_diag_r k)) in Hnth.
      rewrite <- Hnth, Hfirst, nth_error_app2 by lia.
      replace (k - length cs)%nat with 0%nat by lia. reflexivity. }
    assert (Hrow1 : forall i lab, nth_error folds i = Some lab ->
      nth_error (mask_assign (eq_mask folds (Z.of_nat k)) (rows T) V) i
      = if (lab =? Z.of_nat k)%Z
        then option_map (g m) (nth_error X i)
        else nth_error (rows T) i).
    { intros i lab Hlab.
      rewrite mask_assign_nth_error by (rewrite ?eq_mask_length; assumption).
      rewrite eq_mask_nth_error, Hlab. simpl.
      destruct (Z.eqb_spec lab (Z.of_nat k)) as [Heq|Hne]; [|reflexivity].
      rewrite HV, nth_error_map. f_equal.
      apply mask_select_rank; [now rewrite eq_mask_length|].
      rewrite eq_mask_nth_error, Hlab. simpl. rewrite Heq. now rewrite Z.eqb_refl. }
    split; [lia|]. split.
    + replace (firstn k cs') with (firstn k (firstn (S k) cs'))
        by (rewrite firstn_firstn; f_equal; lia).
      rewrite Hfirst, firstn_app.
      replace (k - length cs)%nat with 0%nat by lia.
      rewrite firstn_all2 by lia. simpl. apply app_nil_r.
    + split; [|split].
      * intros j m' Hj Hm'. destruct (Nat.eq_dec j k) as [->|Hne].
        -- assert (m' = m) by congruence. now subst.
        -- apply (HPm' j m'); [lia|exact Hm'].
      * intros i lab Hlab Hnot.
        rewrite (Hout i lab Hlab) by lia.
        rewrite (Hrow1 i lab Hlab).
        destruct (Z.eqb_spec lab (Z.of_nat k)); [lia|reflexivity].
      * intros i lab x Hlab Hx Hrange.
        destruct (Z.eq_dec lab (Z.of_nat k)) as [Heq|Hne].
        -- exists m. split; [now rewrite Heq, Nat2Z.id|].
           rewrite (Hout i lab Hlab) by lia.
           rewrite (Hrow1 i lab Hlab), Hx.
           destruct (Z.eqb_spec lab (Z.of_nat k)); [reflexivity|contradiction].
        -- apply (Hin i lab x Hlab Hx). lia.
Qed.

(** ** [fit_nn_classifier] without iterations *)

Lemma fit_nn_classifier_returns_initial `{Torch}
    (data : nn_data) (batch_size : nat) (fold : Z) (dim depth heads dim_head : nat)
    (logger : option string) (save_model_path : option string)
    (kwargs : nn_kwargs) (w : world) :
  option_or (kw_model_type kwargs) "ft"%string = "ft"%string
  \/ option_or (kw_model_type kwargs) "ft"%string = "mlp"%string ->
  exists classifier w',
    fit_nn_classifier data batch_size 0 fold dim depth heads dim_head logger
      save_model_path kwargs w = Return (classifier, w').
Proof.
  intros Hmodel. unfold fit_nn_classifier.
  destruct Hmodel as [-> | ->]; simpl;
    match goal with
    | |- context [init_net ?cfg ?g] => destruct (init_net cfg g)
    end; cbn [bind]; eauto.
Qed.

(** C9. Called with [max_iters = 0] (and a model type it knows),
    [fit_nn_classifier] returns the network with the parameters it was
    initialised with, in training mode: the body of the loop never runs.
    The random generator has only served the initialisation (no mini-batch
    is sampled), no file is written (no checkpoint), and the only event that
    can be added to the trace is the opening of the wandb run: no gradient
    step, no evaluation, no checkpoint. *)
Theorem fit_nn_classifier_zero_iterations `{Torch}
    (data : nn_data) (batch_size : nat) (fold : Z) (dim depth heads dim_head : nat)
    (logger : option string) (save_model_path : option string)
    (kwargs : nn_kwargs) (w : world) :
  option_or (kw_model_type kwargs) "ft"%string = "ft"%string
  \/ option_or (kw_model_type kwargs) "ft"%string = "mlp"%string ->
  train_iterations data batch_size 0 (option_or (kw_eval_iters kwargs) 200%nat)
    (option_or (kw_eval_interval kwargs) 200%nat) logger save_model_path (seq 0 0)
  = Return
  /\
  exists classifier w',
    fit_nn_classifier data batch_size 0 fold dim depth heads dim_head logger
      save_model_path kwargs w = Return (classifier, w')
    /\ parameters classifier = fst (init_net (config classifier) (w_rng w))
    /\ training classifier = true
    /\ w_rng w' = snd (init_net (config classifier) (w_rng w))
    /\ w_files w' = w_files w
    /\ w_trace w'
       = w_trace w
         ++ (if match logger with Some l => String.eqb l "wandb" | None => false end
             then [WandbInit fold] else []).
Proof.
  intros Hmodel. split; [reflexivity|]. unfold fit_nn_classifier.
  set (cfg_ft := {| model := "ft"; num_continuous := num_features data;
                    net_dim := dim;
                    dim_out := length (unique (train_classes data));
                    net_depth := depth; net_heads := heads; net_dim_head := dim_head;
                    attn_dropout := option_or (kw_attn_dropout kwargs) (1 / 10);
                    ff_dropout := option_or (kw_ff_dropout kwargs) (1 / 10) |}).
  set (cfg_mlp := {| model := "mlp"; num_continuous := 0;
                     net_dim := num_features data;
                     dim_out := length (unique (train_classes data));
                     net_depth := 0; net_heads := 0; net_dim_head := 0;
                     attn_dropout := 0; ff_dropout := 0 |}).
  assert (Hcfg : exists cfg,
    (if String.eqb (option_or (kw_model_type kwargs) "ft") "ft" then Return cfg_ft
     else if String.eqb (option_or (kw_model_type kwargs) "ft") "mlp"
          then Return cfg_mlp else Raise UnboundLocalError) = Return cfg).
  { destruct Hmodel as [-> | ->]; simpl; eauto. }
  destruct Hcfg as (cfg & ->). cbn [bind seq train_iterations].
  destruct (init_net cfg (w_rng w)) as [params g] eqn:Hinit.
  cbn [bind]. eexists _, _. split; [reflexivity|].
  cbn [parameters training config w_rng w_files w_trace ls_parameters ls_world].
  rewrite Hinit. repeat split; try reflexivity.
  destruct logger as [l|]; [destruct (String.eqb l "wandb")|];
    rewrite ?app_nil_r; reflexivity.
Qed.

Lemma fit_nn_classifier_zero_iterations_witness :
  exists classifier w',
    @fit_nn_classifier example_torch
      {| num_features := 1; train_features := [[Fin 0]]; train_classes := [1%Z];
         train_weights := [1]; validation_features := [[Fin 0]];
         validation_classes := [2%Z]; validation_weights := [1] |}
      32 0 0 32 6 8 16 (Some "wandb"%string) (Some "classifier.pt"%string)
      no_kwargs empty_world
    = Return (classifier, w')
    /\ @parameters example_torch classifier = 0%nat
    /\ w_files w' = ∅
    /\ w_trace w' = [WandbInit 0].
Proof.
  destruct (@fit_nn_classifier_zero_iterations example_torch
              {| num_features := 1; train_features := [[Fin 0]]; train_classes := [1%Z];
                 train_weights := [1]; validation_features := [[Fin 0]];
                 validation_classes := [2%Z]; validation_weights := [1] |}
              32 0 32 6 8 16 (Some "wandb"%string) (Some "classifier.pt"%string)
              no_kwargs empty_world (or_introl eq_refl))
    as (_ & classifier & w' & Hfit & Hparams & _ & _ & Hfiles & Htrace).
  exists classifier, w'. repeat split; assumption.
Defined.

(** ** The out-of-fold table *)

Lemma exp_sum_pos (l : list R) (x : R) : In x l -> 0 < sum (map exp l).
Proof.
  unfold sum. intros Hin.
  assert (Hnn : forall l', 0 <= fold_right Rplus 0 (map exp l')).
  { induction l' as [|y l' IH]; simpl; [lra|]. pose proof (exp_pos y). lra. }
  induction l as [|y l IH]; [destruct Hin|]. simpl.
  pose proof (exp_pos y). specialize (Hnn l). lra.
Qed.

Lemma softmax_positive (logits : list R) : Forall (fun p => 0 < p) (softmax logits).
Proof.
  unfold softmax. apply Forall_map, Forall_forall. intros x Hx.
  apply Rmult_lt_0_compat; [apply exp_pos|].
  apply Rinv_0_lt_compat. now apply (exp_sum_pos logits x).
Qed.

Lemma sentinel_table_rows (n : nat) (classes : list class_name) :
  length (rows (sentinel_table n classes)) = n.
Proof. simpl. apply repeat_length. Qed.

(** Once every fold label is one of the folds visited, every row of the
    table satisfies what the predicted rows satisfy. *)
Lemma fold_loop_all_rows {St M : Type} (Q : list R -> Prop)
    (fit : St -> Z -> list bool -> list bool -> result (St * M * list (list R)))
    (folds fold_ids : list Z) st T cs st' T' cs' :
  (forall s f tm vm s' m V, fit s f tm vm = Return (s', m, V) -> Forall Q V) ->
  length (rows T) = length folds ->
  (forall lab, In lab folds -> In lab fold_ids) ->
  fold_loop fit folds fold_ids st T cs = Return (st', T', cs') ->
  columns T' = columns T
  /\ length (rows T') = length folds
  /\ Forall (fun row => Q row /\ length row = length (columns T)) (rows T').
Proof.
  intros Hfit Hlen Hcover Hloop.
  destruct (fold_loop_rows Q fit folds Hfit fold_ids st T cs st' T' cs' Hlen Hloop)
    as (Hcols & Hlen' & _ & Hin).
  split; [exact Hcols|]. split; [exact Hlen'|].
  apply Forall_forall. intros row Hrow.
  apply In_nth_error in Hrow as (i & Hi).
  assert (Hlt : (i < length folds)%nat)
    by (rewrite <- Hlen'; apply nth_error_Some; congruence).
  destruct (nth_error folds i) as [lab|] eqn:Hlab;
    [|apply nth_error_None in Hlab; lia].
  destruct (Hin i lab Hlab (Hcover lab (nth_error_In _ _ Hlab)))
    as (row' & Hrow' & HQ).
  assert (row' = row) by congruence. now subst.
Qed.

(** Each row is in the validation slice of exactly the fold of its label. *)
Lemma validation_mask_iff (folds : list Z) (i : nat) (lab fold : Z) :
  nth_error folds i = Some lab ->
  (nth_error (eq_mask folds fold) i = Some true <-> fold = lab).
Proof.
  intros Hlab. rewrite eq_mask_nth_error, Hlab. simpl.
  destruct (Z.eqb_spec lab fold); split; congruence.
Qed.

Lemma validation_keys_cover (dataset : Dataset) (folds : list Z) (n : Z) :
  length folds = length (metadata dataset) ->
  (forall lab, In lab folds -> In lab (range n)) ->
  Permutation (concat (map (validation_keys dataset folds) (range n)))
    (map object_id (metadata dataset)).
Proof.
  intros Hlen Hcover. unfold validation_keys.
  eapply Permutation_trans;
    [apply (validation_keys_permutation _ folds (range n) (range_NoDup n))|].
  rewrite mask_select_all; [apply Permutation_refl|now rewrite length_map|].
  apply Forall_forall. intros lab Hlab. apply existsb_exists.
  exists lab. split; [now apply Hcover|apply Z.eqb_refl].
Qed.

Lemma lgb_fit_and_predict_rows `{LightGBM}
    features object_classes object_weights kwargs st f tm vm st' m V :
  (forall c X, Forall (Forall (fun p => 0 <= p)) (predict_proba c X)) ->
  lgb_fit_and_predict features object_classes object_weights kwargs st f tm vm
  = Return (st', m, V) ->
  Forall (Forall (fun p => 0 <= p)) V.
Proof.
  intros Hproba. unfold lgb_fit_and_predict. intros [= _ _ <-]. apply Hproba.
Qed.

Lemma nn_fit_and_predict_rows `{Torch} `{DatasetOps}
    settings self nn n_features features object_classes object_weights kwargs
    w f tm vm w' m V :
  nn_fit_and_predict settings self nn n_features features object_classes
    object_weights kwargs w f tm vm = Return (w', m, V) ->
  V = predict_rows (parameters m) (mask_select vm features)
  /\ exists data kw w0 fitted,
       fit_nn_classifier data (nn_batch_size nn) (nn_max_iters nn) f
         (nn_dim nn) (nn_depth nn) (nn_heads nn) (nn_dim_head nn) (nn_logger nn)
         (Some (model_path settings (name self) f)) kw w0 = Return (fitted, w')
       /\ parameters m = parameters fitted
       /\ training m = false.
Proof.
  unfold nn_fit_and_predict.
  destruct (kw_model_type kwargs); cbn [bind]; [discriminate|].
  match goal with
  | |- context [fit_nn_classifier ?d ?b ?mi ?fo ?di ?de ?he ?dh ?lo ?sp ?kw ?w0] =>
      destruct (fit_nn_classifier d b mi fo di de he dh lo sp kw w0)
        as [[fitted w1]|e] eqn:Hfit; cbn [bind]; [|discriminate];
      intros [= <- <- <-]; split; [reflexivity|];
      exists d, kw, w0, fitted; auto
  end.
Qed.

Lemma positive_not_sentinel (row : list R) :
  Forall (fun p => 0 <= p) row -> Forall (fun p => p <> -1) row.
Proof. intros H. eapply Forall_impl; [|exact H]. intros p Hp. simpl in Hp. lra. Qed.

(** ** The loop, pass by pass *)

Lemma fold_loop_app {St M : Type}
    (fit : St -> Z -> list bool -> list bool -> result (St * M * list (list R)))
    (folds l1 l2 : list Z) st T cs out :
  fold_loop fit folds (l1 ++ l2) st T cs = Return out ->
  exists st1 T1 cs1,
    fold_loop fit folds l1 st T cs = Return (st1, T1, cs1)
    /\ fold_loop fit folds l2 st1 T1 cs1 = Return out.
Proof.
  revert st T cs. induction l1 as [|f l1 IH]; intros st T cs Hloop.
  - exists st, T, cs. split; [reflexivity|exact Hloop].
  - cbn [app] in Hloop.
    apply fold_loop_step in Hloop as (st0 & m & V & T0 & Hfit & Hassign & Hrest).
    apply IH in Hrest as (st1 & T1 & cs1 & Hl1 & Hl2).
    exists st1, T1, cs1. split; [|exact Hl2].
    cbn [fold_loop]. rewrite Hfit. cbn [bind]. rewrite Hassign. cbn [bind].
    exact Hl1.
Qed.

Lemma fold_loop_snoc {St M : Type}
    (fit : St -> Z -> list bool -> list bool -> result (St * M * list (list R)))
    (folds l1 l2 : list Z) st T cs st1 T1 cs1 :
  fold_loop fit folds l1 st T cs = Return (st1, T1, cs1) ->
  fold_loop fit folds (l1 ++ l2) st T cs = fold_loop fit folds l2 st1 T1 cs1.
Proof.
  revert st T cs. induction l1 as [|f l1 IH]; intros st T cs Hloop.
  - injection Hloop as Hs HT Hc. subst. reflexivity.
  - apply fold_loop_step in Hloop as (st0 & m & V & T0 & Hfit & Hassign & Hrest).
    cbn [app fold_loop]. rewrite Hfit. cbn [bind]. rewrite Hassign. cbn [bind].
    now apply IH.
Qed.

(** The passes of the folds listed leave the rows of every other label as
    they were. *)
Lemma fold_loop_frame {St M : Type}
    (fit : St -> Z -> list bool -> list bool -> result (St * M * list (list R)))
    (folds : list Z) :
  forall fold_ids st T cs st' T' cs',
    length (rows T) = length folds ->
    fold_loop fit folds fold_ids st T cs = Return (st', T', cs') ->
    length (rows T') = length folds
    /\ forall i lab, nth_error folds i = Some lab -> ~ In lab fold_ids ->
         nth_error (rows T') i = nth_error (rows T) i.
Proof.
  induction fold_ids as [|fold fold_ids IH]; intros st T cs st' T' cs' Hlen Hloop.
  - injection Hloop as <- <- <-. split; [exact Hlen|reflexivity].
  - apply fold_loop_step in Hloop as (st1 & m & V & T1 & Hfit & Hassign & Hrest).
    apply assign_rows_Return in Hassign as (HlenV & _ & ->).
    apply IH in Hrest as (Hlen' & Hframe);
      [|cbn [rows]; now rewrite mask_assign_length].
    split; [exact Hlen'|]. intros i lab Hlab Hnot.
    rewrite (Hframe i lab Hlab) by (intros Hin; apply Hnot; now right).
    cbn [rows].
    rewrite mask_assign_nth_error by (rewrite ?eq_mask_length; assumption).
    rewrite eq_mask_nth_error, Hlab. cbn [option_map].
    destruct (Z.eqb_spec lab fold) as [->|_]; [|reflexivity].
    exfalso. apply Hnot. now left.
Qed.

Lemma range_split (n fold : Z) :
  In fold (range n) ->
  range (fold + 1) = range fold ++ [fold]
  /\ ~ In fold (range fold)
  /\ exists later, range n = range fold ++ fold :: later /\ ~ In fold later.
Proof.
  intros Hin. apply In_range in Hin.
  set (k := Z.to_nat fold).
  assert (Hk : Z.of_nat k = fold) by (unfold k; lia).
  split; [|split].
  - unfold range. fold k.
    replace (Z.to_nat (fold + 1)) with (k + 1)%nat by (unfold k; lia).
    rewrite seq_app, map_app. cbn [seq map Nat.add]. now rewrite Hk.
  - intros Hself. apply In_range in Hself. lia.
  - set (r := (Z.to_nat n - S k)%nat).
    assert (Hn : Z.to_nat n = (k + S r)%nat) by (unfold r, k; lia).
    exists (map Z.of_nat (seq (S k) r)). split.
    + unfold range. fold k. rewrite Hn, seq_app, map_app.
      cbn [seq map Nat.add]. now rewrite Hk.
    + rewrite in_map_iff. intros (j & Hj & Hseq). apply in_seq in Hseq. lia.
Qed.

(** Every pass of the loop writes the rows of its validation slice and no
    other row. *)
Lemma fold_loop_passes {St M : Type}
    (fit : St -> Z -> list bool -> list bool -> result (St * M * list (list R)))
    (folds : list Z) (n : Z) st T st' T' cs' :
  length (rows T) = length folds ->
  fold_loop fit folds (range n) st T [] = Return (st', T', cs') ->
  one_fold_per_row fit folds n st T T'.
Proof.
  intros Hlen Hloop. split; [eauto|]. intros fold Hfold.
  destruct (range_split n fold Hfold) as (Hnext & Hbefore & later & Hsplit & Hlater).
  pose proof Hloop as Hrun. rewrite Hsplit in Hrun.
  apply fold_loop_app in Hrun as (stb & Tb & cb & Hpre & Hpost).
  apply fold_loop_step in Hpost as (sta & m & V & Ta & Hfit & Hassign & Hrest).
  destruct (fold_loop_frame fit folds _ _ _ _ _ _ _ Hlen Hpre) as (HlenB & HframeB).
  pose proof Hassign as Hassign'.
  apply assign_rows_Return in Hassign' as (HlenV & _ & HTa).
  assert (HlenA : length (rows Ta) = length folds).
  { rewrite HTa. cbn [rows]. now rewrite mask_assign_length. }
  destruct (fold_loop_frame fit folds _ _ _ _ _ _ _ HlenA Hrest) as (_ & HframeA).
  exists stb, Tb, cb, sta, m, V, Ta.
  split; [exact Hpre|]. split; [exact Hfit|]. split.
  { rewrite Hnext, (fold_loop_snoc fit folds (range fold) [fold] _ _ _ _ _ _ Hpre).
    cbn [fold_loop]. rewrite Hfit. cbn [bind]. rewrite Hassign. reflexivity. }
  split.
  { intros i. rewrite HTa. cbn [rows].
    rewrite mask_assign_nth_error by (rewrite ?eq_mask_length; assumption).
    destruct (nth_error (eq_mask folds fold) i) as [[|]|] eqn:Hm; try reflexivity.
    pose proof (count_true_firstn_lt _ _ Hm) as Hrank. rewrite <- HlenV in Hrank.
    destruct (nth_error V (count_true (firstn i (eq_mask folds fold))))
      as [row|] eqn:E; [|apply nth_error_None in E; lia].
    exists row. split; reflexivity. }
  intros i Hi. rewrite eq_mask_nth_error in Hi.
  destruct (nth_error folds i) as [lab|] eqn:Hlab; [|discriminate].
  cbn [option_map] in Hi. injection Hi as Hi. apply Z.eqb_eq in Hi. subst lab.
  split; [now apply (HframeB i fold)|now apply (HframeA i fold)].
Qed.

Lemma mapped_classes_length (cm : option (gmap Z Z)) (classes object_classes : list class_name) :
  match cm with
  | Some cm => map_classes cm classes
  | None => Return classes
  end = Return object_classes ->
  length object_classes = length classes.
Proof.
  destruct cm as [cm|]; [|now intros [= <-]].
  revert object_classes. induction classes as [|c l IH]; simpl; intros oc Hoc.
  - now injection Hoc as <-.
  - destruct (cm !! c); [|discriminate].
    destruct (map_classes cm l) as [vs|]; [|discriminate].
    injection Hoc as <-. simpl. f_equal. now apply IH.
Qed.

(** C3. With one fold label per object, none of them negative, after
    [LightGBMClassifier.train] (whose [predict_proba] gives probabilities)
    and after [NNClassifier.train] the table of out-of-fold predictions has
    one row per object, each with a cell per class, and no cell holds the
    sentinel [-1]. Each row lies in the validation slice of exactly one
    fold of [range(num_folds)], the fold of its label, and that fold alone
    writes it: the table of either [train] is what the loop leaves, and in
    the loop the pass of a fold writes the rows of its validation slice
    with the rows it predicts and leaves every other row as it found it, so
    a row holds the sentinel until the pass of the fold of its label, and
    what that pass wrote from then on. The keys of the validation slices
    of the folds, put together, are a permutation of the index of the
    dataset: no key is missing and, the index having no duplicates, none
    comes twice. *)
Theorem out_of_fold_table_is_filled `{DatasetOps} `{LightGBM} `{Torch}
    (settings : Settings) (self : classifier_setup) (nn : nn_setup)
    (dataset : Dataset) (n_features : nat)
    (num_folds : option nat) (random_state : option Z)
    (lgb_kwargs : gmap string param_value) (kwargs : nn_kwargs) (w : world)
    (n : Z) :
  let folds := label_folds dataset num_folds random_state in
  length folds = length (metadata dataset) ->
  Forall (fun f => (0 <= f)%Z) folds ->
  count_folds folds = Return n ->
  (forall i lab fold, nth_error folds i = Some lab -> In fold (range n) ->
     (nth_error (eq_mask folds fold) i = Some true <-> fold = lab))
  /\ (forall lab, In lab folds -> In lab (range n))
  /\ Permutation (concat (map (validation_keys dataset folds) (range n)))
       (map object_id (metadata dataset))
  /\ (NoDup (map object_id (metadata dataset)) ->
      NoDup (concat (map (validation_keys dataset folds) (range n))))
  /\ (forall trained,
        (forall c X, Forall (Forall (fun p => 0 <= p)) (predict_proba c X)) ->
        LightGBMClassifier_train self dataset num_folds random_state lgb_kwargs
        = Return trained ->
        length (rows (lgb_train_predictions trained)) = length (metadata dataset)
        /\ Forall (fun row =>
                     Forall (fun p => p <> -1) row
                     /\ length row = length (columns (lgb_train_predictions trained)))
             (rows (lgb_train_predictions trained)))
  /\ (forall trained w',
        NNClassifier_train settings self nn dataset n_features num_folds
          random_state kwargs w = Return (trained, w') ->
        length (rows (nn_train_predictions trained)) = length (metadata dataset)
        /\ Forall (fun row =>
                     Forall (fun p => p <> -1) row
                     /\ length row = length (columns (nn_train_predictions trained)))
             (rows (nn_train_predictions trained)))
  /\ (forall trained,
        LightGBMClassifier_train self dataset num_folds random_state lgb_kwargs
        = Return trained ->
        exists object_weights,
          lgb_object_weights self dataset = Return object_weights
          /\ one_fold_per_row
               (lgb_fit_and_predict (select_features dataset (use_featurizer self))
                  (map class (metadata dataset)) object_weights lgb_kwargs)
               folds n tt
               (sentinel_table (length (map class (metadata dataset)))
                  (unique (map class (metadata dataset))))
               (lgb_train_predictions trained))
  /\ (forall trained w',
        NNClassifier_train settings self nn dataset n_features num_folds
          random_state kwargs w = Return (trained, w') ->
        exists object_weights,
          one_fold_per_row
            (nn_fit_and_predict settings self nn n_features
               (select_features dataset (use_featurizer self))
               (nn_train_classes trained) object_weights kwargs)
            folds n w
            (sentinel_table (length (nn_train_classes trained))
               (unique (nn_train_classes trained)))
            (nn_train_predictions trained)).
Proof.
  intros folds Hlen Hpos Hn.
  pose proof (count_folds_covers folds n Hn Hpos) as Hcover.
  pose proof (validation_keys_cover dataset folds n Hlen Hcover) as Hperm.
  split; [intros i lab fold Hlab _; now apply validation_mask_iff|].
  split; [exact Hcover|]. split; [exact Hperm|]. split.
  { intros Hnd. eapply Permutation_NoDup; [apply Permutation_sym, Hperm|exact Hnd]. }
  split; [|split; [|split]].
  - intros trained Hproba Htrain. unfold LightGBMClassifier_train in Htrain.
    fold folds in Htrain. rewrite Hn in Htrain. cbn [bind] in Htrain.
    destruct (lgb_object_weights self dataset) as [ow|e]; cbn [bind] in Htrain;
      [|discriminate].
    destruct (fold_loop _ folds (range n) tt _ []) as [[[u T'] cs']|e] eqn:Hloop;
      cbn [bind] in Htrain; [|discriminate].
    destruct (report_logloss dataset _ T' ow _) as [report|e];
      cbn [bind] in Htrain; [|discriminate].
    injection Htrain as <-. cbn [lgb_train_predictions].
    apply (fold_loop_all_rows (Forall (fun p => 0 <= p))) in Hloop
      as (Hcols & Hrows & Hall).
    + split; [now rewrite Hrows|]. rewrite Hcols.
      eapply Forall_impl; [|exact Hall].
      intros row [HQ Hw]. split; [now apply positive_not_sentinel|exact Hw].
    + intros s f tm vm s' m V Hfit.
      now apply (lgb_fit_and_predict_rows _ _ _ _ _ _ _ _ _ _ _ Hproba Hfit).
    + rewrite sentinel_table_rows, length_map. now symmetry.
    + exact Hcover.
  - intros trained w' Htrain. unfold NNClassifier_train in Htrain.
    fold folds in Htrain. rewrite Hn in Htrain. cbn [bind] in Htrain.
    destruct (match weighting_function self with
              | Some f => _
              | None => _
              end) as [ow|e]; cbn [bind] in Htrain; [|discriminate].
    destruct (match class_map nn with
              | Some cm => _
              | None => _
              end) as [object_classes|e] eqn:Hoc; cbn [bind] in Htrain;
      [|discriminate].
    destruct (fold_loop _ folds (range n) w _ []) as [[[w1 T'] cs']|e] eqn:Hloop;
      cbn [bind] in Htrain; [|discriminate].
    destruct (report_logloss dataset _ T' ow _) as [report|e];
      cbn [bind] in Htrain; [|discriminate].
    injection Htrain as <- <-. cbn [nn_train_predictions].
    pose proof (mapped_classes_length _ _ _ Hoc) as Hlenoc.
    rewrite length_map in Hlenoc.
    apply (fold_loop_all_rows (Forall (fun p => 0 < p))) in Hloop
      as (Hcols & Hrows & Hall).
    + split; [now rewrite Hrows|]. rewrite Hcols.
      eapply Forall_impl; [|exact Hall].
      intros row [HQ Hw]. split; [|exact Hw].
      eapply Forall_impl; [|exact HQ]. intros p Hp. simpl in Hp. lra.
    + intros s f tm vm s' m V Hfit.
      apply nn_fit_and_predict_rows in Hfit as (-> & _).
      unfold predict_rows. apply Forall_map, Forall_forall.
      intros x _. apply softmax_positive.
    + rewrite sentinel_table_rows, Hlenoc. now symmetry.
    + exact Hcover.
  - intros trained Htrain. unfold LightGBMClassifier_train in Htrain.
    fold folds in Htrain. rewrite Hn in Htrain. cbn [bind] in Htrain.
    destruct (lgb_object_weights self dataset) as [ow|e]; cbn [bind] in Htrain;
      [|discriminate].
    destruct (fold_loop _ folds (range n) tt _ []) as [[[u T'] cs']|e] eqn:Hloop;
      cbn [bind] in Htrain; [|discriminate].
    destruct (report_logloss dataset _ T' ow _) as [report|e];
      cbn [bind] in Htrain; [|discriminate].
    injection Htrain as <-. cbn [lgb_train_predictions].
    exists ow. split; [reflexivity|]. destruct u.
    apply (fold_loop_passes _ folds n tt _ tt T' cs'); [|exact Hloop].
    rewrite sentinel_table_rows, length_map. now symmetry.
  - intros trained w' Htrain. unfold NNClassifier_train in Htrain.
    fold folds in Htrain. rewrite Hn in Htrain. cbn [bind] in Htrain.
    destruct (match weighting_function self with
              | Some f => _
              | None => _
              end) as [ow|e]; cbn [bind] in Htrain; [|discriminate].
    destruct (match class_map nn with
              | Some cm => _
              | None => _
              end) as [object_classes|e] eqn:Hoc; cbn [bind] in Htrain;
      [|discriminate].
    destruct (fold_loop _ folds (range n) w _ []) as [[[w1 T'] cs']|e] eqn:Hloop;
      cbn [bind] in Htrain; [|discriminate].
    destruct (report_logloss dataset _ T' ow _) as [report|e];
      cbn [bind] in Htrain; [|discriminate].
    injection Htrain as <- <-. cbn [nn_train_predictions nn_train_classes].
    exists ow.
    apply (fold_loop_passes _ folds n w _ w1 T' cs'); [|exact Hloop].
    rewrite sentinel_table_rows, (mapped_classes_length _ _ _ Hoc), length_map.
    now symmetry.
Qed.

(** ** The training functions return *)

Lemma weighted_multi_logloss_returns tc pred ow cw flag :
  (forall c, In c tc -> In c (columns pred)) ->
  exists v, weighted_multi_logloss tc pred ow cw flag = Return v.
Proof.
  intros Hcols. unfold weighted_multi_logloss.
  destruct (logloss_loop tc pred ow cw (unique tc)
              (repeat (Fin (10 ^ 10)) (length tc), 0)) as [[ol s]|e] eqn:Hloop.
  - cbn [bind]. destruct flag; eauto.
  - exfalso.
    assert (Hr : raises (logloss_loop tc pred ow cw (unique tc)
                           (repeat (Fin (10 ^ 10)) (length tc), 0)))
      by (exists e; exact Hloop).
    apply logloss_loop_raises in Hr as (c & Hc & _ & Hmiss).
    apply Hmiss, Hcols. exact (proj1 (In_unique _ _) Hc).
Qed.

Lemma In_mask_select {A : Type} (mask : list bool) (xs : list A) (x : A) :
  In x (mask_select mask xs) -> In x xs.
Proof.
  revert xs. induction mask as [|b mask IH]; intros [|y xs]; simpl; try tauto.
  destruct b; simpl; intros H; [destruct H as [->|H]|]; auto.
Qed.

Lemma report_logloss_returns dataset object_classes predictions object_weights cw :
  (forall c, In c object_classes -> In c (columns predictions)) ->
  exists report,
    report_logloss dataset object_classes predictions object_weights cw
    = Return report.
Proof.
  intros Hcols. unfold report_logloss.
  destruct (weighted_multi_logloss_returns object_classes predictions
              (Some object_weights) cw false Hcols) as (v1 & ->).
  destruct (weighted_multi_logloss_returns object_classes predictions
              None cw false Hcols) as (v2 & ->).
  cbn [bind]. destruct (has_reference_object_id dataset); cbn [bind]; [|eauto].
  set (mask := map (fun o => match reference_object_id o with
                             | None => true | Some _ => false end)
                   (metadata dataset)).
  assert (Hsub : forall c, In c (mask_select mask object_classes) ->
                   In c (columns {| columns := columns predictions;
                                    rows := mask_select mask (rows predictions) |})).
  { intros c Hc. apply Hcols. now apply In_mask_select in Hc. }
  destruct (weighted_multi_logloss_returns _ _
              (Some (mask_select mask object_weights)) cw false Hsub) as (v3 & ->).
  destruct (weighted_multi_logloss_returns _ _ None cw false Hsub) as (v4 & ->).
  cbn [bind]. eauto.
Qed.

Lemma mask_select_length {A : Type} (mask : list bool) (xs : list A) :
  length xs = length mask -> length (mask_select mask xs) = count_true mask.
Proof.
  unfold count_true. revert xs.
  induction mask as [|b mask IH]; intros [|x xs] Hlen; try discriminate;
    [reflexivity|].
  injection Hlen as Hlen. simpl. destruct b; simpl; now rewrite IH.
Qed.

Lemma assign_rows_returns (T : DataFrame) (mask : list bool) (V : list (list R)) :
  length V = count_true mask ->
  Forall (fun row => length row = length (columns T)) V ->
  assign_rows T mask V
  = Return {| columns := columns T; rows := mask_assign mask (rows T) V |}.
Proof.
  intros Hlen Hw. unfold assign_rows.
  rewrite (proj2 (Nat.eqb_eq _ _) Hlen).
  assert (Hall : forallb (fun row => (length row =? length (columns T))%nat) V = true).
  { apply forallb_forall. intros row Hrow. rewrite Forall_forall in Hw.
    apply Nat.eqb_eq. now apply Hw. }
  rewrite Hall. reflexivity.
Qed.

Lemma fold_loop_returns {St M : Type}
    (fit : St -> Z -> list bool -> list bool -> result (St * M * list (list R)))
    (folds : list Z) (width : nat) :
  (forall s f, exists s' m V,
      fit s f (ne_mask folds f) (eq_mask folds f) = Return (s', m, V)
      /\ length V = count_true (eq_mask folds f)
      /\ Forall (fun row => length row = width) V) ->
  forall fold_ids st T cs,
    length (columns T) = width ->
    exists st' T' cs',
      fold_loop fit folds fold_ids st T cs = Return (st', T', cs')
      /\ columns T' = columns T.
Proof.
  intros Hfit. induction fold_ids as [|f fold_ids IH]; intros st T cs Hw.
  - exists st, T, cs. split; reflexivity.
  - cbn [fold_loop].
    destruct (Hfit st f) as (s' & m & V & -> & HlenV & HwV). cbn [bind].
    rewrite assign_rows_returns; [|exact HlenV|now rewrite Hw]. cbn [bind].
    destruct (IH s' {| columns := columns T;
                       rows := mask_assign (eq_mask folds f) (rows T) V |}
                (cs ++ [m]) Hw) as (st' & T' & cs' & -> & Hcols).
    exists st', T', cs'. split; [reflexivity|exact Hcols].
Qed.

Lemma LightGBMClassifier_train_returns `{DatasetOps} `{LightGBM}
    (self : classifier_setup) (dataset : Dataset)
    (num_folds : option nat) (random_state : option Z)
    (kwargs : gmap string param_value) (n : Z) :
  let folds := label_folds dataset num_folds random_state in
  count_folds folds = Return n ->
  (exists ow, lgb_object_weights self dataset = Return ow) ->
  length (select_features dataset (use_featurizer self)) = length folds ->
  (forall c X,
     length (predict_proba c X) = length X
     /\ Forall (fun row => length row = length (unique (map class (metadata dataset))))
          (predict_proba c X)) ->
  exists trained,
    LightGBMClassifier_train self dataset num_folds random_state kwargs
    = Return trained.
Proof.
  intros folds Hn (ow & How) Hfeat Hshape. unfold LightGBMClassifier_train.
  fold folds. rewrite Hn, How. cbn [bind].
  destruct (fold_loop_returns
              (lgb_fit_and_predict (select_features dataset (use_featurizer self))
                 (map class (metadata dataset)) ow kwargs)
              folds (length (unique (map class (metadata dataset)))))
    with (fold_ids := range n) (st := tt)
         (T := sentinel_table (length (map class (metadata dataset)))
                 (unique (map class (metadata dataset))))
         (cs := @nil LGBMClassifier)
    as (st' & T' & cs' & Hloop & Hcols).
  - intros s f. unfold lgb_fit_and_predict. eexists _, _, _.
    split; [reflexivity|].
    destruct (Hshape
      (fit_lightgbm_classifier
         (mask_select (ne_mask folds f) (select_features dataset (use_featurizer self)))
         (mask_select (ne_mask folds f) (map class (metadata dataset)))
         (mask_select (ne_mask folds f) ow)
         (mask_select (eq_mask folds f) (select_features dataset (use_featurizer self)))
         (mask_select (eq_mask folds f) (map class (metadata dataset)))
         (mask_select (eq_mask folds f) ow) kwargs)
      (mask_select (eq_mask folds f) (select_features dataset (use_featurizer self))))
      as [Hl Hw].
    split; [|exact Hw].
    rewrite Hl. apply mask_select_length. now rewrite eq_mask_length.
  - reflexivity.
  - rewrite Hloop. cbn [bind].
    destruct (report_logloss_returns dataset (map class (metadata dataset)) T' ow
                (class_weights_of self)) as (report & ->).
    + intros c Hc. rewrite Hcols. simpl. now apply In_unique.
    + cbn [bind]. eauto.
Qed.

Lemma softmax_length (logits : list R) : length (softmax logits) = length logits.
Proof. unfold softmax. apply length_map. Qed.

Lemma NNClassifier_train_returns `{Torch} `{DatasetOps}
    (settings : Settings) (self : classifier_setup) (nn : nn_setup)
    (dataset : Dataset) (n_features : nat)
    (num_folds : option nat) (random_state : option Z)
    (kwargs : nn_kwargs) (w : world) (n : Z) :
  let folds := label_folds dataset num_folds random_state in
  count_folds folds = Return n ->
  (exists ow,
     match weighting_function self with
     | Some f => try ws <- f dataset (class_weights_of self) in Return (values ws)
     | None => Return (repeat 1 (length (metadata dataset)))
     end = Return ow) ->
  class_map nn = None ->
  kw_model_type kwargs = None ->
  length (select_features dataset (use_featurizer self)) = length folds ->
  (forall data fold kw w0, kw_model_type kw = Some (model_type nn) ->
     exists fitted w1,
       fit_nn_classifier data (nn_batch_size nn) (nn_max_iters nn) fold
         (nn_dim nn) (nn_depth nn) (nn_heads nn) (nn_dim_head nn) (nn_logger nn)
         (Some (model_path settings (name self) fold)) kw w0
       = Return (fitted, w1)) ->
  (forall params x,
     length (nth 0 (forward_eval params [x]) [])
     = length (unique (map class (metadata dataset)))) ->
  exists trained w',
    NNClassifier_train settings self nn dataset n_features num_folds random_state
      kwargs w = Return (trained, w').
Proof.
  intros folds Hn (ow & How) Hmap Hkw Hfeat Hfit Hshape.
  unfold NNClassifier_train. fold folds. rewrite Hn, How, Hmap. cbn [bind].
  destruct (fold_loop_returns
              (nn_fit_and_predict settings self nn n_features
                 (select_features dataset (use_featurizer self))
                 (map class (metadata dataset)) ow kwargs)
              folds (length (unique (map class (metadata dataset)))))
    with (fold_ids := range n) (st := w)
         (T := sentinel_table (length (map class (metadata dataset)))
                 (unique (map class (metadata dataset))))
         (cs := @nil net)
    as (st' & T' & cs' & Hloop & Hcols).
  - intros s f. unfold nn_fit_and_predict. rewrite Hkw. cbn [bind].
    match goal with
    | |- context [fit_nn_classifier ?d ?b ?mi ?fo ?di ?de ?he ?dh ?lo ?sp ?kw ?w0] =>
        destruct (Hfit d fo kw w0 eq_refl) as (fitted & w1 & ->)
    end.
    cbn [bind]. eexists _, _, _. split; [reflexivity|].
    cbn [parameters validation_features]. unfold predict_rows. split.
    + rewrite length_map. apply mask_select_length. now rewrite eq_mask_length.
    + apply Forall_map, Forall_forall. intros x _.
      rewrite softmax_length. apply Hshape.
  - reflexivity.
  - rewrite Hloop. cbn [bind].
    destruct (report_logloss_returns dataset (map class (metadata dataset)) T' ow
                (class_weights_of self)) as (report & ->).
    + intros c Hc. rewrite Hcols. simpl. now apply In_unique.
    + cbn [bind]. eauto.
Qed.

Lemma out_of_fold_table_is_filled_witness :
  exists trained nn_result w',
    @LightGBMClassifier_train example_dataset_ops example_lightgbm
      example_setup three_objects None None ∅ = Return trained
    /\ @NNClassifier_train example_torch example_dataset_ops example_settings
         example_setup (example_nn_setup 0) three_objects 1 None None no_kwargs
         empty_world = Return (nn_result, w')
    /\ Forall (fun row => Forall (fun p => p <> -1) row
                          /\ length row = length (columns (lgb_train_predictions trained)))
         (rows (lgb_train_predictions trained))
    /\ Forall (fun row => Forall (fun p => p <> -1) row
                          /\ length row = length (columns (nn_train_predictions nn_result)))
         (rows (nn_train_predictions nn_result))
    /\ Permutation
         (concat (map (validation_keys three_objects [0; 1; 0]%Z) (range 2)))
         [10; 11; 12]%Z
    /\ exists object_weights,
         one_fold_per_row
           (@lgb_fit_and_predict example_lightgbm
              (@select_features example_dataset_ops three_objects tt)
              [1; 1; 2]%Z object_weights ∅)
           [0; 1; 0]%Z 2 tt (sentinel_table 3 [1; 2]%Z)
           (lgb_train_predictions trained).
Proof.
  destruct (@LightGBMClassifier_train_returns example_dataset_ops example_lightgbm
              example_setup three_objects None None ∅ 2 eq_refl
              (ex_intro _ _ eq_refl) eq_refl) as (trained & Hlgb).
  { intros c X. simpl. split; [apply length_map|].
    apply Forall_map, Forall_forall. intros x _. reflexivity. }
  destruct (@NNClassifier_train_returns example_torch example_dataset_ops
              example_settings example_setup (example_nn_setup 0) three_objects 1
              None None no_kwargs empty_world 2 eq_refl (ex_intro _ _ eq_refl)
              eq_refl eq_refl eq_refl) as (nn_result & w' & Hnn).
  { intros data fold kw w0 Hkw. simpl.
    destruct (@fit_nn_classifier_returns_initial example_torch data 1 fold 32 6 8 16
                None (Some (model_path example_settings "example" fold)) kw w0)
      as (fitted & w1 & Hfit).
    - right. rewrite Hkw. reflexivity.
    - eauto. }
  { intros params x. reflexivity. }
  exists trained, nn_result, w'.
  destruct (@out_of_fold_table_is_filled example_dataset_ops example_lightgbm
              example_torch example_settings example_setup (example_nn_setup 0)
              three_objects 1 None None ∅ no_kwargs empty_world 2 eq_refl
              ltac:(repeat constructor; discriminate) eq_refl)
    as (_ & _ & Hperm & _ & Hlgb_rows & Hnn_rows & Hlgb_once & _).
  split; [exact Hlgb|]. split; [exact Hnn|]. split.
  - apply (Hlgb_rows trained); [|exact Hlgb].
    intros c X. simpl. apply Forall_map, Forall_forall. intros x _.
    repeat constructor; lra.
  - split; [apply (Hnn_rows nn_result w' Hnn)|]. split; [exact Hperm|].
    destruct (Hlgb_once trained Hlgb) as (ow & _ & Honce).
    exists ow. exact Honce.
Defined.

(** ** Which parameters the predictions come from *)

(** The network [fit_nn_classifier] returns carries the parameters of the
    state the loop ends in. *)
Lemma fit_nn_classifier_final `{Torch}
    data batch_size max_iters fold dim depth heads dim_head logger save_model_path
    kwargs w fitted w1 :
  fit_nn_classifier data batch_size max_iters fold dim depth heads dim_head logger
    save_model_path kwargs w = Return (fitted, w1) ->
  exists s0 s,
    train_iterations data batch_size max_iters
      (option_or (kw_eval_iters kwargs) 200%nat)
      (option_or (kw_eval_interval kwargs) 200%nat)
      logger save_model_path (seq 0 max_iters) s0 = Return s
    /\ ls_best_loss s0 = PInf
    /\ parameters fitted = ls_parameters s
    /\ w1 = ls_world s.
Proof.
  unfold fit_nn_classifier.
  match goal with
  | |- context [bind ?c _] => destruct c as [cfg|e]; cbn [bind]; [|discriminate]
  end.
  destruct (init_net cfg (w_rng w)) as [params g].
  match goal with
  | |- context [train_iterations ?d ?b ?mi ?ei ?ev ?lo ?sp ?it ?s0] =>
      destruct (train_iterations d b mi ei ev lo sp it s0) as [s|e] eqn:Hloop;
      cbn [bind]; [|discriminate];
      intros [= <- <-]; exists s0, s; repeat split; solve [exact Hloop|reflexivity]
  end.
Qed.

Lemma map_classes_length (cm : gmap Z Z) (xs ys : list class_name) :
  map_classes cm xs = Return ys -> length ys = length xs.
Proof.
  revert ys. induction xs as [|c xs IH]; simpl; intros ys Hys.
  - now injection Hys as <-.
  - destruct (cm !! c); [|discriminate].
    destruct (map_classes cm xs) as [vs|]; [|discriminate].
    injection Hys as <-. simpl. f_equal. now apply IH.
Qed.

Lemma count_folds_range (folds : list Z) (n : Z) (lab : Z) :
  count_folds folds = Return n -> In lab folds -> (lab < n)%Z.
Proof.
  destruct folds as [|f folds]; [discriminate|]. intros [= <-] Hlab.
  pose proof (fold_max_ge f folds lab Hlab). lia.
Qed.

Lemma predict_fold_Return `{Torch} features c prev total w0 st' :
  predict_fold features c (prev, total, w0) = Return st' ->
  exists stored classifier w1,
    w_files w0 !! fst c = Some stored
    /\ parameters classifier = stored
    /\ training classifier = false
    /\ st' = (Some classifier,
              Some (let fold_predictions :=
                      map softmax (forward_eval stored (map (map nan_to_num) features)) in
                    match total with
                    | None => fold_predictions
                    | Some t => add_rows t fold_predictions
                    end),
              w1)
    /\ w_files w1 = w_files w0.
Proof.
  unfold predict_fold. destruct c as [path cfg]. cbn [fst].
  match goal with
  | |- context [bind ?c _] =>
      assert (Hbuilt : forall built, c = Return built -> w_files (snd built) = w_files w0)
  end.
  { intros [cl w1].
    destruct (String.eqb (model cfg) "ft" || String.eqb (model cfg) "mlp").
    - destruct (init_net cfg (w_rng w0)). intros [= <- <-]. reflexivity.
    - destruct prev; [|discriminate]. intros [= <- <-]. reflexivity. }
  match goal with
  | |- context [bind ?c _] => destruct c as [[cl w1]|e]; cbn [bind]; [|discriminate]
  end.
  specialize (Hbuilt (cl, w1) eq_refl). cbn [snd] in Hbuilt.
  rewrite Hbuilt.
  destruct (w_files w0 !! path) as [stored|]; [|discriminate].
  intros [= <-]. eexists stored, _, w1. repeat split; try reflexivity. exact Hbuilt.
Qed.

Lemma predict_fold_missing `{Torch} features c prev total w0 :
  w_files w0 !! fst c = None ->
  raises (predict_fold features c (prev, total, w0)).
Proof.
  intros Hnone.
  destruct (predict_fold features c (prev, total, w0)) as [st'|e] eqn:E;
    [|exists e; reflexivity].
  apply predict_fold_Return in E as (stored & _ & _ & Hs & _). congruence.
Qed.

(** C10. In [NNClassifier.train] the row written into the table for an
    object is the softmax of the logits that the classifier of the fold of
    the object gives in evaluation mode, the classifier being the object
    [fit_nn_classifier] returned for that fold, with the parameters of the
    state the training loop ended in; nothing is read back from the
    checkpoint file. In [NNClassifier.predict] each classifier of the
    ensemble takes its parameters from what is stored at its [model_path],
    and fails when nothing is stored there. *)
Theorem nn_out_of_fold_rows_use_final_parameters `{Torch} `{DatasetOps}
    (settings : Settings) (self : classifier_setup) (nn : nn_setup)
    (dataset : Dataset) (n_features : nat)
    (num_folds : option nat) (random_state : option Z)
    (kwargs : nn_kwargs) (w : world) (trained : nn_trained) (w' : world) :
  let features := select_features dataset (use_featurizer self) in
  let folds := label_folds dataset num_folds random_state in
  length features = length folds ->
  length folds = length (metadata dataset) ->
  NNClassifier_train settings self nn dataset n_features num_folds random_state
    kwargs w = Return (trained, w') ->
  (forall i lab x,
     nth_error folds i = Some lab -> nth_error features i = Some x -> (0 <= lab)%Z ->
     exists classifier,
       nth_error (nn_returned trained) (Z.to_nat lab) = Some classifier
       /\ nth_error (rows (nn_train_predictions trained)) i
          = Some (softmax (nth 0 (forward_eval (parameters classifier)
                                    [map nan_to_num x]) [])))
  /\ (forall classifier, In classifier (nn_returned trained) ->
        exists data fold kw w0 fitted w1 s0 s,
          fit_nn_classifier data (nn_batch_size nn) (nn_max_iters nn) fold
            (nn_dim nn) (nn_depth nn) (nn_heads nn) (nn_dim_head nn) (nn_logger nn)
            (Some (model_path settings (name self) fold)) kw w0
          = Return (fitted, w1)
          /\ parameters classifier = parameters fitted
          /\ train_iterations data (nn_batch_size nn) (nn_max_iters nn)
               (option_or (kw_eval_iters kw) 200%nat)
               (option_or (kw_eval_interval kw) 200%nat) (nn_logger nn)
               (Some (model_path settings (name self) fold))
               (seq 0 (nn_max_iters nn)) s0 = Return s
          /\ parameters fitted = ls_parameters s)
  /\ (forall features' c prev total w0 st',
        predict_fold features' c (prev, total, w0) = Return st' ->
        exists stored classifier w1,
          w_files w0 !! fst c = Some stored
          /\ parameters classifier = stored
          /\ st' = (Some classifier,
                    Some (let fold_predictions :=
                            map softmax
                              (forward_eval stored (map (map nan_to_num) features')) in
                          match total with
                          | None => fold_predictions
                          | Some t => add_rows t fold_predictions
                          end),
                    w1))
  /\ (forall features' c prev total w0,
        w_files w0 !! fst c = None ->
        raises (predict_fold features' c (prev, total, w0))).
Proof.
  intros features folds Hfeat Hlen Htrain.
  split; [|split; [|split]].
  3:{ intros features' c prev total w0 st' Hst.
      apply predict_fold_Return in Hst as (stored & cl & w1 & H1 & H2 & _ & H4 & _).
      exists stored, cl, w1. auto. }
  3:{ intros. now apply predict_fold_missing. }
  all: unfold NNClassifier_train in Htrain; fold folds features in Htrain;
    destruct (count_folds folds) as [n|e] eqn:Hn; cbn [bind] in Htrain;
      [|discriminate];
    destruct (match weighting_function self with
              | Some f => _
              | None => _
              end) as [ow|e]; cbn [bind] in Htrain; [|discriminate];
    destruct (match class_map nn with
              | Some cm => _
              | None => _
              end) as [object_classes|e] eqn:Hclasses; cbn [bind] in Htrain;
      [|discriminate];
    destruct (fold_loop _ folds (range n) w _ []) as [[[w1 T'] cs']|e] eqn:Hloop;
      cbn [bind] in Htrain; [|discriminate];
    destruct (report_logloss dataset _ T' ow _) as [report|e];
      cbn [bind] in Htrain; [|discriminate];
    injection Htrain as <- <-; cbn [nn_train_predictions nn_returned];
    assert (Hoc : length object_classes = length (metadata dataset))
      by (destruct (class_map nn) as [cm|];
          [now apply map_classes_length in Hclasses; rewrite length_map in Hclasses
          |injection Hclasses as <-; apply length_map]);
    unfold range in Hloop;
    apply (fold_loop_pointwise
             (fun m x => softmax (nth 0 (forward_eval (parameters m) [map nan_to_num x]) []))
             (fun m => exists data fold kw w0 fitted w1,
                fit_nn_classifier data (nn_batch_size nn) (nn_max_iters nn) fold
                  (nn_dim nn) (nn_depth nn) (nn_heads nn) (nn_dim_head nn)
                  (nn_logger nn) (Some (model_path settings (name self) fold)) kw w0
                = Return (fitted, w1)
                /\ parameters m = parameters fitted)
             _ features folds) in Hloop
      as (Hcs & _ & HPm & _ & Hrows);
    try (intros s f tm vm s' m V Hfit;
         apply nn_fit_and_predict_rows in Hfit
           as (-> & data & kw & w0 & fitted & Hfit & Hp & _);
         split; [exists data, f, kw, w0, fitted, s'; auto|reflexivity]);
    try exact Hfeat;
    try (rewrite sentinel_table_rows, Hoc; now symmetry);
    try reflexivity.
  - intros i lab x Hlab Hx Hpos.
    apply (Hrows i lab x Hlab Hx).
    pose proof (count_folds_range folds n lab Hn (nth_error_In _ _ Hlab)). lia.
  - intros classifier Hin. apply In_nth_error in Hin as (j & Hj).
    destruct (HPm j classifier ltac:(lia) Hj)
      as (data & fold & kw & w0 & fitted & w2 & Hfit & Hp).
    destruct (fit_nn_classifier_final _ _ _ _ _ _ _ _ _ _ _ _ _ _ Hfit)
      as (s0 & s & Hiter & _ & Hfinal & _).
    exists data, fold, kw, w0, fitted, w2, s0, s. auto.
Qed.

(** With the one-parameter network, whose validation loss grows with every
    gradient step, two iterations leave the parameter at [2] in the network
    returned while the checkpoint, written at the first evaluation and never
    improved on, holds [1]: the network returned is the last state, not the
    best one. *)
Example returned_network_is_last_not_best :
  exists classifier w',
    @fit_nn_classifier example_torch
      {| num_features := 1; train_features := [[Fin 0]]; train_classes := [1%Z];
         train_weights := [1]; validation_features := [[Fin 0]];
         validation_classes := [2%Z]; validation_weights := [1] |}
      1 2 0 32 6 8 16 None (Some "classifier.pt"%string)
      {| kw_model_type := Some "mlp"%string; kw_eval_iters := Some 1%nat;
         kw_eval_interval := None; kw_lr := None; kw_attn_dropout := None;
         kw_ff_dropout := None |}
      empty_world
    = Return (classifier, w')
    /\ @parameters example_torch classifier = 2%nat
    /\ w_files w' !! "classifier.pt"%string = Some 1%nat
    /\ w_trace w'
       = [Sampled "train"; GradientStep 0; Sampled "train"; Sampled "val";
          Evaluated 0; Checkpointed 0 "classifier.pt";
          Sampled "train"; GradientStep 1; Sampled "train"; Sampled "val";
          Evaluated 1]%string.
Proof.
  unfold fit_nn_classifier. cbn.
  repeat (real_tests; cbn).
  eexists _, _. split; [reflexivity|]. split; [reflexivity|].
  split; [apply lookup_insert_eq|reflexivity].
Qed.

Lemma nn_out_of_fold_rows_use_final_parameters_witness :
  exists trained w',
    @NNClassifier_train example_torch example_dataset_ops example_settings
      example_setup (example_nn_setup 0) three_objects 1 None None no_kwargs
      empty_world = Return (trained, w')
    /\ forall i lab x,
         nth_error [0; 1; 0]%Z i = Some lab ->
         nth_error [[Fin 0]; [Fin 0]; [Fin 0]] i = Some x -> (0 <= lab)%Z ->
         exists classifier,
           nth_error (nn_returned trained) (Z.to_nat lab) = Some classifier
           /\ nth_error (rows (nn_train_predictions trained)) i
              = Some (softmax (nth 0 (@forward_eval example_torch
                                        (parameters classifier)
                                        [map nan_to_num x]) [])).
Proof.
  destruct (@NNClassifier_train_returns example_torch example_dataset_ops
              example_settings example_setup (example_nn_setup 0) three_objects 1
              None None no_kwargs empty_world 2 eq_refl (ex_intro _ _ eq_refl)
              eq_refl eq_refl eq_refl) as (trained & w' & Hnn).
  { intros data fold kw w0 Hkw. simpl.
    destruct (@fit_nn_classifier_returns_initial example_torch data 1 fold 32 6 8 16
                None (Some (model_path example_settings "example" fold)) kw w0)
      as (fitted & w1 & Hfit).
    - right. rewrite Hkw. reflexivity.
    - eauto. }
  { intros params x. reflexivity. }
  exists trained, w'. split; [exact Hnn|].
  exact (proj1 (@nn_out_of_fold_rows_use_final_parameters example_torch
                  example_dataset_ops example_settings example_setup
                  (example_nn_setup 0) three_objects 1 None None no_kwargs
                  empty_world trained w' eq_refl eq_refl Hnn)).
Defined.

(* ================================================================== *)
(** * Further properties of the code *)

(** ** [weighted_multi_logloss]: what the metric is insensitive to *)

Lemma zip_scored_nth tc w rs o :
  In o (zip_scored tc w rs) ->
  exists i, nth_error tc i = Some (s_class o)
            /\ nth_error w i = Some (s_weight o)
            /\ nth_error rs i = Some (s_row o).
Proof.
  revert w rs. induction tc as [|c tc IH]; intros [|x w] [|r rs] Hin;
    try contradiction.
  destruct Hin as [<-|Hin].
  - exists 0%nat. now repeat split.
  - destruct (IH _ _ Hin) as (i & H1 & H2 & H3). now exists (S i).
Qed.

Lemma series_sum_zero (xs : list xfloat) :
  Forall (fun x => x = Fin 0 \/ x = NaN) xs -> series_sum xs = Fin 0.
Proof.
  induction 1 as [|x xs [-> | ->] _ IH]; [reflexivity| |exact IH].
  cbn [series_sum fold_right]. fold (series_sum xs). rewrite IH.
  cbn [xadd]. f_equal. lra.
Qed.

Lemma series_sum_nonneg (xs : list xfloat) :
  Forall (fun v => v = NaN \/ exists y, v = Fin y /\ 0 <= y) xs ->
  exists x, series_sum xs = Fin x /\ 0 <= x.
Proof.
  induction 1 as [|v xs [-> | (y & -> & Hy)] _ (x & IH & Hx)].
  - exists 0. split; [reflexivity|lra].
  - exists x. now split.
  - exists (y + x). cbn [series_sum fold_right]. fold (series_sum xs).
    rewrite IH. split; [reflexivity|lra].
Qed.

Lemma sum_nonneg_ge (l : list R) (x : R) :
  Forall (fun y => 0 <= y) l -> In x l -> x <= sum l.
Proof.
  induction 1 as [|y l Hy Hl IH]; [contradiction|].
  assert (0 <= sum l).
  { clear -Hl. induction Hl as [|z l Hz _ IH]; [unfold sum; simpl; lra|].
    change (sum (z :: l)) with (z + sum l). lra. }
  change (sum (y :: l)) with (y + sum l).
  intros [->|Hin].
  - lra.
  - specialize (IH Hin). lra.
Qed.

Lemma In_scored_class tc pred ow o :
  aligned tc pred ow -> In o (scored_objects tc pred ow) -> In (s_class o) tc.
Proof.
  intros Hal Ho. rewrite <- (scored_objects_class tc pred ow Hal).
  now apply in_map.
Qed.

Lemma In_class_scored tc pred ow c :
  aligned tc pred ow -> In c tc ->
  exists o, In o (scored_objects tc pred ow) /\ s_class o = c.
Proof.
  intros Hal Hc. rewrite <- (scored_objects_class tc pred ow Hal) in Hc.
  apply in_map_iff in Hc. destruct Hc as (o & Ho & Hin). eauto.
Qed.

(** X1. A perfect table (every object gives its true class the
    probability [1]) scores exactly [0], whatever the object weights and
    the class weights are; nothing is raised. *)
Theorem weighted_multi_logloss_perfect
    (true_classes : list class_name) (predictions : DataFrame)
    (object_weights : option (list R)) (class_weights : option (gmap Z R)) :
  aligned true_classes predictions object_weights ->
  (forall i c row,
     nth_error true_classes i = Some c ->
     nth_error (rows predictions) i = Some row ->
     exists j, index_of c (columns predictions) = Some j /\ nth j row 0 = 1) ->
  weighted_multi_logloss true_classes predictions object_weights class_weights false
  = Return (Scalar (Fin 0)).
Proof.
  intros Hal Hone.
  assert (Hp : forall o, In o (scored_objects true_classes predictions object_weights) ->
                 exists j, index_of (s_class o) (columns predictions) = Some j
                           /\ nth j (s_row o) 0 = 1).
  { intros o Ho. apply zip_scored_nth in Ho. destruct Ho as (i & H1 & _ & H3).
    eauto. }
  rewrite (weighted_multi_logloss_scored _ _ _ _ _ Hal).
  rewrite find_lacks_None.
  2:{ intros c Hc _. apply (proj1 (In_unique _ _)) in Hc.
      destruct (In_class_scored _ _ _ _ Hal Hc) as (o & Ho & <-).
      destruct (Hp o Ho) as (j & Hj & _).
      destruct (index_of_None (s_class o) (columns predictions)) as [_ Hno].
      destruct (in_dec Z.eq_dec (s_class o) (columns predictions)) as [|Hn];
        [assumption|].
      rewrite (Hno Hn) in Hj. discriminate. }
  cbv zeta. do 2 f_equal. apply series_sum_zero.
  apply Forall_forall. intros x Hx. apply in_map_iff in Hx.
  destruct Hx as (o & <- & Ho). destruct (Hp o Ho) as (j & Hj & H1).
  unfold object_logloss, true_class_probability. rewrite Hj, H1.
  destruct (Req_dec_T (get_class_weight class_weights (s_class o)) 0).
  - apply xdiv_zero.
  - unfold floor_zero. destruct (Req_dec_T 1 0); [lra|].
    unfold np_log. destruct (Rlt_dec 0 1); [|lra]. rewrite ln_1.
    cbn [xmul]. rewrite Rmult_0_r.
    destruct (xdiv_zero (class_total_weight
                (scored_objects true_classes predictions object_weights) (s_class o)))
      as [-> | ->].
    + apply xdiv_zero.
    + right. reflexivity.
Qed.

Lemma weighted_multi_logloss_perfect_witness :
  weighted_multi_logloss [1; 2; 1]%Z
    {| columns := [1; 2]%Z; rows := [[1; 0]; [0; 1]; [1; 0]] |}
    (Some [3; 0; 5]) (Some {[ 2%Z := 7 ]}) false
  = Return (Scalar (Fin 0)).
Proof.
  apply weighted_multi_logloss_perfect.
  - split; reflexivity.
  - intros [|[|[|i]]] c row Hc Hrow; simpl in Hc, Hrow;
      try (destruct i; discriminate);
      injection Hc as <-; injection Hrow as <-.
    + exists 0%nat. split; reflexivity.
    + exists 1%nat. split; reflexivity.
    + exists 0%nat. split; reflexivity.
Defined.

Lemma true_class_probability_le_1 cols o :
  Forall (fun p => 0 <= p <= 1) (s_row o) -> true_class_probability cols o <= 1.
Proof.
  intros Hrow. unfold true_class_probability.
  destruct (index_of (s_class o) cols) as [j|]; [|lra].
  destruct (nth_in_or_default j (s_row o) 0) as [Hin| ->]; [|lra].
  rewrite Forall_forall in Hrow. now apply Hrow.
Qed.

Lemma floor_zero_le_1 p : p <= 1 -> floor_zero p <= 1.
Proof.
  intros Hp. unfold floor_zero. destruct (Req_dec_T p 0); [|assumption].
  assert (1 < 10 ^ 10) by (simpl; lra).
  apply Rlt_le. rewrite <- Rinv_1. apply Rinv_lt_contravar; lra.
Qed.

(** X2. With probabilities in [[0, 1]], non-negative object weights and
    class weights, and a positive weight sum in every class that counts,
    [weighted_multi_logloss] returns a finite value that is not negative. *)
Theorem weighted_multi_logloss_nonnegative
    (true_classes : list class_name) (predictions : DataFrame)
    (object_weights : option (list R)) (class_weights : option (gmap Z R)) :
  aligned true_classes predictions object_weights ->
  (forall c, In c true_classes -> 0 <= get_class_weight class_weights c) ->
  (forall c, In c true_classes -> get_class_weight class_weights c <> 0 ->
     In c (columns predictions)
     /\ 0 < sum (class_object_weights true_classes object_weights c)) ->
  match object_weights with
  | Some w => Forall (fun x => 0 <= x) w
  | None => True
  end ->
  Forall (Forall (fun p => 0 <= p <= 1)) (rows predictions) ->
  exists x,
    weighted_multi_logloss true_classes predictions object_weights class_weights false
    = Return (Scalar (Fin x))
    /\ 0 <= x.
Proof.
  intros Hal Hcw Hcl How Hrows.
  rewrite (weighted_multi_logloss_scored _ _ _ _ _ Hal).
  rewrite find_lacks_None.
  2:{ intros c Hc Hnz. apply (proj1 (In_unique _ _)) in Hc. now apply Hcl. }
  cbv zeta.
  set (objs := scored_objects true_classes predictions object_weights).
  set (n := spec_normalizer true_classes class_weights).
  destruct (series_sum_nonneg
              (map (fun o => xdiv (object_logloss (columns predictions) class_weights objs o)
                                  (Fin n)) objs)) as (x & Hx & Hx0).
  2:{ exists x. now rewrite Hx. }
  apply Forall_forall. intros v Hv. apply in_map_iff in Hv.
  destruct Hv as (o & <- & Ho).
  pose proof (In_scored_class _ _ _ _ Hal Ho) as Hc.
  destruct (Req_dec_T (get_class_weight class_weights (s_class o)) 0) as [Hz|Hnz].
  - unfold object_logloss. destruct (Req_dec_T _ 0); [|contradiction].
    destruct (xdiv_zero n) as [-> | ->]; [right; exists 0; split; [reflexivity|lra]|now left].
  - right. destruct (Hcl _ Hc Hnz) as [_ Hsum].
    rewrite (class_object_weights_scored _ _ _ _ Hal) in Hsum. fold objs in Hsum.
    assert (Hn : 0 < n).
    { apply Rlt_le_trans with (get_class_weight class_weights (s_class o)).
      - specialize (Hcw _ Hc). lra.
      - unfold n, spec_normalizer. apply sum_nonneg_ge.
        + apply Forall_forall. intros y Hy. apply in_map_iff in Hy.
          destruct Hy as (c & <- & Hin). apply filter_In in Hin.
          apply Hcw. apply (proj1 (In_unique _ _)). tauto.
        + apply in_map. apply filter_In. split; [now apply (proj2 (In_unique _ _))|].
          unfold nonzero_weight. now destruct (Req_dec_T _ 0). }
    assert (Hrow : Forall (fun p => 0 <= p <= 1) (s_row o)).
    { rewrite Forall_forall in Hrows. apply Hrows.
      rewrite <- (scored_objects_row _ _ _ Hal). now apply in_map. }
    assert (Hrow0 : Forall (fun p => 0 <= p) (s_row o)).
    { eapply Forall_impl; [|exact Hrow]. intros p Hp. apply Hp. }
    rewrite object_logloss_finite; [|lra|fold objs; intros _; unfold class_total_weight; lra|exact Hrow0].
    eexists. split; [reflexivity|].
    unfold nonzero_weight. destruct (Req_dec_T _ 0); [contradiction|].
    unfold spec_contribution. fold objs.
    pose proof (floor_zero_pos _ (true_class_probability_nonneg (columns predictions) o Hrow0)) as Hp0.
    pose proof (floor_zero_le_1 _ (true_class_probability_le_1 (columns predictions) o Hrow)) as Hp1.
    set (p := floor_zero (true_class_probability (columns predictions) o)) in *.
    assert (Hln : ln p <= 0).
    { destruct (Req_dec_T p 1) as [-> |Hne]; [rewrite ln_1; lra|].
      rewrite <- ln_1. apply Rlt_le, ln_increasing; lra. }
    assert (Hw : 0 <= s_weight o).
    { assert (Hin : In (s_weight o) (map s_weight objs)) by now apply in_map.
      unfold objs in Hin. rewrite (scored_objects_weight _ _ _ Hal) in Hin.
      destruct object_weights as [w|].
      - rewrite Forall_forall in How. now apply How.
      - apply repeat_spec in Hin. lra. }
    specialize (Hcw _ Hc).
    unfold class_total_weight in *.
    set (t_sum := sum _) in *.
    apply Rmult_le_pos; [|apply Rlt_le, Rinv_0_lt_compat; assumption].
    apply Rmult_le_pos; [|apply Rlt_le, Rinv_0_lt_compat; assumption].
    assert (0 <= get_class_weight class_weights (s_class o) * s_weight o)
      by now apply Rmult_le_pos.
    nra.
Qed.

Lemma weighted_multi_logloss_nonnegative_witness :
  exists x,
    weighted_multi_logloss [1; 2; 1]%Z
      {| columns := [1; 2]%Z; rows := [[1 / 2; 1 / 2]; [0; 1]; [1; 0]] |}
      (Some [3; 1; 5]) None false
    = Return (Scalar (Fin x))
    /\ 0 <= x.
Proof.
  apply weighted_multi_logloss_nonnegative.
  - split; reflexivity.
  - intros c _. simpl. lra.
  - intros c Hc _. simpl in Hc. destruct Hc as [<-|[<-|[<-|[]]]]; simpl; split;
      try tauto; lra.
  - repeat constructor; lra.
  - repeat constructor; lra.
Defined.

Lemma logloss_loop_ext tc pred ow ow' cw pred' classes st :
  (forall c st, In c classes ->
     logloss_class tc pred ow cw st c = logloss_class tc pred' ow' cw st c) ->
  logloss_loop tc pred ow cw classes st = logloss_loop tc pred' ow' cw classes st.
Proof.
  revert st. induction classes as [|c classes IH]; intros st Hc; [reflexivity|].
  cbn [logloss_loop]. rewrite Hc by now left.
  destruct (logloss_class tc pred' ow' cw st c) as [st'|e]; [|reflexivity].
  cbn [bind]. apply IH. intros c' st'' Hin. apply Hc. now right.
Qed.

Lemma weighted_multi_logloss_ext tc pred ow ow' cw pred' flag :
  (forall c st, In c tc ->
     logloss_class tc pred ow cw st c = logloss_class tc pred' ow' cw st c) ->
  weighted_multi_logloss tc pred ow cw flag
  = weighted_multi_logloss tc pred' ow' cw flag.
Proof.
  intros Hc. unfold weighted_multi_logloss.
  rewrite (logloss_loop_ext tc pred ow ow' cw pred'); [reflexivity|].
  intros c st Hin. apply Hc. now apply (proj1 (In_unique _ _)).
Qed.

Lemma mask_select_repeat {A : Type} (v : A) (mask : list bool) :
  mask_select mask (repeat v (length mask)) = repeat v (count_true mask).
Proof.
  induction mask as [|[|] mask IH]; [reflexivity| |exact IH].
  cbn [length repeat mask_select]. unfold count_true. cbn [filter length repeat].
  f_equal. exact IH.
Qed.

(** X3. Leaving [object_weights] out is the same as giving every object
    the weight [1]: the two calls return the same value or raise the same
    exception. *)
Theorem weighted_multi_logloss_default_object_weights
    (true_classes : list class_name) (predictions : DataFrame)
    (class_weights : option (gmap Z R)) (return_object_contributions : bool) :
  weighted_multi_logloss true_classes predictions None class_weights
    return_object_contributions
  = weighted_multi_logloss true_classes predictions
      (Some (repeat 1 (length true_classes))) class_weights
      return_object_contributions.
Proof.
  apply weighted_multi_logloss_ext. intros c st _.
  assert (Hw : class_object_weights true_classes None c
               = class_object_weights true_classes
                   (Some (repeat 1 (length true_classes))) c).
  { unfold class_object_weights.
    rewrite <- (eq_mask_length true_classes c) at 1.
    now rewrite mask_select_repeat. }
  unfold logloss_class. now rewrite Hw.
Qed.

Lemma mask_select_scale (k : class_name -> R) (tc : list class_name) (w : list R)
    (c : class_name) :
  mask_select (eq_mask tc c) (scale_by_class k tc w)
  = map (fun x => k c * x) (mask_select (eq_mask tc c) w).
Proof.
  revert w. induction tc as [|c' tc IH]; intros [|x w]; try reflexivity.
  cbn [eq_mask map scale_by_class zip_with mask_select].
  fold (eq_mask tc c). fold (scale_by_class k tc w).
  destruct (Z.eqb_spec c' c) as [->|]; cbn [map]; now rewrite IH.
Qed.

Lemma sum_scale (k : R) (l : list R) : sum (map (fun x => k * x) l) = k * sum l.
Proof.
  induction l as [|x l IH]; [unfold sum; simpl; lra|].
  cbn [map]. change (sum (k * x :: map (fun x => k * x) l))
    with (k * x + sum (map (fun x => k * x) l)).
  change (sum (x :: l)) with (x + sum l). rewrite IH. lra.
Qed.

Lemma inf_of_sign_scale (k a : R) : 0 < k -> inf_of_sign (k * a) = inf_of_sign a.
Proof.
  intros Hk. unfold inf_of_sign.
  destruct (total_order_T (k * a) 0) as [[H1|H1]|H1],
           (total_order_T a 0) as [[H2|H2]|H2];
    try reflexivity; exfalso; nra.
Qed.

Lemma xdiv_scale (x : xfloat) (k s : R) :
  0 < k -> (forall a, x <> Fin a) -> xdiv x (Fin (k * s)) = xdiv x (Fin s).
Proof.
  intros Hk Hx. destruct x as [a| | |]; [now destruct (Hx a)| | |reflexivity];
    cbn [xdiv]; destruct (Rlt_dec (k * s) 0), (Rlt_dec s 0);
    try reflexivity; exfalso; nra.
Qed.

Lemma inf_of_sign_not_Fin (a b : R) : inf_of_sign a <> Fin b.
Proof.
  unfold inf_of_sign. destruct (total_order_T a 0) as [[|]|]; discriminate.
Qed.

(** The term of an object does not change when its weight and the sum of
    the weights of its class are multiplied by the same positive factor. *)
Lemma logloss_term_scale (k cw w s : R) (l : xfloat) :
  0 < k ->
  xdiv (xmul (Fin (- cw * (k * w))) l) (Fin (k * s))
  = xdiv (xmul (Fin (- cw * w)) l) (Fin s).
Proof.
  intros Hk. replace (- cw * (k * w)) with (k * (- cw * w)) by ring.
  destruct l as [b| | |]; cbn [xmul].
  - cbn [xdiv]. destruct (Req_dec_T (k * s) 0) as [H1|H1], (Req_dec_T s 0) as [H2|H2].
    + rewrite Rmult_assoc. now apply inf_of_sign_scale.
    + exfalso. nra.
    + exfalso. subst s. apply H1. ring.
    + f_equal. field. lra.
  - rewrite inf_of_sign_scale by assumption.
    apply xdiv_scale; [assumption|intros a; apply inf_of_sign_not_Fin].
  - replace (- (k * (- cw * w))) with (k * - (- cw * w)) by ring.
    rewrite inf_of_sign_scale by assumption.
    apply xdiv_scale; [assumption|intros a; apply inf_of_sign_not_Fin].
  - reflexivity.
Qed.

Lemma zip_with_map_l {A A' B C : Type} (f : A' -> B -> C) (g : A -> A')
    (xs : list A) (ys : list B) :
  zip_with f (map g xs) ys = zip_with (fun x y => f (g x) y) xs ys.
Proof.
  revert ys. induction xs as [|x xs IH]; intros [|y ys]; try reflexivity.
  cbn [map zip_with]. now rewrite IH.
Qed.

Lemma zip_with_ext {A B C : Type} (f g : A -> B -> C) (xs : list A) (ys : list B) :
  (forall x y, f x y = g x y) -> zip_with f xs ys = zip_with g xs ys.
Proof.
  intros Hfg. revert ys. induction xs as [|x xs IH]; intros [|y ys]; try reflexivity.
  cbn [zip_with]. now rewrite Hfg, IH.
Qed.

(** X4. The metric does not see the scale of the object weights of a
    class: multiplying the weights of the objects of each class by a
    positive factor, which may differ from class to class, leaves the
    result of [weighted_multi_logloss] as it is. *)
Theorem weighted_multi_logloss_object_weight_scale
    (k : class_name -> R)
    (true_classes : list class_name) (predictions : DataFrame)
    (object_weights : list R) (class_weights : option (gmap Z R))
    (return_object_contributions : bool) :
  (forall c, In c true_classes -> 0 < k c) ->
  weighted_multi_logloss true_classes predictions
    (Some (scale_by_class k true_classes object_weights)) class_weights
    return_object_contributions
  = weighted_multi_logloss true_classes predictions (Some object_weights)
      class_weights return_object_contributions.
Proof.
  intros Hk. apply weighted_multi_logloss_ext. intros c [losses s] Hc.
  unfold logloss_class, class_object_weights.
  rewrite mask_select_scale, sum_scale.
  destruct (Req_dec_T (get_class_weight class_weights c) 0); [reflexivity|].
  destruct (column predictions c) as [col|]; [|reflexivity].
  rewrite zip_with_map_l.
  do 3 f_equal. apply zip_with_ext. intros w p.
  apply logloss_term_scale. now apply Hk.
Qed.

Lemma weighted_multi_logloss_object_weight_scale_witness :
  weighted_multi_logloss [1; 2; 1]%Z
    {| columns := [1; 2]%Z; rows := [[1 / 2; 1 / 2]; [0; 1]; [1; 0]] |}
    (Some (scale_by_class (fun c => if (c =? 1)%Z then 10 else 1 / 3)
             [1; 2; 1]%Z [3; 1; 5]))
    None true
  = weighted_multi_logloss [1; 2; 1]%Z
      {| columns := [1; 2]%Z; rows := [[1 / 2; 1 / 2]; [0; 1]; [1; 0]] |}
      (Some [3; 1; 5]) None true.
Proof.
  apply weighted_multi_logloss_object_weight_scale.
  intros c Hc. simpl in Hc. destruct Hc as [<-|[<-|[<-|[]]]]; simpl; lra.
Defined.

Lemma floor_zero_idempotent (p : R) : floor_zero (floor_zero p) = floor_zero p.
Proof.
  unfold floor_zero. destruct (Req_dec_T p 0) as [Hp|Hp].
  - destruct (Req_dec_T (/ 10 ^ 10) 0) as [H0|]; [|reflexivity].
    exfalso. assert (0 < / 10 ^ 10) by (apply Rinv_0_lt_compat; simpl; lra). lra.
  - destruct (Req_dec_T p 0); [contradiction|reflexivity].
Qed.

Lemma floor_zero_nth_floor (j : nat) (row : list R) :
  floor_zero (nth j (map floor_zero row) 0) = floor_zero (nth j row 0).
Proof.
  revert j. induction row as [|p row IH]; intros [|j]; try reflexivity.
  - cbn [map nth]. apply floor_zero_idempotent.
  - cbn [map nth]. apply IH.
Qed.

(** X5. A predicted probability of exactly [0] is scored as the probability
    [1e-10]: replacing every zero of the table by [1e-10] beforehand changes
    neither the value returned nor the exception raised. *)
Theorem weighted_multi_logloss_zero_probability
    (true_classes : list class_name) (predictions : DataFrame)
    (object_weights : option (list R)) (class_weights : option (gmap Z R))
    (return_object_contributions : bool) :
  weighted_multi_logloss true_classes (floor_table predictions) object_weights
    class_weights return_object_contributions
  = weighted_multi_logloss true_classes predictions object_weights
      class_weights return_object_contributions.
Proof.
  apply weighted_multi_logloss_ext. intros c [losses s] _.
  unfold logloss_class, column, floor_table. cbn [columns rows].
  destruct (Req_dec_T (get_class_weight class_weights c) 0); [reflexivity|].
  destruct (index_of c (columns predictions)) as [j|]; [|reflexivity].
  do 3 f_equal. rewrite !mask_select_map, !map_map. f_equal.
  apply map_ext. intros row. apply floor_zero_nth_floor.
Qed.

(** ** [weighted_multi_logloss]: only the ratios of the class weights count *)

Lemma get_class_weight_scale (k : R) (m : gmap Z R) (c : class_name) :
  is_Some (m !! c) ->
  get_class_weight (Some (Rmult k <$> m)) c = k * get_class_weight (Some m) c.
Proof.
  intros [x Hx]. unfold get_class_weight. now rewrite lookup_fmap, Hx.
Qed.

Lemma nonzero_weight_scale (k : R) (m : gmap Z R) (c : class_name) :
  0 < k -> is_Some (m !! c) ->
  nonzero_weight (Some (Rmult k <$> m)) c = nonzero_weight (Some m) c.
Proof.
  intros Hk Hc. unfold nonzero_weight. rewrite get_class_weight_scale by assumption.
  destruct (Req_dec_T (k * _) 0), (Req_dec_T (get_class_weight (Some m) c) 0);
    try reflexivity; exfalso; nra.
Qed.

Lemma find_ext_in {A : Type} (p q : A -> bool) (l : list A) :
  (forall x, In x l -> p x = q x) -> find p l = find q l.
Proof.
  induction l as [|x l IH]; intros H; [reflexivity|].
  cbn [find]. rewrite (H x) by now left.
  destruct (q x); [reflexivity|]. apply IH. intros y Hy. apply H. now right.
Qed.

Lemma normalizer_scale (k : R) (m : gmap Z R) (classes : list class_name) :
  0 < k -> (forall c, In c classes -> is_Some (m !! c)) ->
  sum (map (get_class_weight (Some (Rmult k <$> m)))
         (filter (nonzero_weight (Some (Rmult k <$> m))) classes))
  = k * sum (map (get_class_weight (Some m))
               (filter (nonzero_weight (Some m)) classes)).
Proof.
  intros Hk. induction classes as [|c classes IH]; intros Hl.
  - unfold sum. simpl. lra.
  - cbn [filter]. rewrite nonzero_weight_scale by (try assumption; apply Hl; now left).
    specialize (IH (fun c' H => Hl c' (or_intror H))).
    destruct (nonzero_weight (Some m) c); [|exact IH].
    cbn [map].
    change (sum (?x :: ?l)) with (x + sum l).
    rewrite IH, get_class_weight_scale by (apply Hl; now left).
    change (sum (?x :: ?l)) with (x + sum l). lra.
Qed.

Lemma xdiv_not_Fin (x : xfloat) (s : R) :
  (forall a, x <> Fin a) -> forall b, xdiv x (Fin s) <> Fin b.
Proof.
  intros Hx b. destruct x as [a| | |]; [now destruct (Hx a)| | |discriminate];
    cbn [xdiv]; destruct (Rlt_dec s 0); discriminate.
Qed.

Lemma xdiv_zero_scale (k n : R) :
  0 < k -> xdiv (Fin 0) (Fin (k * n)) = xdiv (Fin 0) (Fin n).
Proof.
  intros Hk. cbn [xdiv].
  destruct (Req_dec_T (k * n) 0) as [H1|H1], (Req_dec_T n 0) as [H2|H2].
  - reflexivity.
  - exfalso. nra.
  - exfalso. subst n. apply H1. ring.
  - f_equal. field. split; lra.
Qed.

(** The term of an object, once divided by the sum of the class weights,
    does not change when every class weight is multiplied by the same
    positive factor. *)
Lemma logloss_term_class_scale (k cw w s n : R) (l : xfloat) :
  0 < k ->
  xdiv (xdiv (xmul (Fin (- (k * cw) * w)) l) (Fin s)) (Fin (k * n))
  = xdiv (xdiv (xmul (Fin (- cw * w)) l) (Fin s)) (Fin n).
Proof.
  intros Hk. replace (- (k * cw) * w) with (k * (- cw * w)) by ring.
  set (a := - cw * w).
  destruct l as [b| | |]; cbn [xmul].
  - cbn [xdiv]. destruct (Req_dec_T s 0) as [Hs|Hs].
    + rewrite Rmult_assoc, inf_of_sign_scale by assumption.
      apply xdiv_scale; [assumption|intros x; apply inf_of_sign_not_Fin].
    + cbn [xdiv].
      destruct (Req_dec_T (k * n) 0) as [H1|H1], (Req_dec_T n 0) as [H2|H2].
      * replace (k * a * b / s) with (k * (a * b / s)) by (field; assumption).
        now apply inf_of_sign_scale.
      * exfalso. nra.
      * exfalso. subst n. apply H1. ring.
      * f_equal. field. repeat split; lra.
  - rewrite inf_of_sign_scale by assumption.
    apply xdiv_scale; [assumption|].
    apply xdiv_not_Fin. intros x. apply inf_of_sign_not_Fin.
  - replace (- (k * a)) with (k * - a) by ring.
    rewrite inf_of_sign_scale by assumption.
    apply xdiv_scale; [assumption|].
    apply xdiv_not_Fin. intros x. apply inf_of_sign_not_Fin.
  - reflexivity.
Qed.

(** X6. Only the ratios of the class weights count: when the mapping lists
    every class that is present, multiplying all its multipliers by the
    same positive factor leaves the result of [weighted_multi_logloss] as
    it is, because the total is divided by the sum of the class weights. *)
Theorem weighted_multi_logloss_class_weight_scale
    (k : R) (true_classes : list class_name) (predictions : DataFrame)
    (object_weights : option (list R)) (class_weights : gmap Z R)
    (return_object_contributions : bool) :
  aligned true_classes predictions object_weights ->
  0 < k ->
  (forall c, In c true_classes -> is_Some (class_weights !! c)) ->
  weighted_multi_logloss true_classes predictions object_weights
    (Some (Rmult k <$> class_weights)) return_object_contributions
  = weighted_multi_logloss true_classes predictions object_weights
      (Some class_weights) return_object_contributions.
Proof.
  intros Hal Hk Hl.
  rewrite !(weighted_multi_logloss_scored _ _ _ _ _ Hal).
  assert (Hu : forall c, In c (unique true_classes) -> is_Some (class_weights !! c)).
  { intros c Hc. apply Hl. now apply (proj1 (In_unique _ _)). }
  rewrite (find_ext_in (lacks_predictions (Some (Rmult k <$> class_weights)) predictions)
             (lacks_predictions (Some class_weights) predictions)).
  2:{ intros c Hc. unfold lacks_predictions.
      now rewrite nonzero_weight_scale by auto. }
  destruct (find (lacks_predictions (Some class_weights) predictions)
              (unique true_classes)); [reflexivity|].
  cbv zeta.
  assert (Hxs : forall xs ys : list xfloat, xs = ys ->
            Return (if return_object_contributions then Contributions xs
                    else Scalar (series_sum xs))
            = Return (if return_object_contributions then Contributions ys
                      else Scalar (series_sum ys))).
  { now intros xs ys ->. }
  apply Hxs. apply map_ext_in. intros o Ho.
  unfold spec_normalizer. rewrite normalizer_scale by assumption.
  pose proof (Hl _ (In_scored_class _ _ _ _ Hal Ho)) as Hc.
  unfold object_logloss. rewrite get_class_weight_scale by assumption.
  destruct (Req_dec_T (k * get_class_weight (Some class_weights) (s_class o)) 0) as [H1|H1],
           (Req_dec_T (get_class_weight (Some class_weights) (s_class o)) 0) as [H2|H2].
  - now apply xdiv_zero_scale.
  - exfalso. nra.
  - exfalso. apply H1. rewrite H2. ring.
  - now apply logloss_term_class_scale.
Qed.

Lemma weighted_multi_logloss_class_weight_scale_witness :
  weighted_multi_logloss [1; 2; 1]%Z
    {| columns := [1; 2]%Z; rows := [[1 / 2; 1 / 2]; [0; 1]; [1; 0]] |}
    None (Some (Rmult 5 <$> ({[ 1%Z := 2; 2%Z := 3 ]} : gmap Z R))) false
  = weighted_multi_logloss [1; 2; 1]%Z
      {| columns := [1; 2]%Z; rows := [[1 / 2; 1 / 2]; [0; 1]; [1; 0]] |}
      None (Some {[ 1%Z := 2; 2%Z := 3 ]}) false.
Proof.
  apply weighted_multi_logloss_class_weight_scale.
  - split; reflexivity.
  - lra.
  - intros c Hc. simpl in Hc. destruct Hc as [<-|[<-|[<-|[]]]];
      simplify_map_eq; eauto.
Defined.

(** ** [evaluate_weights_flat]: the weight of each object *)

Lemma In_value_counts (xs : list class_name) (c : class_name) :
  In c xs -> In (c, count_true (eq_mask xs c)) (value_counts xs).
Proof.
  intros Hc. unfold value_counts.
  apply in_map_iff. exists c. split; [reflexivity|].
  now apply (proj2 (In_unique _ _)).
Qed.

(** The weights of [evaluate_weights_flat], object by object. *)
Lemma evaluate_weights_flat_values
    (dataset : Dataset) (class_weights : option (gmap Z R)) :
  (forall c, In c (map class (metadata dataset)) -> listed class_weights c) ->
  evaluate_weights_flat dataset class_weights
  = Return
      {| index := map object_id (metadata dataset);
         values :=
           map (fun o =>
                  get_class_weight class_weights (class o)
                  * INR (length (metadata dataset))
                  / INR (count_true (eq_mask (map class (metadata dataset)) (class o))))
             (metadata dataset) |}.
Proof.
  intros Hl. unfold evaluate_weights_flat.
  set (xs := map class (metadata dataset)).
  destruct (flat_loop_lookup class_weights (length xs) (value_counts xs) ∅)
    as (m & Hm & Hlook & _).
  { rewrite value_counts_keys. apply unique_NoDup. }
  { intros e He. apply Hl. fold xs.
    apply (proj1 (In_unique _ _)). rewrite <- value_counts_keys. now apply in_map. }
  rewrite Hm. cbn [bind]. do 2 f_equal.
  unfold series_map, xs at 1. rewrite map_map. apply map_ext_in. intros o Ho.
  rewrite (Hlook (class o) (count_true (eq_mask xs (class o)))).
  - unfold xs. now rewrite length_map.
  - apply In_value_counts. unfold xs. now apply in_map.
Qed.

(** X7. [evaluate_weights_flat] gives every object the weight
    [multiplier * N / count], with [N] the number of objects and [count]
    the number of objects of its class: objects of one class weigh the
    same, and the weights are positive when the multipliers are. *)
Theorem evaluate_weights_flat_object_weight
    (dataset : Dataset) (class_weights : option (gmap Z R)) :
  (forall c, In c (map class (metadata dataset)) -> listed class_weights c) ->
  exists weights,
    evaluate_weights_flat dataset class_weights = Return weights
    /\ values weights
       = map (fun o =>
                get_class_weight class_weights (class o)
                * INR (length (metadata dataset))
                / INR (count_true (eq_mask (map class (metadata dataset)) (class o))))
           (metadata dataset)
    /\ ((forall c, In c (map class (metadata dataset)) ->
           0 < get_class_weight class_weights c) ->
        Forall (fun w => 0 < w) (values weights)).
Proof.
  intros Hl. rewrite (evaluate_weights_flat_values dataset class_weights Hl).
  eexists. split; [reflexivity|]. cbn [values]. split; [reflexivity|].
  intros Hpos. set (xs := map class (metadata dataset)) in *.
  apply Forall_forall. intros w Hw. apply in_map_iff in Hw.
  destruct Hw as (o & <- & Ho).
  assert (Hin : In (class o) xs) by (unfold xs; now apply in_map).
  pose proof (count_true_pos xs (class o) Hin) as Hcount.
  assert (Hn : (0 < length (metadata dataset))%nat).
  { destruct (metadata dataset); [contradiction|simpl; lia]. }
  apply lt_0_INR in Hcount. apply lt_0_INR in Hn.
  specialize (Hpos _ Hin).
  apply Rmult_lt_0_compat; [|now apply Rinv_0_lt_compat].
  now apply Rmult_lt_0_compat.
Qed.

Lemma evaluate_weights_flat_object_weight_witness :
  exists weights,
    evaluate_weights_flat three_objects (Some {[ 1%Z := 2; 2%Z := 3 ]})
    = Return weights
    /\ values weights
       = map (fun o =>
                get_class_weight (Some {[ 1%Z := 2; 2%Z := 3 ]}) (class o) * INR 3
                / INR (count_true (eq_mask [1; 1; 2]%Z (class o))))
           (metadata three_objects).
Proof.
  destruct (evaluate_weights_flat_object_weight three_objects
              (Some {[ 1%Z := 2; 2%Z := 3 ]})) as (weights & Hw & Hv & _).
  - intros c Hc. simpl in Hc. destruct Hc as [<-|[<-|[<-|[]]]];
      simpl; simplify_map_eq; eauto.
  - exists weights. split; [exact Hw|exact Hv].
Defined.

(** ** [evaluate_weights_redshift]: the edges and the bins at the ends *)

Lemma nth_inner_edge (lo hi : R) (n k : nat) :
  (1 <= k < S n)%nat ->
  nth (k + 1) (make_redshift_bins lo hi (S n)) 0
  = Rpower 10 (np_log10 lo + INR k * ((np_log10 hi - np_log10 lo) / INR (S n))).
Proof.
  intros Hk. rewrite make_redshift_bins_shape.
  replace (k + 1)%nat with (S (S (k - 1))) by lia. cbn [nth].
  rewrite app_nth1 by (rewrite length_map, length_seq; lia).
  set (f := fun i => Rpower 10 (np_log10 lo
                       + INR i * ((np_log10 hi - np_log10 lo) / INR (S n)))).
  rewrite (nth_indep _ 0 (f 0%nat)) by (rewrite length_map, length_seq; lia).
  rewrite (map_nth f), seq_nth by lia. unfold f.
  replace (1 + (k - 1))%nat with k by lia. reflexivity.
Qed.

(** X8. For [1e-99 <= min_redshift < max_redshift <= 1e99] and at least one
    bin, the array of edges has [num_bins + 2] entries in strictly
    increasing order, which is what [np.searchsorted] needs: [-1e99],
    [1e-99], the inner logarithmic edges
    [min * (max / min) ** (k / num_bins)], and [1e99]. *)
Theorem redshift_bins_strictly_increasing (lo hi : R) (n : nat) :
  / 10 ^ 99 <= lo -> lo < hi -> hi <= 10 ^ 99 ->
  let redshift_bins := make_redshift_bins lo hi (S n) in
  length redshift_bins = (S n + 2)%nat
  /\ StronglySorted Rlt redshift_bins
  /\ nth 0 redshift_bins 0 = - 10 ^ 99
  /\ nth 1 redshift_bins 0 = / 10 ^ 99
  /\ nth (S n + 1) redshift_bins 0 = 10 ^ 99
  /\ forall k, (1 <= k < S n)%nat ->
       nth (k + 1) redshift_bins 0
       = Rpower 10 (np_log10 lo + INR k * ((np_log10 hi - np_log10 lo) / INR (S n))).
Proof.
  intros Hlo Hlt Hhi redshift_bins. unfold redshift_bins.
  split; [rewrite make_redshift_bins_length; lia|].
  split; [now apply make_redshift_bins_sorted|].
  split; [now rewrite make_redshift_bins_shape|].
  split; [now rewrite make_redshift_bins_shape|].
  split; [|intros k Hk; now apply nth_inner_edge].
  rewrite make_redshift_bins_shape.
  replace (S n + 1)%nat with (S (S n)) by lia. cbn [nth].
  rewrite app_nth2 by (rewrite length_map, length_seq; lia).
  rewrite length_map, length_seq, Nat.sub_diag. reflexivity.
Qed.

Lemma redshift_bins_strictly_increasing_witness :
  let redshift_bins := make_redshift_bins (1 / 10) 10 2 in
  length redshift_bins = 4%nat
  /\ StronglySorted Rlt redshift_bins
  /\ nth 0 redshift_bins 0 = - 10 ^ 99
  /\ nth 1 redshift_bins 0 = / 10 ^ 99
  /\ nth 3 redshift_bins 0 = 10 ^ 99.
Proof.
  assert (H99 : 1 < 10 ^ 99) by (apply Rlt_pow_R1; [lra|lia]).
  assert (Hinv : / 10 ^ 99 < 1).
  { rewrite <- Rinv_1. apply Rinv_lt_contravar; lra. }
  destruct (redshift_bins_strictly_increasing (1 / 10) 10 1)
    as (H1 & H2 & H3 & H4 & H5 & _); try lra.
  repeat split; assumption.
Defined.

Lemma Rinv_pow99_pos : 0 < / 10 ^ 99.
Proof. apply Rinv_0_lt_compat, pow_lt. lra. Qed.

(** X9. The galactic bin. With the edges in increasing order, a finite
    redshift falls in bin [0] exactly when it lies in [(-1e99, 1e-99]]; a
    redshift of exactly [0] does. *)
Theorem galactic_bin_redshifts (lo hi : R) (n : nat) (z : R) :
  / 10 ^ 99 <= lo -> lo < hi -> hi <= 10 ^ 99 ->
  let redshift_bins := make_redshift_bins lo hi (S n) in
  (redshift_index redshift_bins (Fin z) = 0%Z <-> - 10 ^ 99 < z <= / 10 ^ 99)
  /\ np_index (length redshift_bins - 1) (redshift_index redshift_bins (Fin 0))
     = Return 0%nat.
Proof.
  intros _ _ _ redshift_bins. unfold redshift_bins.
  pose proof Rinv_pow99_pos as Hpos.
  assert (Hneg : - 10 ^ 99 < 0).
  { assert (0 < 10 ^ 99) by (apply pow_lt; lra). lra. }
  split.
  - rewrite make_redshift_bins_shape. unfold redshift_index.
    cbn [searchsorted sorts_before].
    destruct (Rlt_dec (- 10 ^ 99) z) as [H1|H1].
    + destruct (Rlt_dec (/ 10 ^ 99) z) as [H2|H2].
      * split; [lia|lra].
      * split; [lra|reflexivity].
    + split; [cbn; lia|lra].
  - rewrite make_redshift_bins_length.
    rewrite make_redshift_bins_shape. unfold redshift_index.
    cbn [searchsorted sorts_before].
    destruct (Rlt_dec (- 10 ^ 99) 0); [|lra].
    destruct (Rlt_dec (/ 10 ^ 99) 0); [lra|].
    apply (np_index_in_range _ 0). lia.
Qed.

Lemma galactic_bin_redshifts_witness :
  let redshift_bins := make_redshift_bins (1 / 10) 3 10 in
  (redshift_index redshift_bins (Fin 0) = 0%Z <-> - 10 ^ 99 < 0 <= / 10 ^ 99)
  /\ np_index (length redshift_bins - 1) (redshift_index redshift_bins (Fin 0))
     = Return 0%nat.
Proof.
  assert (H99 : 1 < 10 ^ 99) by (apply Rlt_pow_R1; [lra|lia]).
  assert (Hinv : / 10 ^ 99 < 1).
  { rewrite <- Rinv_1. apply Rinv_lt_contravar; lra. }
  apply (galactic_bin_redshifts (1 / 10) 3 9 0); lra.
Defined.

(** X10. A redshift at or below [-1e99] (or minus infinity) is before every
    edge: its index is [-1], which numpy reads from the end, so the object
    is counted in the last, highest redshift bin. *)
Theorem redshift_below_first_edge_wraps (lo hi : R) (n : nat) (z : xfloat) :
  / 10 ^ 99 <= lo -> lo < hi -> hi <= 10 ^ 99 ->
  z = NInf \/ (exists r, z = Fin r /\ r <= - 10 ^ 99) ->
  let redshift_bins := make_redshift_bins lo hi (S n) in
  redshift_index redshift_bins z = (-1)%Z
  /\ np_index (length redshift_bins - 1) (redshift_index redshift_bins z)
     = Return (S n).
Proof.
  intros _ _ _ Hz redshift_bins. unfold redshift_bins.
  assert (Hi : redshift_index (make_redshift_bins lo hi (S n)) z = (-1)%Z).
  { rewrite make_redshift_bins_shape. unfold redshift_index.
    cbn [searchsorted]. destruct Hz as [-> | (r & -> & Hr)]; cbn [sorts_before].
    - reflexivity.
    - destruct (Rlt_dec (- 10 ^ 99) r); [lra|reflexivity]. }
  split; [exact Hi|]. rewrite Hi, make_redshift_bins_length.
  unfold np_index.
  replace (n + 3 - 1)%nat with (S (S n)) by lia.
  change (0 <=? -1)%Z with false. cbn [andb].
  assert (H : (- Z.of_nat (S (S n)) <=? -1)%Z = true) by (apply Z.leb_le; lia).
  rewrite H. change (-1 <? 0)%Z with true. cbn [andb].
  f_equal. lia.
Qed.

Lemma redshift_below_first_edge_wraps_witness :
  let redshift_bins := make_redshift_bins (1 / 10) 3 10 in
  redshift_index redshift_bins NInf = (-1)%Z
  /\ np_index (length redshift_bins - 1) (redshift_index redshift_bins NInf)
     = Return 10%nat.
Proof.
  assert (H99 : 1 < 10 ^ 99) by (apply Rlt_pow_R1; [lra|lia]).
  assert (Hinv : / 10 ^ 99 < 1).
  { rewrite <- Rinv_1. apply Rinv_lt_contravar; lra. }
  apply (redshift_below_first_edge_wraps (1 / 10) 3 9 NInf); try lra.
  now left.
Defined.

(** *** A redshift after the last edge *)

Lemma searchsorted_le_length (a : list R) (z : xfloat) :
  (searchsorted a z <= length a)%nat.
Proof.
  induction a as [|x a IH]; cbn [searchsorted length]; [lia|].
  destruct (sorts_before x z); lia.
Qed.

Lemma searchsorted_all (a : list R) (z : xfloat) :
  Forall (fun x => sorts_before x z = true) a -> searchsorted a z = length a.
Proof.
  induction 1 as [|x a Hx _ IH]; [reflexivity|].
  cbn [searchsorted length]. now rewrite Hx, IH.
Qed.

Lemma sorts_before_le (x y : R) (z : xfloat) :
  x <= y -> sorts_before y z = true -> sorts_before x z = true.
Proof.
  intros Hxy. destruct z as [r| | |]; cbn [sorts_before]; try tauto.
  destruct (Rlt_dec y r); [|discriminate]. intros _.
  destruct (Rlt_dec x r); [reflexivity|lra].
Qed.

Lemma sorted_le_last (front : list R) (y : R) :
  StronglySorted Rlt (front ++ [y]) -> Forall (fun x => x <= y) (front ++ [y]).
Proof.
  induction front as [|x front IH]; intros Hs; cbn [app] in *.
  - constructor; [lra|constructor].
  - inversion Hs as [|? ? Hs' Hx]; subst. constructor; [|now apply IH].
    rewrite Forall_forall in Hx. apply Rlt_le, Hx.
    apply in_or_app. right. now left.
Qed.

Lemma redshift_index_after_last (lo hi : R) (n : nat) (z : xfloat) :
  / 10 ^ 99 <= lo -> lo < hi -> hi <= 10 ^ 99 ->
  ~ redshift_in_range z ->
  redshift_index (make_redshift_bins lo hi (S n)) z
  = Z.of_nat (length (make_redshift_bins lo hi (S n)) - 1).
Proof.
  intros Hlo Hlt Hhi Hz. unfold redshift_in_range in Hz.
  apply not_false_is_true in Hz.
  pose proof (make_redshift_bins_sorted lo hi n Hlo Hlt Hhi) as Hs.
  destruct (make_redshift_bins_ends lo hi (S n)) as (front & Hb & Hlen).
  rewrite Hb in Hs |- *. unfold redshift_index.
  rewrite searchsorted_all.
  - rewrite length_app. cbn [length]. lia.
  - eapply Forall_impl; [|exact (sorted_le_last _ _ Hs)].
    intros x Hx. cbv beta in Hx. now apply (sorts_before_le x (10 ^ 99)).
Qed.

Lemma redshift_index_bounds (bins : list R) (z : xfloat) :
  (-1 <= redshift_index bins z <= Z.of_nat (length bins) - 1)%Z.
Proof.
  unfold redshift_index. pose proof (searchsorted_le_length bins z). lia.
Qed.

Lemma np_index_raises (size : nat) :
  np_index size (Z.of_nat size) = Raise (IndexError (Z.of_nat size)).
Proof.
  unfold np_index.
  rewrite Z.ltb_irrefl, andb_false_r.
  assert (H : (Z.of_nat size <? 0)%Z = false) by (apply Z.ltb_ge; lia).
  now rewrite H, andb_false_r.
Qed.

Lemma count_loop_raises (size : nat) (indices : list (nat * Z * nat)) :
  (0 < size)%nat ->
  Forall (fun '(g, r, c) => (-1 <= r <= Z.of_nat size)%Z) indices ->
  Exists (fun '(g, r, c) => r = Z.of_nat size) indices ->
  count_loop size indices = Raise (IndexError (Z.of_nat size)).
Proof.
  intros Hsize Hall Hex. induction Hall as [|[[g r] c] indices Hr Hall IH];
    [inversion Hex|].
  cbn [count_loop].
  destruct (Z.eq_dec r (Z.of_nat size)) as [->|Hne].
  - now rewrite np_index_raises.
  - destruct (np_index_ok size r Hsize) as (j & -> & _); [lia|]. cbn [bind].
    rewrite IH; [reflexivity|].
    inversion Hex as [? ? Hx|? ? Hx]; subst; [contradiction|assumption].
Qed.

(** X11. With the edges in increasing order, a redshift that is NaN, plus
    infinity or above [1e99] sorts after the last edge: its index is one
    past the last bin, and [evaluate_weights_redshift] raises IndexError
    with that index while counting, whatever [class_weights] is. *)
Theorem evaluate_weights_redshift_index_error
    (settings : Settings) (dataset : Dataset) (class_weights : option (gmap Z R))
    (group_key : option string) (min_redshift max_redshift : option R)
    (num_bins : option nat) (min_bin_count : option R)
    (redshift_key : option string) :
  let args := resolve_redshift_args settings group_key min_redshift max_redshift
                num_bins min_bin_count redshift_key in
  / 10 ^ 99 <= use_min_redshift args ->
  use_min_redshift args < use_max_redshift args ->
  use_max_redshift args <= 10 ^ 99 ->
  (0 < use_num_bins args)%nat ->
  (exists o, In o (metadata dataset)
             /\ ~ redshift_in_range (float_column o (use_redshift_key args))) ->
  evaluate_weights_redshift settings dataset class_weights group_key
    min_redshift max_redshift num_bins min_bin_count redshift_key
  = Raise (IndexError (Z.of_nat (use_num_bins args) + 1)).
Proof.
  intros args Hlo Hlt Hhi Hn (o & Ho & Hz).
  unfold evaluate_weights_redshift. fold args.
  pose proof (zip_indices args (metadata dataset)) as Hzip.
  destruct (group_indexing args (metadata dataset)) as [ng gi].
  cbn [snd] in Hzip. rewrite Hzip. clear Hzip.
  destruct (use_num_bins args) as [|n] eqn:Hnb; [lia|].
  set (bins := make_redshift_bins (use_min_redshift args) (use_max_redshift args) (S n)).
  assert (Hsize : (length bins - 1 = n + 2)%nat).
  { unfold bins. rewrite make_redshift_bins_length. lia. }
  rewrite count_loop_raises.
  - cbn [bind]. do 2 f_equal. lia.
  - lia.
  - unfold object_indices. rewrite Hnb. fold bins.
    apply Forall_map, Forall_forall. intros o' _.
    pose proof (redshift_index_bounds bins
                  (float_column o' (use_redshift_key args))). lia.
  - unfold object_indices. rewrite Hnb. fold bins.
    apply Exists_exists.
    eexists. split; [apply in_map; exact Ho|]. cbv beta.
    unfold bins. now apply redshift_index_after_last.
Qed.

Lemma evaluate_weights_redshift_index_error_witness :
  evaluate_weights_redshift example_settings
    {| metadata :=
         [{| object_id := 1%Z; class := 1%Z; float_column := fun _ => NaN;
             label_column := fun _ => 0%Z; reference_object_id := None |}];
       has_reference_object_id := false |}
    None None None None None None None
  = Raise (IndexError 11).
Proof.
  assert (H99 : 1 < 10 ^ 99) by (apply Rlt_pow_R1; [lra|lia]).
  assert (Hinv : / 10 ^ 99 < 1).
  { rewrite <- Rinv_1. apply Rinv_lt_contravar; lra. }
  apply (evaluate_weights_redshift_index_error example_settings
           {| metadata :=
                [{| object_id := 1%Z; class := 1%Z; float_column := fun _ => NaN;
                    label_column := fun _ => 0%Z; reference_object_id := None |}];
              has_reference_object_id := false |}
           None None None None None None None); cbn; try lra; try lia.
  eexists. split; [left; reflexivity|]. cbn. discriminate.
Defined.

(** ** [evaluate_weights_redshift] on galactic objects only *)

Lemma nat_sum_app (l1 l2 : list nat) : nat_sum (l1 ++ l2) = (nat_sum l1 + nat_sum l2)%nat.
Proof.
  induction l1 as [|x l1 IH]; [reflexivity|].
  cbn [app nat_sum fold_right]. fold (nat_sum (l1 ++ l2)). fold (nat_sum l1).
  rewrite IH. lia.
Qed.

Lemma nat_sum_flat_map {A B : Type} (F : B -> nat) (h : A -> list B) (l : list A) :
  nat_sum (map F (flat_map h l)) = nat_sum (map (fun a => nat_sum (map F (h a))) l).
Proof.
  induction l as [|a l IH]; [reflexivity|].
  cbn [flat_map map]. rewrite map_app, nat_sum_app, IH. reflexivity.
Qed.

Lemma nat_sum_zero {A : Type} (f : A -> nat) (l : list A) :
  (forall x, In x l -> f x = 0%nat) -> nat_sum (map f l) = 0%nat.
Proof.
  induction l as [|x l IH]; intros H; [reflexivity|].
  cbn [map nat_sum fold_right]. fold (nat_sum (map f l)).
  rewrite (H x) by now left. rewrite IH; [reflexivity|].
  intros y Hy. apply H. now right.
Qed.

Lemma nat_sum_add {A : Type} (f h : A -> nat) (l : list A) :
  nat_sum (map (fun x => (f x + h x)%nat) l)
  = (nat_sum (map f l) + nat_sum (map h l))%nat.
Proof.
  induction l as [|x l IH]; [reflexivity|].
  cbn [map nat_sum fold_right].
  fold (nat_sum (map (fun x => (f x + h x)%nat) l)).
  fold (nat_sum (map f l)). fold (nat_sum (map h l)). rewrite IH. lia.
Qed.

(** The sum over a range of a term that is zero except at [a]. *)
Lemma nat_sum_indicator (a : nat) (v : nat) (s k : nat) :
  nat_sum (map (fun i => if (i =? a)%nat then v else 0%nat) (seq s k))
  = if ((s <=? a) && (a <? s + k))%nat then v else 0%nat.
Proof.
  revert s. induction k as [|k IH]; intros s.
  - cbn [seq map].
    destruct (Nat.leb_spec s a), (Nat.ltb_spec a (s + 0)); cbn [andb];
      try reflexivity; lia.
  - cbn [seq map nat_sum fold_right].
    fold (nat_sum (map (fun i => if (i =? a)%nat then v else 0%nat) (seq (S s) k))).
    rewrite IH.
    destruct (Nat.eqb_spec s a), (Nat.leb_spec (S s) a), (Nat.ltb_spec a (S s + k)),
             (Nat.leb_spec s a), (Nat.ltb_spec a (s + S k)); cbn [andb]; lia.
Qed.

(** Exactly one cell of the array is the cell of an object in range. *)
Lemma block_indicator (G B C gx rx cx : nat) :
  (gx < G)%nat -> (rx < B)%nat -> (cx < C)%nat ->
  nat_sum (map (fun y => if cell_eqb y (gx, rx, cx) then 1%nat else 0%nat)
             (block (seq 0 G) (seq 0 B) (seq 0 C))) = 1%nat.
Proof.
  intros HG HB HC. unfold block.
  rewrite nat_sum_flat_map.
  rewrite (map_ext _ (fun g => if (g =? gx)%nat then 1%nat else 0%nat)).
  - rewrite nat_sum_indicator.
    assert (H : (gx <? 0 + G)%nat = true) by (apply Nat.ltb_lt; lia).
    now rewrite H.
  - intros g. rewrite nat_sum_flat_map.
    rewrite (map_ext _ (fun r => if (r =? rx)%nat
                                 then (if (g =? gx)%nat then 1%nat else 0%nat)
                                 else 0%nat)).
    + rewrite nat_sum_indicator.
      assert (H : (rx <? 0 + B)%nat = true) by (apply Nat.ltb_lt; lia).
      now rewrite H.
    + intros r. rewrite map_map. cbn [cell_eqb].
      destruct (g =? gx)%nat, (r =? rx)%nat; cbn [andb].
      * rewrite nat_sum_indicator.
        assert (H : (cx <? 0 + C)%nat = true) by (apply Nat.ltb_lt; lia).
        now rewrite H.
      * apply nat_sum_zero. reflexivity.
      * apply nat_sum_zero. reflexivity.
      * apply nat_sum_zero. reflexivity.
Qed.

Lemma cell_eqb_sym (x y : cell) : cell_eqb x y = cell_eqb y x.
Proof.
  destruct x as [[g r] c], y as [[g' r'] c']. cbn [cell_eqb].
  now rewrite (Nat.eqb_sym g), (Nat.eqb_sym r), (Nat.eqb_sym c).
Qed.

(** [np.sum(counts)] is the number of objects. *)
Lemma total_counts_length (cells : list cell) (G B C : nat) :
  Forall (fun '(g, r, c) => (g < G)%nat /\ (r < B)%nat /\ (c < C)%nat) cells ->
  total_counts cells G B C = length cells.
Proof.
  unfold total_counts.
  induction 1 as [|[[gx rx] cx] cells (HG & HB & HC) _ IH].
  - apply nat_sum_zero. intros [[g r] c] _. reflexivity.
  - rewrite (map_ext _ (fun y => ((if cell_eqb y (gx, rx, cx) then 1 else 0)
                                  + (let '(g, r, c) := y in counts_at cells g r c))%nat)).
    + rewrite nat_sum_add, block_indicator by assumption.
      cbn [length Nat.add]. f_equal. exact IH.
    + intros [[g r] c]. unfold counts_at. cbn [filter].
      destruct (cell_eqb (g, r, c) (gx, rx, cx)); reflexivity.
Qed.

Lemma In_block_inv (gs rs cs : list nat) (g r c : nat) :
  In (g, r, c) (block gs rs cs) -> In g gs /\ In r rs /\ In c cs.
Proof.
  unfold block. intros H.
  apply in_flat_map in H as (g' & Hg & H).
  apply in_flat_map in H as (r' & Hr & H).
  apply in_map_iff in H as (c' & Heq & Hc).
  injection Heq as -> -> ->. tauto.
Qed.

Lemma count_loop_in_range (size : nat) (cells : list cell) :
  Forall (fun '(g, r, c) => (r < size)%nat) cells ->
  count_loop size (map (fun '(g, r, c) => (g, Z.of_nat r, c)) cells) = Return cells.
Proof.
  induction 1 as [|[[g r] c] cells Hr _ IH]; [reflexivity|].
  cbn [map count_loop]. rewrite np_index_in_range by assumption. cbn [bind].
  now rewrite IH.
Qed.

Lemma redshift_index_zero (lo hi : R) (n : nat) :
  redshift_index (make_redshift_bins lo hi n) (Fin 0) = 0%Z.
Proof.
  pose proof Rinv_pow99_pos as Hpos.
  assert (H99 : 0 < 10 ^ 99) by (apply pow_lt; lra).
  unfold redshift_index. destruct n as [|n].
  - change (make_redshift_bins lo hi 0) with [- 10 ^ 99; 10 ^ 99].
    cbn [searchsorted sorts_before].
    destruct (Rlt_dec (- 10 ^ 99) 0); [|lra].
    destruct (Rlt_dec (10 ^ 99) 0); [lra|reflexivity].
  - rewrite make_redshift_bins_shape. cbn [searchsorted sorts_before].
    destruct (Rlt_dec (- 10 ^ 99) 0); [|lra].
    destruct (Rlt_dec (/ 10 ^ 99) 0); [lra|reflexivity].
Qed.

Lemma class_multipliers_lookup (w : gmap Z R) (names : list class_name) :
  (forall c, In c names -> is_Some (w !! c)) ->
  exists ks, class_multipliers w names = Return ks
    /\ forall i c, nth_error names i = Some c -> w !! c = Some (nth i ks 1).
Proof.
  induction names as [|c names IH]; intros Hl.
  - exists []. split; [reflexivity|]. intros [|i] c H; discriminate.
  - destruct (Hl c (or_introl eq_refl)) as [x Hx].
    destruct IH as (ks & Hks & Hnth); [intros c' H; apply Hl; now right|].
    exists (x :: ks). cbn [class_multipliers]. rewrite Hx, Hks.
    split; [reflexivity|]. intros [|i] c' H; cbn in H |- *.
    + now injection H as <-.
    + now apply Hnth.
Qed.

Lemma name_index_inj (xs : list Z) (x y : Z) :
  In x xs -> In y xs ->
  name_index (unique xs) x = name_index (unique xs) y -> x = y.
Proof.
  intros Hx Hy Heq. pose proof (name_index_nth xs x Hx) as H1.
  pose proof (name_index_nth xs y Hy) as H2. rewrite Heq in H1. congruence.
Qed.

(** The objects counted in the cell of a galactic object are the objects
    of its class. *)
Lemma galactic_counts (md : list object_meta) (o : object_meta) (g r : nat) :
  In o md ->
  let xs := map class md in
  let cells := map (fun o => (0%nat, 0%nat, name_index (unique xs) (class o))) md in
  counts_at cells g r (name_index (unique xs) (class o))
  = if ((g =? 0) && (r =? 0))%nat then count_true (eq_mask xs (class o)) else 0%nat.
Proof.
  intros Ho xs cells. unfold counts_at, cells.
  assert (Hf : forall (p : object_meta -> bool) (l : list object_meta)
                 (f : object_meta -> cell),
             length (filter (cell_eqb (g, r, name_index (unique xs) (class o))) (map f l))
             = length (filter (fun a => cell_eqb (g, r, name_index (unique xs) (class o)) (f a)) l)).
  { intros _ l f. induction l as [|a l IH]; [reflexivity|].
    cbn [map filter]. destruct (cell_eqb _ (f a)); cbn [length]; now rewrite IH. }
  rewrite (Hf (fun _ => true)). clear Hf.
  unfold eq_mask, xs. rewrite map_map, count_true_map. fold xs.
  destruct ((g =? 0) && (r =? 0))%nat eqn:Hgr.
  - f_equal. apply filter_ext_in. intros o' Ho'. cbn [cell_eqb]. rewrite Hgr.
    cbn [andb].
    destruct (Z.eqb_spec (class o') (class o)) as [->|Hne].
    + apply Nat.eqb_refl.
    + apply Nat.eqb_neq. intros Heq. apply Hne. symmetry.
      apply (name_index_inj xs); [unfold xs; now apply in_map..|exact Heq].
  - rewrite (filter_ext_in _ (fun _ => false)).
    + clear. induction md; [reflexivity|assumption].
    + intros o' _. cbn [cell_eqb]. now rewrite Hgr.
Qed.

(** X12. On a dataset of galactic objects only (every redshift exactly
    [0]), without grouping, and with a floor [min_bin_count] that no class
    falls under, the redshift policy reduces to the flat one: every object
    gets the weight [evaluate_weights_flat] gives it. *)
Theorem evaluate_weights_redshift_galactic_is_flat
    (settings : Settings) (dataset : Dataset) (class_weights : option (gmap Z R))
    (min_redshift max_redshift : option R)
    (num_bins : option nat) (min_bin_count : option R)
    (redshift_key : option string) :
  let args := resolve_redshift_args settings None min_redshift max_redshift
                num_bins min_bin_count redshift_key in
  redshift_weighting_group_key settings = None ->
  (forall o, In o (metadata dataset) ->
     float_column o (use_redshift_key args) = Fin 0) ->
  (forall o, In o (metadata dataset) ->
     use_min_bin_count args
     <= INR (count_true (eq_mask (map class (metadata dataset)) (class o)))) ->
  (forall c, In c (map class (metadata dataset)) -> listed class_weights c) ->
  exists flat,
    evaluate_weights_flat dataset class_weights = Return flat
    /\ evaluate_weights_redshift settings dataset class_weights None
         min_redshift max_redshift num_bins min_bin_count redshift_key
       = Return {| index := index flat; values := map Fin (values flat) |}.
Proof.
  intros args Hgk Hz Hfloor Hl.
  rewrite (evaluate_weights_flat_values dataset class_weights Hl).
  eexists. split; [reflexivity|]. cbn [index values].
  assert (Hkey : use_group_key args = None) by exact Hgk.
  unfold evaluate_weights_redshift. fold args.
  pose proof (zip_indices args (metadata dataset)) as Hzip.
  assert (Hng : fst (group_indexing args (metadata dataset)) = 1%nat).
  { unfold group_indexing. now rewrite Hkey. }
  destruct (group_indexing args (metadata dataset)) as [ng gi].
  cbn [snd fst] in Hzip, Hng. subst ng. rewrite Hzip. clear Hzip gi.
  set (md := metadata dataset) in *.
  set (xs := map class md) in *.
  set (bins := make_redshift_bins (use_min_redshift args) (use_max_redshift args)
                 (use_num_bins args)).
  set (cells := map (fun o => (0%nat, 0%nat, name_index (unique xs) (class o))) md).
  assert (Hbins : (0 < length bins - 1)%nat).
  { destruct (make_redshift_bins_ends (use_min_redshift args) (use_max_redshift args)
                (use_num_bins args)) as (front & Hb & Hlen).
    unfold bins. rewrite Hb, length_app. cbn [length]. lia. }
  assert (Hind : object_indices args md
                 = map (fun '(g, r, c) => (g, Z.of_nat r, c)) cells).
  { unfold object_indices, cells. rewrite map_map. apply map_ext_in. intros o Ho.
    rewrite Hkey, (Hz o Ho). fold bins. unfold bins. rewrite redshift_index_zero.
    reflexivity. }
  rewrite Hind, count_loop_in_range.
  2:{ unfold cells. apply Forall_map, Forall_forall. intros o _. exact Hbins. }
  cbn [bind].
  assert (Htotal : total_counts cells 1 (length bins - 1) (length (unique xs))
                   = length md).
  { rewrite total_counts_length; [unfold cells; apply length_map|].
    unfold cells. apply Forall_map, Forall_forall. intros o Ho.
    repeat split; [lia|exact Hbins|].
    apply name_index_lt. unfold xs. now apply in_map. }
  assert (Hmask : forall o, In o md ->
            extgal_mask cells 1 (length bins - 1) (name_index (unique xs) (class o))
            = false).
  { intros o Ho. unfold extgal_mask, class_extgal_counts.
    rewrite nat_sum_zero; [apply Nat.ltb_ge; lia|].
    intros [[g r] c] Hin. apply In_block_inv in Hin as (_ & Hr & Hc).
    destruct Hc as [<-|[]]. apply in_seq in Hr.
    pose proof (galactic_counts md o g r Ho) as Hcount. cbv zeta in Hcount.
    fold xs in Hcount. fold cells in Hcount. rewrite Hcount.
    destruct r; [lia|]. now rewrite andb_false_r. }
  assert (Hscaled : forall o, In o md ->
            scaled_weight cells 1 (length bins - 1) (length (unique xs))
              (use_min_bin_count args) 0 0 (name_index (unique xs) (class o))
            = Fin (INR (length md) / INR (count_true (eq_mask xs (class o))))).
  { intros o Ho. unfold scaled_weight. rewrite (Hmask o Ho), Htotal.
    unfold floor_counts.
    pose proof (galactic_counts md o 0 0 Ho) as Hcount. cbv zeta in Hcount.
    fold xs in Hcount. fold cells in Hcount. rewrite Hcount. cbn [Nat.eqb andb].
    rewrite Rmax_left by now apply Hfloor.
    cbn [xdiv].
    assert (Hpos : (0 < count_true (eq_mask xs (class o)))%nat).
    { apply count_true_pos. unfold xs. now apply in_map. }
    apply lt_0_INR in Hpos.
    destruct (Req_dec_T _ 0); [lra|reflexivity]. }
  assert (Hmap : forall (F : cell -> xfloat) (V : object_meta -> xfloat),
            (forall o, In o md ->
               F (0%nat, 0%nat, name_index (unique xs) (class o)) = V o) ->
            map F cells = map V md).
  { intros F V HFV. unfold cells. rewrite map_map. now apply map_ext_in. }
  destruct class_weights as [w|].
  - destruct (class_multipliers_lookup w (unique xs)) as (ks & Hks & Hnth).
    { intros c Hc. apply (Hl c). now apply (proj1 (In_unique _ _)). }
    rewrite Hks. cbn [bind]. do 2 f_equal.
    rewrite map_map. apply Hmap. intros o Ho. cbv beta iota.
    unfold cell_weight. rewrite (Hscaled o Ho). cbn [xmul]. f_equal.
    assert (Hin : In (class o) xs) by (unfold xs; now apply in_map).
    pose proof (Hnth _ _ (name_index_nth xs (class o) Hin)) as Hk.
    unfold get_class_weight. rewrite Hk. unfold Rdiv. ring.
  - cbn [bind]. do 2 f_equal.
    rewrite map_map. apply Hmap. intros o Ho. cbv beta iota.
    unfold cell_weight. rewrite (Hscaled o Ho). f_equal.
    unfold get_class_weight, Rdiv. ring.
Qed.

Lemma evaluate_weights_redshift_galactic_is_flat_witness :
  exists flat,
    evaluate_weights_flat three_objects (Some {[ 1%Z := 2; 2%Z := 3 ]}) = Return flat
    /\ evaluate_weights_redshift example_settings three_objects
         (Some {[ 1%Z := 2; 2%Z := 3 ]}) None None None None (Some 1) None
       = Return {| index := index flat; values := map Fin (values flat) |}.
Proof.
  apply (evaluate_weights_redshift_galactic_is_flat example_settings three_objects
           (Some {[ 1%Z := 2; 2%Z := 3 ]}) None None None (Some 1) None).
  - reflexivity.
  - intros o Ho. simpl in Ho. destruct Ho as [<-|[<-|[<-|[]]]]; reflexivity.
  - intros o Ho. simpl in Ho. destruct Ho as [<-|[<-|[<-|[]]]]; simpl; lra.
  - intros c Hc. simpl in Hc. destruct Hc as [<-|[<-|[<-|[]]]];
      simpl; simplify_map_eq; eauto.
Defined.

(** ** The fold loop: one classifier per fold *)

Lemma fold_loop_classifiers {St M : Type} (P : Z -> M -> Prop)
    (fit : St -> Z -> list bool -> list bool -> result (St * M * list (list R)))
    (folds : list Z) :
  (forall s f s' m V,
     fit s f (ne_mask folds f) (eq_mask folds f) = Return (s', m, V) -> P f m) ->
  forall fold_ids st T cs st' T' cs',
    fold_loop fit folds fold_ids st T cs = Return (st', T', cs') ->
    columns T' = columns T
    /\ exists new, cs' = cs ++ new /\ Forall2 P fold_ids new.
Proof.
  intros Hfit. induction fold_ids as [|fold fold_ids IH];
    intros st T cs st' T' cs' Hloop.
  - cbn [fold_loop] in Hloop. injection Hloop as <- <- <-.
    split; [reflexivity|]. exists []. split; [now rewrite app_nil_r|constructor].
  - apply fold_loop_step in Hloop as (st1 & m & V & T1 & Hf & Ha & Hloop).
    apply assign_rows_Return in Ha as (_ & _ & ->).
    apply IH in Hloop as (Hcols & new & -> & Hnew).
    split; [exact Hcols|]. exists (m :: new). split.
    + now rewrite <- app_assoc.
    + constructor; [now apply (Hfit st fold st1 m V)|exact Hnew].
Qed.

Lemma Forall2_nth_error {A B : Type} (P : A -> B -> Prop) (l : list A) (l' : list B)
    (j : nat) (x : A) :
  Forall2 P l l' -> nth_error l j = Some x ->
  exists y, nth_error l' j = Some y /\ P x y.
Proof.
  intros HF. revert j. induction HF as [|a b l l' Hab _ IH]; intros [|j] Hj;
    try discriminate.
  - injection Hj as <-. exists b. now split.
  - now apply IH.
Qed.

Lemma range_nth_error (n fold : Z) :
  In fold (range n) -> nth_error (range n) (Z.to_nat fold) = Some fold.
Proof.
  intros Hin. apply In_range in Hin. unfold range.
  rewrite nth_error_map, nth_error_seq.
  destruct (Nat.ltb_spec (Z.to_nat fold) (Z.to_nat n)) as [_|Hge]; [|lia].
  cbn. f_equal. lia.
Qed.

Lemma range_length (n : Z) : length (range n) = Z.to_nat n.
Proof. unfold range. now rewrite length_map, length_seq. Qed.

Lemma zip_with_fst {A B C D : Type} (f : A -> C) (g : A -> B -> D)
    (l : list A) (l' : list B) :
  length l = length l' ->
  map fst (zip_with (fun a b => (f a, g a b)) l l') = map f l.
Proof.
  revert l'. induction l as [|a l IH]; intros [|b l'] Hlen; try discriminate;
    [reflexivity|].
  cbn [zip_with map fst]. f_equal. apply IH. now injection Hlen.
Qed.

Lemma zip_with_snd {A B C D : Type} (f : A -> C) (g : B -> D)
    (l : list A) (l' : list B) :
  length l = length l' ->
  map snd (zip_with (fun a b => (f a, g b)) l l') = map g l'.
Proof.
  revert l'. induction l as [|a l IH]; intros [|b l'] Hlen; try discriminate;
    [reflexivity|].
  cbn [zip_with map snd]. f_equal. apply IH. now injection Hlen.
Qed.

(** X13. What [LightGBMClassifier.train] leaves on the object, when it
    returns: the out-of-fold table has the sorted distinct classes as
    columns; there is one classifier per fold of [range(num_folds)], in
    order, with importances labelled [1 .. num_folds]; and the classifier of
    a fold is the one fitted on exactly the objects whose label differs from
    the fold, with the objects of the fold as evaluation set. *)
Theorem LightGBMClassifier_train_classifiers `{DatasetOps} `{LightGBM}
    (self : classifier_setup) (dataset : Dataset)
    (num_folds : option nat) (random_state : option Z)
    (kwargs : gmap string param_value) (trained : lgb_trained) (n : Z) :
  let features := select_features dataset (use_featurizer self) in
  let folds := label_folds dataset num_folds random_state in
  let object_classes := map class (metadata dataset) in
  count_folds folds = Return n ->
  LightGBMClassifier_train self dataset num_folds random_state kwargs
  = Return trained ->
  columns (lgb_train_predictions trained) = unique object_classes
  /\ lgb_train_classes trained = object_classes
  /\ length (lgb_classifiers trained) = Z.to_nat n
  /\ map fst (lgb_importances trained) = map (fun fold => (fold + 1)%Z) (range n)
  /\ exists object_weights,
       lgb_object_weights self dataset = Return object_weights
       /\ forall fold, In fold (range n) ->
            nth_error (lgb_classifiers trained) (Z.to_nat fold)
            = Some (fit_lightgbm_classifier
                      (mask_select (ne_mask folds fold) features)
                      (mask_select (ne_mask folds fold) object_classes)
                      (mask_select (ne_mask folds fold) object_weights)
                      (mask_select (eq_mask folds fold) features)
                      (mask_select (eq_mask folds fold) object_classes)
                      (mask_select (eq_mask folds fold) object_weights)
                      kwargs).
Proof.
  intros features folds object_classes Hn Htrain.
  unfold LightGBMClassifier_train in Htrain.
  fold folds features object_classes in Htrain.
  rewrite Hn in Htrain. cbn [bind] in Htrain.
  destruct (lgb_object_weights self dataset) as [ow|e]; cbn [bind] in Htrain;
    [|discriminate].
  destruct (fold_loop _ folds (range n) tt _ []) as [[[u T'] cs']|e] eqn:Hloop;
    cbn [bind] in Htrain; [|discriminate].
  destruct (report_logloss dataset _ T' ow _) as [report|e];
    cbn [bind] in Htrain; [|discriminate].
  injection Htrain as <-.
  cbn [lgb_train_predictions lgb_train_classes lgb_classifiers lgb_importances].
  apply (fold_loop_classifiers
           (fun fold m =>
              m = fit_lightgbm_classifier
                    (mask_select (ne_mask folds fold) features)
                    (mask_select (ne_mask folds fold) object_classes)
                    (mask_select (ne_mask folds fold) ow)
                    (mask_select (eq_mask folds fold) features)
                    (mask_select (eq_mask folds fold) object_classes)
                    (mask_select (eq_mask folds fold) ow)
                    kwargs)) in Hloop as (Hcols & new & -> & Hnew).
  2:{ intros s f s' m V Hfit. unfold lgb_fit_and_predict in Hfit.
      now injection Hfit as _ <- _. }
  cbn [app] in *.
  assert (Hlen : length new = Z.to_nat n).
  { rewrite (Forall2_length_eq _ _ _ Hnew). apply range_length. }
  split; [exact Hcols|]. split; [reflexivity|]. split; [exact Hlen|].
  split.
  { apply (zip_with_fst (fun fold => (fold + 1)%Z) (fun _ c => feature_importances c)).
    now rewrite range_length. }
  exists ow. split; [reflexivity|]. intros fold Hfold.
  destruct (Forall2_nth_error _ _ _ _ _ Hnew (range_nth_error n fold Hfold))
    as (m & Hm & ->).
  exact Hm.
Qed.

Lemma LightGBMClassifier_train_classifiers_witness :
  exists trained,
    @LightGBMClassifier_train example_dataset_ops example_lightgbm
      example_setup three_objects None None ∅ = Return trained
    /\ columns (lgb_train_predictions trained) = [1; 2]%Z
    /\ length (lgb_classifiers trained) = 2%nat
    /\ map fst (lgb_importances trained) = [1; 2]%Z.
Proof.
  destruct (@LightGBMClassifier_train_returns example_dataset_ops example_lightgbm
              example_setup three_objects None None ∅ 2 eq_refl
              (ex_intro _ _ eq_refl) eq_refl) as (trained & Htrain).
  { intros c X. split.
    - cbn. apply length_map.
    - cbn. apply Forall_map, Forall_forall. reflexivity. }
  exists trained. split; [exact Htrain|].
  destruct (@LightGBMClassifier_train_classifiers example_dataset_ops example_lightgbm
              example_setup three_objects None None ∅ trained 2 eq_refl Htrain)
    as (H1 & _ & H3 & H4 & _).
  repeat split; assumption.
Defined.

(** X14. What [NNClassifier.train] leaves on the object, when it returns:
    one entry of [self.classifiers] per fold of [range(num_folds)], in
    order, whose path is [classifier_<name>_<fold>.pt] in the classifier
    directory and whose configuration is that of the network returned for
    the fold; and every network returned has been put in evaluation
    mode. *)
Theorem NNClassifier_train_classifiers `{Torch} `{DatasetOps}
    (settings : Settings) (self : classifier_setup) (nn : nn_setup)
    (dataset : Dataset) (n_features : nat)
    (num_folds : option nat) (random_state : option Z)
    (kwargs : nn_kwargs) (w : world) (trained : nn_trained) (w' : world) (n : Z) :
  count_folds (label_folds dataset num_folds random_state) = Return n ->
  NNClassifier_train settings self nn dataset n_features num_folds random_state
    kwargs w = Return (trained, w') ->
  length (nn_returned trained) = Z.to_nat n
  /\ map fst (nn_classifiers trained)
     = map (model_path settings (name self)) (range n)
  /\ map snd (nn_classifiers trained) = map config (nn_returned trained)
  /\ Forall (fun classifier => training classifier = false) (nn_returned trained)
  /\ columns (nn_train_predictions trained) = unique (nn_train_classes trained).
Proof.
  intros Hn Htrain. unfold NNClassifier_train in Htrain.
  rewrite Hn in Htrain. cbn [bind] in Htrain.
  destruct (match weighting_function self with
            | Some f => _
            | None => _
            end) as [ow|e]; cbn [bind] in Htrain; [|discriminate].
  destruct (match class_map nn with
            | Some cm => _
            | None => _
            end) as [object_classes|e]; cbn [bind] in Htrain; [|discriminate].
  destruct (fold_loop _ _ (range n) w _ []) as [[[w1 T'] cs']|e] eqn:Hloop;
    cbn [bind] in Htrain; [|discriminate].
  destruct (report_logloss dataset _ T' ow _) as [report|e];
    cbn [bind] in Htrain; [|discriminate].
  injection Htrain as <- <-.
  cbn [nn_train_predictions nn_train_classes nn_classifiers nn_returned].
  apply (fold_loop_classifiers (fun _ m => training m = false)) in Hloop
    as (Hcols & new & -> & Hnew).
  2:{ intros s f s' m V Hfit.
      apply nn_fit_and_predict_rows in Hfit as (_ & _ & _ & _ & _ & _ & _ & Hmode).
      exact Hmode. }
  cbn [app] in *.
  assert (Hlen : length new = Z.to_nat n).
  { rewrite (Forall2_length_eq _ _ _ Hnew). apply range_length. }
  assert (Hrange : range (Z.of_nat (length new)) = range n).
  { unfold range. now rewrite Nat2Z.id, Hlen. }
  rewrite Hrange.
  split; [exact Hlen|]. split.
  { apply (zip_with_fst (model_path settings (name self)) (fun _ c => config c)).
    now rewrite range_length. }
  split.
  { apply (zip_with_snd (model_path settings (name self)) config).
    now rewrite range_length. }
  split; [|exact Hcols].
  apply Forall_forall. intros m Hm.
  destruct (Forall2_In_r _ _ _ _ Hnew Hm) as (f & _ & Hmode). exact Hmode.
Qed.

Lemma NNClassifier_train_classifiers_witness :
  exists trained w',
    @NNClassifier_train example_torch example_dataset_ops example_settings
      example_setup (example_nn_setup 0) three_objects 1 None None no_kwargs
      empty_world = Return (trained, w')
    /\ length (nn_returned trained) = 2%nat
    /\ map fst (nn_classifiers trained)
       = map (model_path example_settings "example") [0; 1]%Z.
Proof.
  destruct (@NNClassifier_train_returns example_torch example_dataset_ops
              example_settings example_setup (example_nn_setup 0) three_objects 1
              None None no_kwargs empty_world 2 eq_refl (ex_intro _ _ eq_refl)
              eq_refl eq_refl eq_refl) as (trained & w' & Hnn).
  { intros data fold kw w0 Hkw. simpl.
    destruct (@fit_nn_classifier_returns_initial example_torch data 1 fold 32 6 8 16
                None (Some (model_path example_settings "example" fold)) kw w0)
      as (fitted & w1 & Hfit).
    - right. rewrite Hkw. reflexivity.
    - eauto. }
  { intros params x. reflexivity. }
  exists trained, w'. split; [exact Hnn|].
  destruct (@NNClassifier_train_classifiers example_torch example_dataset_ops
              example_settings example_setup (example_nn_setup 0) three_objects 1
              None None no_kwargs empty_world trained w' 2 eq_refl Hnn)
    as (H1 & H2 & _).
  split; assumption.
Defined.

(** ** [train]: what is raised before any model is fitted *)

Lemma evaluate_weights_flat_Raise dataset cw e :
  evaluate_weights_flat dataset cw = Raise e ->
  exists c, e = KeyError c /\ In c (map class (metadata dataset)) /\ ~ listed cw c.
Proof.
  unfold evaluate_weights_flat. intros Hr.
  destruct (flat_loop cw _ _ ∅) as [m|e'] eqn:Hloop; cbn [bind] in Hr;
    [discriminate|].
  injection Hr as ->.
  apply flat_loop_raises_KeyError in Hloop as (c & -> & Hc & Hl).
  exists c. split; [reflexivity|]. split; [|exact Hl].
  rewrite value_counts_keys in Hc. now apply (proj1 (In_unique _ _)).
Qed.

(** X15. [LightGBMClassifier.train] with the flat weighting and a
    [class_weights] mapping that lacks a class of the dataset raises the
    KeyError of [evaluate_weights_flat] for such a class; no model is
    fitted. *)
Theorem LightGBMClassifier_train_key_error `{DatasetOps} `{LightGBM}
    (self : classifier_setup) (dataset : Dataset)
    (num_folds : option nat) (random_state : option Z)
    (kwargs : gmap string param_value) (w : gmap Z R) :
  label_folds dataset num_folds random_state <> [] ->
  weighting_function self = Some evaluate_weights_flat ->
  class_weights_of self = Some w ->
  (exists c, In c (map class (metadata dataset)) /\ w !! c = None) ->
  exists c,
    In c (map class (metadata dataset)) /\ w !! c = None
    /\ LightGBMClassifier_train self dataset num_folds random_state kwargs
       = Raise (KeyError c).
Proof.
  intros Hfolds Hwf Hcw (c & Hc & Hmiss).
  unfold LightGBMClassifier_train.
  destruct (label_folds dataset num_folds random_state) as [|f folds];
    [contradiction|].
  cbn [count_folds bind]. unfold lgb_object_weights. rewrite Hwf, Hcw.
  destruct (evaluate_weights_flat dataset (Some w)) as [weights|e] eqn:Hflat.
  - exfalso.
    assert (Hr : raises (evaluate_weights_flat dataset (Some w))).
    { apply evaluate_weights_flat_raises. exists c. split; [exact Hc|].
      cbn [listed]. rewrite Hmiss. intros [x Hx]. discriminate. }
    destruct Hr as [e He]. congruence.
  - apply evaluate_weights_flat_Raise in Hflat as (c' & -> & Hc' & Hl).
    exists c'. split; [exact Hc'|]. split; [|reflexivity].
    cbn [listed] in Hl. destruct (w !! c') eqn:Hw; [|reflexivity].
    exfalso. apply Hl. eauto.
Qed.

Lemma LightGBMClassifier_train_key_error_witness :
  exists c,
    In c [1; 1; 2]%Z /\ ({[ 1%Z := 2 ]} : gmap Z R) !! c = None
    /\ @LightGBMClassifier_train example_dataset_ops example_lightgbm
         {| name := "example";
            use_featurizer := tt : @featurizer example_dataset_ops;
            class_weights_of := Some {[ 1%Z := 2 ]};
            weighting_function := Some evaluate_weights_flat |}
         three_objects None None ∅
       = Raise (KeyError c).
Proof.
  apply (@LightGBMClassifier_train_key_error example_dataset_ops example_lightgbm
           {| name := "example";
              use_featurizer := tt : @featurizer example_dataset_ops;
              class_weights_of := Some {[ 1%Z := 2 ]};
              weighting_function := Some evaluate_weights_flat |}
           three_objects None None ∅ {[ 1%Z := 2 ]}).
  - discriminate.
  - reflexivity.
  - reflexivity.
  - exists 2%Z. split; [simpl; tauto|]. now simplify_map_eq.
Defined.

(** ** [fit_nn_classifier]: the schedule of the loop and the files *)

Lemma gradient_steps_app (t t' : list event) :
  gradient_steps (t ++ t') = gradient_steps t ++ gradient_steps t'.
Proof. apply flat_map_app. Qed.

Lemma evaluations_app (t t' : list event) :
  evaluations (t ++ t') = evaluations t ++ evaluations t'.
Proof. apply flat_map_app. Qed.

Lemma sampled_no_steps (ev : list event) :
  Forall is_sampled ev -> gradient_steps ev = [] /\ evaluations ev = [].
Proof.
  induction 1 as [|e ev [which ->] _ [IH1 IH2]]; [now split|].
  cbn [gradient_steps evaluations flat_map app]. now split.
Qed.

Section FitNNTrace.
Context `{Torch}.
Variable data : nn_data.

Lemma get_batch_Return (which : string) (batch_size : nat) (w : world)
    (b : batch) (w' : world) :
  get_batch data which batch_size w = Return (b, w') ->
  w_files w' = w_files w /\ w_trace w' = w_trace w ++ [Sampled which].
Proof.
  unfold get_batch.
  destruct (if String.eqb which "train" then _ else _) as [[features labels] weights].
  destruct (length features =? 0)%nat; [discriminate|].
  destruct (randint (w_rng w) (length features) batch_size) as [ix g].
  intros [= _ <-]. now split.
Qed.

Lemma evaluate_split_Return (params : state_dict) (which : string) (batch_size k : nat)
    (losses : list xfloat) (correct total : nat) (w : world)
    (losses' : list xfloat) (correct' total' : nat) (w' : world) :
  evaluate_split data params which batch_size k losses correct total w
  = Return (losses', correct', total', w') ->
  w_files w' = w_files w
  /\ exists ev, w_trace w' = w_trace w ++ ev /\ Forall is_sampled ev.
Proof.
  revert losses correct total w. induction k as [|k IH]; intros losses correct total w.
  - intros [= _ _ _ <-]. split; [reflexivity|]. exists []. now rewrite app_nil_r.
  - cbn [evaluate_split].
    destruct (get_batch data which batch_size w) as [[b w1]|e] eqn:Hb; cbn [bind];
      [|discriminate].
    destruct (evaluate_batch params b) as [loss hits].
    intros Hk. apply IH in Hk as (Hf & ev & Ht & Hev).
    apply get_batch_Return in Hb as (Hf1 & Ht1).
    split; [congruence|]. exists (Sampled which :: ev).
    split; [rewrite Ht, Ht1, <- app_assoc; reflexivity|].
    constructor; [now exists which|exact Hev].
Qed.

Lemma estimate_loss_Return (params : state_dict) (batch_size eval_iters : nat)
    (w : world) (m : metrics) (w' : world) :
  estimate_loss data params batch_size eval_iters w = Return (m, w') ->
  w_files w' = w_files w
  /\ exists ev, w_trace w' = w_trace w ++ ev /\ Forall is_sampled ev.
Proof.
  unfold estimate_loss.
  destruct (evaluate_split data params "train" batch_size eval_iters [] 0 0 w)
    as [[[[tl tc] tt'] w1]|e] eqn:Ht; cbn [bind]; [|discriminate].
  destruct (eval_iters =? 0)%nat; cbn [bind]; [discriminate|].
  destruct (evaluate_split data params "val" batch_size eval_iters [] 0 0 w1)
    as [[[[vl vc] vt] w2]|e] eqn:Hv; cbn [bind]; [|discriminate].
  intros [= _ <-].
  apply evaluate_split_Return in Ht as (Hf1 & ev1 & Ht1 & Hev1).
  apply evaluate_split_Return in Hv as (Hf2 & ev2 & Ht2 & Hev2).
  split; [congruence|]. exists (ev1 ++ ev2).
  split; [rewrite Ht2, Ht1, <- app_assoc; reflexivity|].
  apply Forall_app. now split.
Qed.

Variables (batch_size max_iters eval_iters eval_interval : nat).
Variable logger : option string.
Variable save_model_path : option string.

(** One iteration that completes: one gradient step, an evaluation when
    the iteration calls for one, and no file touched but the checkpoint. *)
Lemma train_iteration_Return (iter : nat) (s s' : loop_state) :
  train_iteration data batch_size max_iters eval_iters eval_interval logger
    save_model_path iter s = Return s' ->
  eval_interval <> 0%nat
  /\ gradient_steps (w_trace (ls_world s'))
     = gradient_steps (w_trace (ls_world s)) ++ [iter]
  /\ evaluations (w_trace (ls_world s'))
     = evaluations (w_trace (ls_world s))
       ++ (if evaluates max_iters eval_interval iter then [iter] else [])
  /\ forall p, save_model_path <> Some p ->
       w_files (ls_world s') !! p = w_files (ls_world s) !! p.
Proof.
  unfold train_iteration.
  destruct (get_batch data "train" batch_size (ls_world s)) as [[b w1]|e] eqn:Hb;
    cbn [bind]; [|discriminate].
  apply get_batch_Return in Hb as (Hf1 & Ht1).
  destruct (gradient_step (ls_parameters s) (ls_optimizer s) b (w_rng w1))
    as [[params opt] g].
  destruct (Nat.eqb_spec eval_interval 0) as [|Hne]; [discriminate|].
  fold (evaluates max_iters eval_interval iter).
  destruct (evaluates max_iters eval_interval iter).
  - match goal with
    | |- context [estimate_loss data params batch_size eval_iters ?w0] =>
        destruct (estimate_loss data params batch_size eval_iters w0)
          as [[m w2]|e] eqn:He; cbn [bind]; [|discriminate]
    end.
    apply estimate_loss_Return in He as (Hf2 & ev & Ht2 & Hev).
    cbn [w_files w_trace] in Hf2, Ht2.
    destruct (sampled_no_steps ev Hev) as [Hg He].
    assert (Hbase :
      gradient_steps (w_trace w2) = gradient_steps (w_trace (ls_world s)) ++ [iter]
      /\ evaluations (w_trace w2) = evaluations (w_trace (ls_world s))).
    { rewrite Ht2, Ht1.
      rewrite !gradient_steps_app, !evaluations_app, Hg, He.
      cbn [gradient_steps evaluations flat_map app]. rewrite !app_nil_r.
      now split. }
    destruct Hbase as [Hbg Hbe].
    destruct save_model_path as [path|];
      [destruct (xlt (val_loss m) (ls_best_loss s))|];
      destruct (is_wandb logger);
      intros [= <-]; cbn [ls_world w_trace w_files];
      (split; [exact Hne|]);
      rewrite ?gradient_steps_app, ?evaluations_app, ?Hbg, ?Hbe;
      cbn [gradient_steps evaluations flat_map app]; rewrite ?app_nil_r;
      (split; [reflexivity|]); (split; [reflexivity|]);
      intros p Hp; rewrite ?lookup_insert_ne by congruence; congruence.
  - intros [= <-]. cbn [ls_world w_trace w_files].
    split; [exact Hne|].
    rewrite Ht1, !gradient_steps_app, !evaluations_app.
    cbn [gradient_steps evaluations flat_map app]. rewrite !app_nil_r.
    split; [reflexivity|]. split; [reflexivity|].
    intros p _. congruence.
Qed.

Lemma train_iterations_Return (iters : list nat) (s s' : loop_state) :
  train_iterations data batch_size max_iters eval_iters eval_interval logger
    save_model_path iters s = Return s' ->
  gradient_steps (w_trace (ls_world s'))
  = gradient_steps (w_trace (ls_world s)) ++ iters
  /\ evaluations (w_trace (ls_world s'))
     = evaluations (w_trace (ls_world s))
       ++ filter (evaluates max_iters eval_interval) iters
  /\ (iters <> [] -> eval_interval <> 0%nat)
  /\ forall p, save_model_path <> Some p ->
       w_files (ls_world s') !! p = w_files (ls_world s) !! p.
Proof.
  revert s. induction iters as [|iter iters IH]; intros s.
  - intros [= <-]. rewrite !app_nil_r. repeat split; congruence.
  - cbn [train_iterations].
    destruct (train_iteration data batch_size max_iters eval_iters eval_interval
                logger save_model_path iter s) as [s1|e] eqn:H1; cbn [bind];
      [|discriminate].
    intros Hrest. apply IH in Hrest as (Hg & He & _ & Hf).
    apply train_iteration_Return in H1 as (Hne & Hg1 & He1 & Hf1).
    rewrite Hg, Hg1, He, He1, <- !app_assoc. cbn [filter app].
    split; [reflexivity|]. split.
    { now destruct (evaluates max_iters eval_interval iter). }
    split; [intros _; exact Hne|].
    intros p Hp. rewrite (Hf p Hp). now apply Hf1.
Qed.

End FitNNTrace.

Lemma fit_nn_classifier_loop `{Torch}
    data batch_size max_iters fold dim depth heads dim_head logger save_model_path
    kwargs w fitted w1 :
  fit_nn_classifier data batch_size max_iters fold dim depth heads dim_head logger
    save_model_path kwargs w = Return (fitted, w1) ->
  exists s0 s,
    train_iterations data batch_size max_iters
      (option_or (kw_eval_iters kwargs) 200%nat)
      (option_or (kw_eval_interval kwargs) 200%nat)
      logger save_model_path (seq 0 max_iters) s0 = Return s
    /\ w_files (ls_world s0) = w_files w
    /\ gradient_steps (w_trace (ls_world s0)) = gradient_steps (w_trace w)
    /\ evaluations (w_trace (ls_world s0)) = evaluations (w_trace w)
    /\ w1 = ls_world s.
Proof.
  unfold fit_nn_classifier.
  match goal with
  | |- context [bind ?c _] => destruct c as [cfg|e]; cbn [bind]; [|discriminate]
  end.
  destruct (init_net cfg (w_rng w)) as [params g].
  match goal with
  | |- context [train_iterations ?d ?b ?mi ?ei ?ev ?lo ?sp ?it ?s0] =>
      destruct (train_iterations d b mi ei ev lo sp it s0) as [s|e] eqn:Hloop;
      cbn [bind]; [|discriminate];
      intros [= <- <-]; exists s0, s
  end.
  split; [exact Hloop|]. cbn [ls_world w_files w_trace].
  split; [reflexivity|].
  destruct (match logger with Some l => String.eqb l "wandb" | None => false end);
    rewrite ?gradient_steps_app, ?evaluations_app;
    cbn [gradient_steps evaluations flat_map app]; rewrite ?app_nil_r;
    repeat split; reflexivity.
Qed.

(** X17. There is no early stopping: a call of [fit_nn_classifier] that
    returns has made exactly [max_iters] gradient steps, for the iterations
    [0 .. max_iters - 1] in order, and has evaluated the losses exactly at
    the iterations that are multiples of [eval_interval] and at the last
    one. *)
Theorem fit_nn_classifier_schedule `{Torch}
    (data : nn_data) (batch_size max_iters : nat) (fold : Z)
    (dim depth heads dim_head : nat)
    (logger : option string) (save_model_path : option string)
    (kwargs : nn_kwargs) (w : world) (fitted : net) (w' : world) :
  fit_nn_classifier data batch_size max_iters fold dim depth heads dim_head logger
    save_model_path kwargs w = Return (fitted, w') ->
  gradient_steps (w_trace w') = gradient_steps (w_trace w) ++ seq 0 max_iters
  /\ evaluations (w_trace w')
     = evaluations (w_trace w)
       ++ filter (evaluates max_iters (option_or (kw_eval_interval kwargs) 200%nat))
            (seq 0 max_iters).
Proof.
  intros Hfit.
  apply fit_nn_classifier_loop in Hfit as (s0 & s & Hloop & _ & Hg0 & He0 & ->).
  apply train_iterations_Return in Hloop as (Hg & He & _).
  rewrite Hg, He, Hg0, He0. now split.
Qed.

(** X18. The only file [fit_nn_classifier] can write is the checkpoint:
    when it returns, every other path holds what it held before, and
    without a [save_model_path] no file has changed at all. *)
Theorem fit_nn_classifier_files `{Torch}
    (data : nn_data) (batch_size max_iters : nat) (fold : Z)
    (dim depth heads dim_head : nat)
    (logger : option string) (save_model_path : option string)
    (kwargs : nn_kwargs) (w : world) (fitted : net) (w' : world) :
  fit_nn_classifier data batch_size max_iters fold dim depth heads dim_head logger
    save_model_path kwargs w = Return (fitted, w') ->
  (forall p, save_model_path <> Some p -> w_files w' !! p = w_files w !! p)
  /\ (save_model_path = None -> w_files w' = w_files w).
Proof.
  intros Hfit.
  apply fit_nn_classifier_loop in Hfit as (s0 & s & Hloop & Hf0 & _ & _ & ->).
  apply train_iterations_Return in Hloop as (_ & _ & _ & Hf).
  split.
  - intros p Hp. rewrite (Hf p Hp). now rewrite Hf0.
  - intros ->. apply map_eq. intros p. rewrite (Hf p) by discriminate.
    now rewrite Hf0.
Qed.

Lemma fit_nn_classifier_schedule_witness :
  exists fitted w',
    @fit_nn_classifier example_torch example_data 1 3 0 32 6 8 16 None None
      example_kwargs empty_world = Return (fitted, w')
    /\ gradient_steps (w_trace w') = [0; 1; 2]%nat
    /\ evaluations (w_trace w') = [0; 2]%nat.
Proof.
  destruct (@fit_nn_classifier example_torch example_data 1 3 0 32 6 8 16 None None
              example_kwargs empty_world) as [[fitted w']|e] eqn:Hfit.
  - exists fitted, w'. split; [reflexivity|].
    exact (@fit_nn_classifier_schedule example_torch example_data 1 3 0 32 6 8 16
             None None example_kwargs empty_world fitted w' Hfit).
  - vm_compute in Hfit. discriminate.
Defined.

Lemma fit_nn_classifier_files_witness :
  exists fitted w',
    @fit_nn_classifier example_torch example_data 1 3 0 32 6 8 16 None None
      example_kwargs empty_world = Return (fitted, w')
    /\ w_files w' = ∅.
Proof.
  destruct (@fit_nn_classifier example_torch example_data 1 3 0 32 6 8 16 None None
              example_kwargs empty_world) as [[fitted w']|e] eqn:Hfit.
  - exists fitted, w'. split; [reflexivity|].
    exact (proj2 (@fit_nn_classifier_files example_torch example_data 1 3 0 32 6 8
                    16 None None example_kwargs empty_world fitted w' Hfit) eq_refl).
  - vm_compute in Hfit. discriminate.
Defined.

(** ** [fit_nn_classifier]: what stops it *)

(** X19. A [model_type] other than ["ft"] and ["mlp"] leaves the local
    [classifier] unassigned: [fit_nn_classifier] raises UnboundLocalError
    before anything is trained, logged or written. *)
Theorem fit_nn_classifier_unknown_model `{Torch}
    (data : nn_data) (batch_size max_iters : nat) (fold : Z)
    (dim depth heads dim_head : nat)
    (logger : option string) (save_model_path : option string)
    (kwargs : nn_kwargs) (w : world) (model_type : string) :
  kw_model_type kwargs = Some model_type ->
  model_type <> "ft"%string -> model_type <> "mlp"%string ->
  fit_nn_classifier data batch_size max_iters fold dim depth heads dim_head logger
    save_model_path kwargs w = Raise UnboundLocalError.
Proof.
  intros Hk Hft Hmlp. unfold fit_nn_classifier. rewrite Hk. cbn [option_or].
  apply String.eqb_neq in Hft, Hmlp. now rewrite Hft, Hmlp.
Qed.

Lemma fit_nn_classifier_unknown_model_witness :
  @fit_nn_classifier example_torch example_data 1 3 0 32 6 8 16 None None
    {| kw_model_type := Some "cnn"%string; kw_eval_iters := None;
       kw_eval_interval := None; kw_lr := None; kw_attn_dropout := None;
       kw_ff_dropout := None |} empty_world
  = Raise UnboundLocalError.
Proof.
  apply (@fit_nn_classifier_unknown_model example_torch example_data 1 3 0 32 6 8 16
           None None _ empty_world "cnn"); [reflexivity|discriminate|discriminate].
Defined.




(** ** The checkpoints of the folds *)

Lemma string_length_app (s t : string) :
  String.length (s ++ t) = (String.length s + String.length t)%nat.
Proof.
  induction s as [|c s IH]; [reflexivity|].
  change (S (String.length (s ++ t)) = S (String.length s + String.length t)).
  now f_equal.
Qed.

Lemma string_app_inj_r (s1 s2 t : string) :
  (s1 ++ t)%string = (s2 ++ t)%string -> s1 = s2.
Proof.
  revert s2. induction s1 as [|c s1 IH]; intros [|c' s2] Heq.
  - reflexivity.
  - exfalso. apply (f_equal String.length) in Heq.
    rewrite (string_length_app (String c' s2) t) in Heq.
    change (String.length ("" ++ t)) with (String.length t) in Heq.
    change (String.length (String c' s2)) with (S (String.length s2)) in Heq. lia.
  - exfalso. apply (f_equal String.length) in Heq.
    rewrite (string_length_app (String c s1) t) in Heq.
    change (String.length ("" ++ t)) with (String.length t) in Heq.
    change (String.length (String c s1)) with (S (String.length s1)) in Heq. lia.
  - change (String c (s1 ++ t) = String c' (s2 ++ t)) in Heq.
    injection Heq as -> Heq. f_equal. now apply IH.
Qed.

Lemma model_path_inj (settings : Settings) (name : string) (f g : Z) :
  model_path settings name f = model_path settings name g -> f = g.
Proof.
  unfold model_path. intros Heq.
  do 4 apply (inj (String.app _)) in Heq.
  apply string_app_inj_r in Heq. now apply (inj pretty) in Heq.
Qed.

(** X21. The folds keep their checkpoints apart: the paths
    [classifier_<name>_<fold>.pt] of two different folds differ, so the
    training of a fold with the path [NNClassifier.train] gives it leaves
    the checkpoint of every other fold as it was. *)
Theorem fold_checkpoints_are_separate `{Torch}
    (settings : Settings) (name : string)
    (data : nn_data) (batch_size max_iters : nat) (fold other : Z)
    (dim depth heads dim_head : nat) (logger : option string)
    (kwargs : nn_kwargs) (w : world) (fitted : net) (w' : world) :
  fold <> other ->
  fit_nn_classifier data batch_size max_iters fold dim depth heads dim_head logger
    (Some (model_path settings name fold)) kwargs w = Return (fitted, w') ->
  model_path settings name fold <> model_path settings name other
  /\ w_files w' !! model_path settings name other
     = w_files w !! model_path settings name other.
Proof.
  intros Hne Hfit.
  assert (Hp : model_path settings name fold <> model_path settings name other).
  { intros Heq. apply Hne. now apply (model_path_inj settings name). }
  split; [exact Hp|].
  apply fit_nn_classifier_loop in Hfit as (s0 & s & Hloop & Hf0 & _ & _ & ->).
  apply train_iterations_Return in Hloop as (_ & _ & _ & Hf).
  rewrite (Hf (model_path settings name other)) by congruence.
  now rewrite Hf0.
Qed.

Lemma fold_checkpoints_are_separate_witness :
  exists fitted w',
    @fit_nn_classifier example_torch example_data 1 0 0 32 6 8 16 None
      (Some (model_path example_settings "example" 0)) example_kwargs empty_world
    = Return (fitted, w')
    /\ model_path example_settings "example" 0
       <> model_path example_settings "example" 1
    /\ w_files w' !! model_path example_settings "example" 1
       = w_files empty_world !! model_path example_settings "example" 1.
Proof.
  destruct (@fit_nn_classifier example_torch example_data 1 0 0 32 6 8 16 None
              (Some (model_path example_settings "example" 0)) example_kwargs
              empty_world) as [[fitted w']|e] eqn:Hfit.
  - exists fitted, w'. split; [reflexivity|].
    exact (@fold_checkpoints_are_separate example_torch example_settings "example"
             example_data 1 0 0 1 32 6 8 16 None example_kwargs empty_world fitted w'
             ltac:(discriminate) Hfit).
  - vm_compute in Hfit. discriminate.
Defined.

(** ** [predict]: the average of the folds *)

Lemma sum_cons (x : R) (l : list R) : sum (x :: l) = x + sum l.
Proof. reflexivity. Qed.

Lemma sum_map_div (f : R -> R) (d : R) (l : list R) :
  sum (map (fun x => f x / d) l) = sum (map f l) / d.
Proof.
  induction l as [|x l IH]; cbn [map].
  - unfold sum, Rdiv. cbn. ring.
  - rewrite !sum_cons, IH. unfold Rdiv. ring.
Qed.

Lemma softmax_sum (logits : list R) : logits <> [] -> sum (softmax logits) = 1.
Proof.
  intros Hne. unfold softmax. rewrite (sum_map_div exp).
  assert (Hpos : 0 < sum (map exp logits)).
  { destruct logits as [|x l]; [contradiction|]. apply (exp_sum_pos _ x). now left. }
  field. lra.
Qed.

Lemma softmax_stacked (k : nat) (scores : list (list R)) :
  (0 < k)%nat -> Forall (fun row => length row = k) scores ->
  stacked 1 k (map softmax scores).
Proof.
  intros Hk Hs. unfold stacked. apply Forall_map.
  eapply Forall_impl; [|exact Hs]. intros row Hrow. cbv beta in Hrow |- *.
  split; [now rewrite softmax_length|]. split; [apply softmax_positive|].
  apply softmax_sum. destruct row; [cbn in Hrow; lia|discriminate].
Qed.

Lemma zip_plus_row (a b : list R) :
  length a = length b ->
  length (zip_with Rplus a b) = length a
  /\ sum (zip_with Rplus a b) = sum a + sum b
  /\ (Forall (fun p => 0 < p) a -> Forall (fun p => 0 < p) b ->
      Forall (fun p => 0 < p) (zip_with Rplus a b)).
Proof.
  revert b. induction a as [|x a IH]; intros [|y b] Hlen; try discriminate.
  - repeat split; [unfold sum; cbn; lra|constructor].
  - injection Hlen as Hlen. destruct (IH b Hlen) as (H1 & H2 & H3).
    cbn [zip_with length]. rewrite !sum_cons, H1, H2.
    repeat split; [lra|].
    intros Ha Hb. inversion Ha; inversion Hb; subst.
    constructor; [lra|auto].
Qed.

Lemma add_rows_stacked (s t : R) (k : nat) (a b : list (list R)) :
  length a = length b -> stacked s k a -> stacked t k b ->
  length (add_rows a b) = length a /\ stacked (s + t) k (add_rows a b).
Proof.
  unfold stacked, add_rows. revert b.
  induction a as [|x a IH]; intros [|y b] Hlen Ha Hb; try discriminate.
  - split; [reflexivity|constructor].
  - injection Hlen as Hlen.
    inversion Ha as [|? ? (Hx1 & Hx2 & Hx3) Ha']; subst.
    inversion Hb as [|? ? (Hy1 & Hy2 & Hy3) Hb']; subst.
    destruct (IH b Hlen Ha' Hb') as [H1 H2].
    destruct (zip_plus_row x y) as (Hz1 & Hz2 & Hz3); [congruence|].
    cbn [zip_with length]. split; [now rewrite H1|].
    constructor; [|exact H2].
    split; [exact Hz1|]. split; [now apply Hz3|now rewrite Hz2].
Qed.

Lemma mean_stacked (n : nat) (k : nat) (total : list (list R)) :
  (0 < n)%nat -> stacked (INR n) k total ->
  stacked 1 k (map (map (fun x => x / INR n)) total).
Proof.
  intros Hn Ht. apply lt_0_INR in Hn. unfold stacked in *. apply Forall_map.
  eapply Forall_impl; [|exact Ht]. intros row (H1 & H2 & H3). cbv beta.
  split; [now rewrite length_map|]. split.
  - apply Forall_map. eapply Forall_impl; [|exact H2].
    intros p Hp. cbv beta in Hp |- *. apply Rdiv_lt_0_compat; assumption.
  - rewrite (sum_map_div (fun x => x)), map_id, H3. field. lra.
Qed.

(** The state of the loop of [NNClassifier.predict] after some folds. *)
Lemma predict_folds_stacked `{Torch} (k : nat) (features : list feature_row) :
  (0 < k)%nat ->
  (forall params X,
     length (forward_eval params X) = length X
     /\ Forall (fun row => length row = k) (forward_eval params X)) ->
  forall classifiers prev acc w0 prev' acc' w1 (j : nat),
    predict_folds features classifiers (prev, acc, w0) = Return (prev', acc', w1) ->
    match acc with
    | None => j = 0%nat
    | Some total => length total = length features /\ stacked (INR j) k total
    end ->
    w_files w1 = w_files w0
    /\ match acc' with
       | None => classifiers = [] /\ acc = None
       | Some total =>
           length total = length features
           /\ stacked (INR (j + length classifiers)) k total
       end.
Proof.
  intros Hk Hshape. induction classifiers as [|c classifiers IH];
    intros prev acc w0 prev' acc' w1 j Hrun Hacc.
  - cbn [predict_folds] in Hrun. injection Hrun as <- <- <-.
    split; [reflexivity|]. destruct acc as [total|]; [|now split].
    cbn [length]. now rewrite Nat.add_0_r.
  - cbn [predict_folds] in Hrun.
    destruct (predict_fold features c (prev, acc, w0)) as [[[p1 a1] w2]|e] eqn:Hfold;
      cbn [bind] in Hrun; [|discriminate].
    apply predict_fold_Return in Hfold
      as (stored & classifier & w2' & _ & _ & _ & Hst & Hfiles).
    injection Hst as -> -> ->.
    destruct (Hshape stored (map (map nan_to_num) features)) as [Hrows Hwidth].
    rewrite length_map in Hrows.
    pose proof (softmax_stacked k _ Hk Hwidth) as Hsoft.
    apply (IH _ _ _ _ _ _ (S j)) in Hrun as [Hf Hres].
    + split; [congruence|].
      destruct acc' as [total'|]; [|destruct Hres as [_ Hres]; discriminate].
      cbn [length]. now replace (j + S (length classifiers))%nat
                         with (S j + length classifiers)%nat by lia.
    + destruct acc as [total|].
      * destruct Hacc as [Hlen Hstack].
        destruct (add_rows_stacked (INR j) 1 k total
                    (map softmax (forward_eval stored (map (map nan_to_num) features))))
          as [H1 H2]; [now rewrite length_map, Hrows|assumption..|].
        split; [congruence|]. rewrite S_INR. exact H2.
      * subst j. split; [now rewrite length_map|]. exact Hsoft.
Qed.

(** X22. When every network gives one row of [k >= 1] logits per object,
    the table [NNClassifier.predict] returns is a table of probabilities:
    one row per object, [k] cells per row, every cell positive and every
    row summing to [1]; and [predict] leaves the files as they are. *)
Theorem NNClassifier_predict_probabilities `{Torch} `{DatasetOps}
    (self : classifier_setup) (nn : nn_setup) (trained : nn_trained)
    (dataset : Dataset) (w : world) (table : DataFrame) (w' : world) (k : nat) :
  (0 < k)%nat ->
  (forall params X,
     length (forward_eval params X) = length X
     /\ Forall (fun row => length row = k) (forward_eval params X)) ->
  NNClassifier_predict self nn trained dataset w = Return (table, w') ->
  length (rows table) = length (select_features dataset (use_featurizer self))
  /\ stacked 1 k (rows table)
  /\ w_files w' = w_files w.
Proof.
  intros Hk Hshape Hrun. unfold NNClassifier_predict in Hrun.
  destruct (predict_folds _ (nn_classifiers trained) (None, None, w))
    as [[[prev acc] w1]|e] eqn:Hfolds; cbn [bind] in Hrun; [|discriminate].
  destruct acc as [total|]; [|discriminate].
  injection Hrun as <- <-. cbn [rows].
  assert (Hn : (0 < length (nn_classifiers trained))%nat).
  { destruct (nn_classifiers trained); [discriminate|cbn; lia]. }
  apply (predict_folds_stacked k _ Hk Hshape _ _ _ _ _ _ _ 0%nat) in Hfolds
    as [Hfiles [Hlen Hstack]]; [|reflexivity].
  split; [now rewrite length_map|]. split; [|exact Hfiles].
  now apply mean_stacked.
Qed.

Lemma NNClassifier_predict_probabilities_witness :
  exists table w',
    @NNClassifier_predict example_torch example_dataset_ops example_setup
      (example_nn_setup 0) example_nn_trained three_objects example_checkpoints
    = Return (table, w')
    /\ length (rows table) = 3%nat
    /\ stacked 1 2 (rows table).
Proof.
  destruct (@NNClassifier_predict example_torch example_dataset_ops example_setup
              (example_nn_setup 0) example_nn_trained three_objects
              example_checkpoints) as [[table w']|e] eqn:Hrun.
  - exists table, w'. split; [reflexivity|].
    destruct (@NNClassifier_predict_probabilities example_torch example_dataset_ops
                example_setup (example_nn_setup 0) example_nn_trained three_objects
                example_checkpoints table w' 2) as (H1 & H2 & _).
    + lia.
    + intros params X. cbn. split; [apply length_map|].
      apply Forall_map, Forall_forall. reflexivity.
    + exact Hrun.
    + split; [exact H1|exact H2].
  - exfalso. revert Hrun. unfold NNClassifier_predict.
    cbn [example_nn_trained nn_classifiers predict_folds predict_fold
         example_config model String.eqb Ascii.eqb Bool.eqb orb bind
         example_checkpoints w_files w_rng w_trace init_net example_torch].
    rewrite lookup_insert_eq. cbn [bind predict_folds predict_fold
         example_config model String.eqb Ascii.eqb Bool.eqb orb
         w_files w_rng w_trace init_net example_torch].
    rewrite lookup_insert_ne by discriminate. rewrite lookup_insert_eq.
    cbn [bind]. discriminate.
Defined.

(** ** [LightGBMClassifier.predict] *)

Lemma iadd_row_same (a b : list R) :
  length b = length a -> iadd_row a b = Return (zip_with Rplus a b).
Proof. intros Hlen. unfold iadd_row. now rewrite Hlen, Nat.eqb_refl. Qed.

Lemma iadd_same_shape (k : nat) (a b : list (list R)) :
  length b = length a ->
  Forall (fun row => length row = k) a -> Forall (fun row => length row = k) b ->
  iadd a b = Return (add_rows a b).
Proof.
  intros Hlen Ha Hb. unfold iadd, add_rows. rewrite Hlen, Nat.eqb_refl. clear Hlen.
  revert b Hb. induction Ha as [|x a Hx _ IH]; intros b Hb.
  - destruct b; reflexivity.
  - destruct Hb as [|y b Hy Hb]; [reflexivity|].
    cbn [zip_with sequence]. rewrite iadd_row_same by congruence. cbn [bind].
    now rewrite (IH b Hb).
Qed.

Lemma stacked_width (s : R) (k : nat) (table : list (list R)) :
  stacked s k table -> Forall (fun row => length row = k) table.
Proof.
  intros H. eapply Forall_impl; [|exact H]. intros row Hrow. apply Hrow.
Qed.

(** The state of the loop of [LightGBMClassifier.predict] after some folds. *)
Lemma lgb_predict_folds_stacked `{LightGBMScores} (k : nat)
    (features : list feature_row) :
  (0 < k)%nat ->
  (forall c X,
     length (predict_raw_score c X) = length X
     /\ Forall (fun row => length row = k) (predict_raw_score c X)) ->
  forall classifiers acc (j : nat),
    match acc with
    | None => j = 0%nat
    | Some total => length total = length features /\ stacked (INR j) k total
    end ->
    exists acc',
      lgb_predict_folds features classifiers acc = Return acc'
      /\ match acc' with
         | None => classifiers = [] /\ acc = None
         | Some total =>
             length total = length features
             /\ stacked (INR (j + length classifiers)) k total
         end.
Proof.
  intros Hk Hshape. induction classifiers as [|c classifiers IH]; intros acc j Hacc.
  - exists acc. split; [reflexivity|]. destruct acc as [total|]; [|now split].
    cbn [length]. now rewrite Nat.add_0_r.
  - cbn [lgb_predict_folds].
    destruct (Hshape c features) as [Hrows Hwidth].
    pose proof (softmax_stacked k _ Hk Hwidth) as Hsoft.
    assert (Hnext : exists total,
              match acc with
              | None => Return (map softmax (predict_raw_score c features))
              | Some t => iadd t (map softmax (predict_raw_score c features))
              end = Return total
              /\ length total = length features
              /\ stacked (INR (S j)) k total).
    { destruct acc as [t|].
      - destruct Hacc as [Hlen Hstack].
        rewrite (iadd_same_shape k);
          [|now rewrite length_map, Hrows|now apply (stacked_width (INR j))
           |now apply (stacked_width 1)].
        destruct (add_rows_stacked (INR j) 1 k t
                    (map softmax (predict_raw_score c features)))
          as [H1 H2]; [now rewrite length_map, Hrows|assumption..|].
        eexists. split; [reflexivity|]. split; [congruence|].
        rewrite S_INR. exact H2.
      - subst j. eexists. split; [reflexivity|].
        split; [now rewrite length_map|exact Hsoft]. }
    destruct Hnext as (total & -> & Hlen & Hstack). cbn [bind].
    destruct (IH (Some total) (S j) (conj Hlen Hstack)) as (acc' & Hrun & Hres).
    exists acc'. split; [exact Hrun|].
    destruct acc' as [total'|]; [|destruct Hres as [_ Hres]; discriminate].
    cbn [length]. now replace (j + S (length classifiers))%nat
                       with (S j + length classifiers)%nat by lia.
Qed.

(** X23. When every tree classifier gives one row of raw scores per object
    with one score per column of the out-of-fold table ([k >= 1] of them),
    [LightGBMClassifier.predict] on an ensemble that is not empty returns a
    table of probabilities with those columns: one row per object, every
    cell positive, every row summing to [1]. *)
Theorem LightGBMClassifier_predict_probabilities `{DatasetOps} `{LightGBMScores}
    (self : classifier_setup) (trained : lgb_trained) (dataset : Dataset) (k : nat) :
  (0 < k)%nat ->
  lgb_classifiers trained <> [] ->
  length (columns (lgb_train_predictions trained)) = k ->
  (forall c X,
     length (predict_raw_score c X) = length X
     /\ Forall (fun row => length row = k) (predict_raw_score c X)) ->
  exists table,
    LightGBMClassifier_predict self trained dataset = Return table
    /\ columns table = columns (lgb_train_predictions trained)
    /\ length (rows table) = length (select_features dataset (use_featurizer self))
    /\ stacked 1 k (rows table).
Proof.
  intros Hk Hne Hcols Hshape. unfold LightGBMClassifier_predict.
  destruct (lgb_predict_folds_stacked k
              (select_features dataset (use_featurizer self)) Hk Hshape
              (lgb_classifiers trained) None 0%nat eq_refl) as (acc & -> & Hacc).
  cbn [bind]. destruct acc as [total|]; [|destruct Hacc as [Hnil _]; contradiction].
  destruct Hacc as [Hlen Hstack]. cbn [Nat.add] in Hstack.
  assert (Hn : (0 < length (lgb_classifiers trained))%nat).
  { destruct (lgb_classifiers trained); [contradiction|cbn; lia]. }
  pose proof (mean_stacked _ k total Hn Hstack) as Hmean.
  assert (Hcheck : forallb (fun row => (length row
                                        =? length (columns (lgb_train_predictions trained)))%nat)
                     (map (map (fun x => x / INR (length (lgb_classifiers trained)))) total)
                   = true).
  { apply forallb_forall. intros row Hrow. apply Nat.eqb_eq. rewrite Hcols.
    pose proof (stacked_width 1 k _ Hmean) as Hw. rewrite Forall_forall in Hw.
    now apply Hw. }
  rewrite Hcheck. eexists. split; [reflexivity|]. cbn [columns rows].
  split; [reflexivity|]. split; [now rewrite length_map|exact Hmean].
Qed.

Lemma LightGBMClassifier_predict_probabilities_witness :
  exists table,
    @LightGBMClassifier_predict example_dataset_ops example_lightgbm
      example_lightgbm_scores example_setup example_lgb_trained three_objects
    = Return table
    /\ columns table = [1; 2]%Z
    /\ length (rows table) = 3%nat
    /\ stacked 1 2 (rows table).
Proof.
  apply (@LightGBMClassifier_predict_probabilities example_dataset_ops
           example_lightgbm example_lightgbm_scores example_setup
           example_lgb_trained three_objects 2).
  - lia.
  - discriminate.
  - reflexivity.
  - intros c X. cbn. split; [apply length_map|].
    apply Forall_map, Forall_forall. reflexivity.
Defined.

(** ** [predict] on an ensemble without classifiers *)

Lemma sequence_Raise {A : Type} (l : list (result A)) (e : exn) :
  sequence l = Raise e -> In (Raise e) l.
Proof.
  induction l as [|m l IH]; [discriminate|]. cbn [sequence].
  destruct m as [x|e']; cbn [bind].
  - destruct (sequence l) as [xs|e'']; cbn [bind]; [discriminate|].
    intros [= ->]. right. now apply IH.
  - intros [= ->]. now left.
Qed.

Lemma iadd_row_Raise (a b : list R) (e : exn) :
  iadd_row a b = Raise e -> e = ValueError.
Proof.
  unfold iadd_row. destruct (length b =? length a)%nat; [discriminate|].
  destruct b as [|y [|y' b]]; try discriminate; now intros [= <-].
Qed.

Lemma In_zip_with {A B C : Type} (f : A -> B -> C) (xs : list A) (ys : list B) (z : C) :
  In z (zip_with f xs ys) -> exists x y, z = f x y.
Proof.
  revert ys. induction xs as [|x xs IH]; intros [|y ys] Hin; try contradiction.
  destruct Hin as [<-|Hin]; [eauto|]. now apply (IH ys).
Qed.

Lemma iadd_Raise (a b : list (list R)) (e : exn) :
  iadd a b = Raise e -> e = ValueError.
Proof.
  unfold iadd. destruct (length b =? length a)%nat.
  - intros Hs. apply sequence_Raise, In_zip_with in Hs as (x & y & Hxy).
    symmetry in Hxy. now apply iadd_row_Raise in Hxy.
  - destruct b as [|row [|row' b]]; try (now intros [= <-]).
    intros Hs. apply sequence_Raise, in_map_iff in Hs as (r & Hr & _).
    now apply iadd_row_Raise in Hr.
Qed.

Lemma lgb_predict_folds_result `{LightGBMScores} features classifiers acc :
  match lgb_predict_folds features classifiers acc with
  | Return None => classifiers = [] /\ acc = None
  | Return (Some _) => True
  | Raise e => e = ValueError
  end.
Proof.
  revert acc. induction classifiers as [|c classifiers IH]; intros acc.
  - cbn [lgb_predict_folds]. destruct acc; [exact I|now split].
  - cbn [lgb_predict_folds].
    destruct (match acc with
              | None => Return (map softmax (predict_raw_score c features))
              | Some t => iadd t (map softmax (predict_raw_score c features))
              end) as [total|e] eqn:Hnext; cbn [bind].
    + specialize (IH (Some total)).
      destruct (lgb_predict_folds features classifiers (Some total)) as [[t|]|e];
        [exact I|destruct IH as [_ IH]; discriminate|exact IH].
    + destruct acc as [t|]; [|discriminate]. now apply iadd_Raise in Hnext.
Qed.

Lemma predict_fold_Raise `{Torch} features c st e :
  predict_fold features c st = Raise e ->
  e = UnboundLocalError \/ e = FileNotFoundError.
Proof.
  destruct st as [[classifier acc] w], c as [path cfg]. unfold predict_fold.
  destruct (String.eqb (model cfg) "ft" || String.eqb (model cfg) "mlp").
  - destruct (init_net cfg (w_rng w)) as [params g]. cbn [bind w_files].
    destruct (w_files w !! path); [discriminate|]. intros [= <-]. now right.
  - destruct classifier as [old|]; cbn [bind].
    + destruct (w_files w !! path); [discriminate|]. intros [= <-]. now right.
    + intros [= <-]. now left.
Qed.

Lemma predict_folds_result `{Torch} features classifiers prev acc w :
  match predict_folds features classifiers (prev, acc, w) with
  | Return (_, None, _) => classifiers = [] /\ acc = None
  | Return (_, Some _, _) => True
  | Raise e => e = UnboundLocalError \/ e = FileNotFoundError
  end.
Proof.
  revert prev acc w. induction classifiers as [|c classifiers IH]; intros prev acc w.
  - cbn [predict_folds]. destruct acc; [exact I|now split].
  - cbn [predict_folds].
    destruct (predict_fold features c (prev, acc, w)) as [[[p1 a1] w1]|e] eqn:Hfold;
      cbn [bind].
    + pose proof Hfold as Hf.
      apply predict_fold_Return in Hf as (stored & cl & w2 & _ & _ & _ & Hst & _).
      injection Hst as -> -> ->.
      match goal with
      | |- context [predict_folds features classifiers (?p, Some ?t, ?w0)] =>
          specialize (IH p (Some t) w0);
          destruct (predict_folds features classifiers (p, Some t, w0))
            as [[[p' [t'|]] w']|e]
      end; [exact I|destruct IH as [_ IH]; discriminate|exact IH].
    + now apply predict_fold_Raise in Hfold.
Qed.

(** X24. Both [predict] methods divide the sum of the folds by
    [len(self.classifiers)]: they raise ZeroDivisionError exactly when the
    ensemble has no classifier (before [train], or after a training with no
    fold). *)
Theorem predict_empty_ensemble `{Torch} `{DatasetOps} `{LightGBMScores}
    (self : classifier_setup) (nn : nn_setup) (nn_fitted : nn_trained)
    (lgb_fitted : lgb_trained) (dataset : Dataset) (w : world) :
  (NNClassifier_predict self nn nn_fitted dataset w = Raise ZeroDivisionError
   <-> nn_classifiers nn_fitted = [])
  /\ (LightGBMClassifier_predict self lgb_fitted dataset = Raise ZeroDivisionError
      <-> lgb_classifiers lgb_fitted = []).
Proof.
  split; split.
  - unfold NNClassifier_predict. intros Hr.
    pose proof (predict_folds_result
                  (select_features dataset (use_featurizer self))
                  (nn_classifiers nn_fitted) None None w) as Hres.
    destruct (predict_folds _ (nn_classifiers nn_fitted) (None, None, w))
      as [[[p [t|]] w1]|e]; cbn [bind] in Hr.
    + discriminate.
    + apply Hres.
    + injection Hr as ->. destruct Hres; discriminate.
  - intros Hnil. unfold NNClassifier_predict. now rewrite Hnil.
  - unfold LightGBMClassifier_predict. intros Hr.
    pose proof (lgb_predict_folds_result
                  (select_features dataset (use_featurizer self))
                  (lgb_classifiers lgb_fitted) None) as Hres.
    destruct (lgb_predict_folds _ (lgb_classifiers lgb_fitted) None)
      as [[t|]|e]; cbn [bind] in Hr.
    + destruct (forallb _ _); discriminate.
    + apply Hres.
    + injection Hr as ->. discriminate.
  - intros Hnil. unfold LightGBMClassifier_predict. now rewrite Hnil.
Qed.

(** ** [Classifier.write] and [Classifier.load] *)

Lemma path_join_inj (a x y : string) : path_join a x = path_join a y -> x = y.
Proof.
  unfold path_join. destruct (String.eqb a "" || ends_with_slash a); intros Heq.
  - now apply (inj (String.app _)) in Heq.
  - now do 2 apply (inj (String.app _)) in Heq.
Qed.

Lemma get_classifier_path_inj (settings : Settings) (x y : string) :
  get_classifier_path settings x = get_classifier_path settings y -> x = y.
Proof.
  unfold get_classifier_path. intros Heq.
  apply path_join_inj in Heq. apply (inj (String.app _)) in Heq.
  now apply string_app_inj_r in Heq.
Qed.

(** *** The directory that [write] makes *)

Lemma has_sep_app (a b : string) : has_sep (a ++ b) = has_sep a || has_sep b.
Proof.
  induction a as [|c a IH]; [reflexivity|].
  change (is_sep c || has_sep (a ++ b) = is_sep c || has_sep a || has_sep b).
  now rewrite IH, orb_assoc.
Qed.

Lemma head_of_no_sep (b : string) : has_sep b = false -> head_of b = ""%string.
Proof.
  destruct b as [|c b]; [reflexivity|].
  change (is_sep c || has_sep b = false
          -> (if has_sep b then String c (head_of b)
              else if is_sep c then String c "" else "")%string = ""%string).
  intros Hb. apply orb_false_iff in Hb as [-> ->]. reflexivity.
Qed.

Lemma head_of_app (a b : string) :
  has_sep b = false -> head_of (a ++ b) = head_of a.
Proof.
  intros Hb. induction a as [|c a IH].
  - change (head_of b = ""%string). now apply head_of_no_sep.
  - change ((if has_sep (a ++ b) then String c (head_of (a ++ b))
             else if is_sep c then String c "" else "")%string
            = (if has_sep a then String c (head_of a)
               else if is_sep c then String c "" else "")%string).
    now rewrite has_sep_app, Hb, orb_false_r, IH.
Qed.

Lemma head_of_ends_with_slash (a : string) :
  ends_with_slash a = true -> head_of a = a.
Proof.
  induction a as [|c a IH]; [discriminate|].
  destruct a as [|c' a'].
  - change (is_sep c = true
            -> (if is_sep c then String c "" else "")%string = String c "").
    now intros ->.
  - change (ends_with_slash (String c' a') = true
            -> (if has_sep (String c' a') then String c (head_of (String c' a'))
                else if is_sep c then String c "" else "")%string
               = String c (String c' a')).
    intros He. rewrite (IH He).
    assert (Hs : has_sep (String c' a') = true).
    { clear IH. revert c' He. induction a' as [|c2 a2 IH2]; intros c' He.
      - change (is_sep c' = true) in He.
        change (is_sep c' || false = true). now rewrite He.
      - change (ends_with_slash (String c2 a2) = true) in He.
        change (is_sep c' || has_sep (String c2 a2) = true).
        rewrite (IH2 c2 He). apply orb_true_r. }
    now rewrite Hs.
Qed.

Lemma all_sep_ends_with_slash (a : string) :
  a <> ""%string -> all_sep a = true -> ends_with_slash a = true.
Proof.
  induction a as [|c a IH]; [congruence|]. intros _ Ha.
  change (is_sep c && all_sep a = true) in Ha.
  apply andb_true_iff in Ha as [Hc Ha].
  destruct a as [|c' a']; [exact Hc|].
  change (ends_with_slash (String c' a') = true). now apply IH.
Qed.

Lemma rstrip_sep_app_sep (a : string) :
  rstrip_sep (a ++ "/") = rstrip_sep a.
Proof.
  induction a as [|c a IH]; [reflexivity|].
  change ((if String.eqb (rstrip_sep (a ++ "/")) "" && is_sep c
           then "" else String c (rstrip_sep (a ++ "/")))%string
          = (if String.eqb (rstrip_sep a) "" && is_sep c
             then "" else String c (rstrip_sep a))%string).
  now rewrite IH.
Qed.

Lemma all_sep_app (a b : string) : all_sep (a ++ b) = all_sep a && all_sep b.
Proof.
  induction a as [|c a IH]; [reflexivity|].
  change (is_sep c && all_sep (a ++ b) = is_sep c && all_sep a && all_sep b).
  now rewrite IH, andb_assoc.
Qed.

Lemma string_app_assoc (a b c : string) :
  ((a ++ b) ++ c = a ++ b ++ c)%string.
Proof.
  induction a as [|x a IH]; [reflexivity|].
  change (String x ((a ++ b) ++ c) = String x (a ++ b ++ c))%string.
  now rewrite IH.
Qed.

Lemma ends_with_slash_app_sep (a : string) : ends_with_slash (a ++ "/") = true.
Proof.
  induction a as [|c a IH]; [reflexivity|].
  destruct a as [|c' a']; [reflexivity|].
  change (ends_with_slash (String c' a' ++ "/") = true). exact IH.
Qed.

Lemma head_of_path_join (a b : string) :
  has_sep b = false ->
  head_of (path_join a b)
  = if String.eqb a "" then ""%string
    else if ends_with_slash a then a else (a ++ "/")%string.
Proof.
  intros Hb. unfold path_join.
  destruct (String.eqb_spec a "") as [->|Hne]; cbn [orb].
  - change (head_of b = ""%string). now apply head_of_no_sep.
  - destruct (ends_with_slash a) eqn:He.
    + rewrite head_of_app by exact Hb. now apply head_of_ends_with_slash.
    + rewrite <- string_app_assoc, head_of_app by exact Hb.
      apply head_of_ends_with_slash, ends_with_slash_app_sep.
Qed.

(** X28. [write] makes the classifier directory of the settings: for a
    name without a separator, the directory it passes to [os.makedirs] is
    [classifier_directory] without its trailing separators (as it is, when
    it is empty or made of separators only). *)
Theorem Classifier_write_directory (settings : Settings) (name : string) :
  has_sep name = false ->
  let directory := classifier_directory settings in
  dirname (get_classifier_path settings name)
  = if all_sep directory then directory else rstrip_sep directory.
Proof.
  intros Hname. cbv zeta.
  assert (Hb : has_sep ("classifier_" ++ name ++ ".pkl") = false).
  { rewrite !has_sep_app, Hname. reflexivity. }
  unfold get_classifier_path, dirname.
  rewrite (head_of_path_join _ _ Hb).
  generalize (classifier_directory settings). intros directory.
  destruct (String.eqb_spec directory "") as [->|Hne]; [reflexivity|].
  destruct (ends_with_slash directory) eqn:He.
  - destruct (String.eqb_spec directory "") as [?|_]; [contradiction|].
    cbn [negb andb]. now destruct (all_sep directory).
  - assert (Ha : all_sep directory = false).
    { destruct (all_sep directory) eqn:Ha; [|reflexivity].
      rewrite (all_sep_ends_with_slash directory Hne Ha) in He. discriminate. }
    assert (Hn : String.eqb (directory ++ "/") "" = false).
    { destruct directory; [congruence|reflexivity]. }
    rewrite Hn, all_sep_app, Ha. cbn [andb negb].
    now rewrite rstrip_sep_app_sep.
Qed.

Lemma Classifier_write_directory_witness :
  dirname (get_classifier_path example_settings "flat") = "classifiers"%string.
Proof.
  apply (Classifier_write_directory example_settings "flat"). reflexivity.
Defined.

Section PersistenceProperties.
Context {C : Type}.
Variable classifier_name : C -> string.
Variable settings : Settings.
Variable makedirs : string -> option store_exn.

(** X25. Round trip. Where the directory can be made, [write] succeeds
    exactly when [overwrite] is set or nothing is stored at the path of the
    classifier, and after a successful [write], [load] with the name of the
    classifier gives the classifier back. *)
Theorem Classifier_write_then_load (self : C) (overwrite : bool)
    (files : gmap string C) :
  let path := Classifier_path classifier_name settings self in
  let written :=
    Classifier_write classifier_name settings makedirs self overwrite files in
  makedirs (dirname path) = None ->
  (fst written = None <-> overwrite = true \/ files !! path = None)
  /\ (fst written = None ->
      Classifier_load settings (classifier_name self) (snd written) = inr self).
Proof.
  unfold Classifier_write, Classifier_load, Classifier_path.
  set (path := get_classifier_path settings (classifier_name self)).
  cbv zeta. intros ->.
  destruct (files !! path) as [old|] eqn:Hold; [destruct overwrite|]; cbn.
  - split; [split; auto|]. intros _. now rewrite lookup_insert_eq.
  - split; [split; [discriminate|intros [|]; discriminate]|discriminate].
  - split; [split; auto|]. intros _. now rewrite lookup_insert_eq.
Qed.

(** X26. Without [overwrite], [write] never changes or removes a file that
    exists: when something is stored at the path of the classifier it
    raises and leaves the files as they are (the exception names the path,
    where the directory could be made), and in every case each file that
    existed before holds what it held. *)
Theorem Classifier_write_keeps_existing (self : C) (files : gmap string C) :
  let path := Classifier_path classifier_name settings self in
  let written :=
    Classifier_write classifier_name settings makedirs self false files in
  (is_Some (files !! path) ->
   exists e, written = (Some e, files)
             /\ (makedirs (dirname path) = None -> e = AlreadyExists path))
  /\ forall p old, files !! p = Some old -> snd written !! p = Some old.
Proof.
  unfold Classifier_write, Classifier_path.
  set (path := get_classifier_path settings (classifier_name self)).
  cbv zeta. destruct (makedirs (dirname path)) as [e|].
  { split; [|auto]. intros _. exists e. split; [reflexivity|discriminate]. }
  destruct (files !! path) as [x|] eqn:Hx; cbn.
  - split; [|auto]. intros _. exists (AlreadyExists path). now split.
  - split; [intros [y Hy]; discriminate|].
    intros p old Hp. rewrite lookup_insert_ne; [exact Hp|].
    intros <-. congruence.
Qed.

(** X27. Classifiers of different names do not share a file: the path
    determines the name, so writing one classifier, with or without
    [overwrite], leaves what [load] gives for every other name as it
    was. *)
Theorem Classifier_write_other_names (self : C) (overwrite : bool)
    (files : gmap string C) (other : string) :
  classifier_name self <> other ->
  get_classifier_path settings other
  <> Classifier_path classifier_name settings self
  /\ Classifier_load settings other
       (snd (Classifier_write classifier_name settings makedirs self overwrite
               files))
     = Classifier_load settings other files.
Proof.
  intros Hne.
  assert (Hp : get_classifier_path settings other
               <> Classifier_path classifier_name settings self).
  { intros Heq. apply Hne. symmetry.
    now apply (get_classifier_path_inj settings). }
  split; [exact Hp|].
  unfold Classifier_write, Classifier_load. unfold Classifier_path in *.
  set (path := get_classifier_path settings (classifier_name self)) in *.
  destruct (makedirs (dirname path)); [reflexivity|].
  destruct (files !! path) as [x|]; [destruct overwrite|]; cbn;
    rewrite ?lookup_insert_ne, ?lookup_delete_ne by congruence; reflexivity.
Qed.

End PersistenceProperties.

Lemma Classifier_write_then_load_witness :
  Classifier_load example_settings "flat"
    (snd (Classifier_write fst example_settings example_makedirs
            (example_classifier "flat" 7) false ∅))
  = inr (example_classifier "flat" 7).
Proof.
  assert (Hdir : example_makedirs
                   (dirname (Classifier_path fst example_settings
                               (example_classifier "flat" 7))) = None)
    by reflexivity.
  apply (proj2 (Classifier_write_then_load fst example_settings example_makedirs
                  (example_classifier "flat" 7) false ∅ Hdir)).
  apply (proj1 (Classifier_write_then_load fst example_settings example_makedirs
                  (example_classifier "flat" 7) false ∅ Hdir)).
  right. apply lookup_empty.
Defined.

Lemma Classifier_write_keeps_existing_witness :
  let files : gmap string (string * nat) :=
    {[ get_classifier_path example_settings "flat" := example_classifier "flat" 7 ]} in
  exists e,
    Classifier_write fst example_settings example_makedirs
      (example_classifier "flat" 8) false files = (Some e, files)
    /\ e = AlreadyExists (get_classifier_path example_settings "flat").
Proof.
  intros files.
  destruct (proj1 (Classifier_write_keeps_existing fst example_settings
                     example_makedirs (example_classifier "flat" 8) files))
    as (e & He & Hpath).
  { exists (example_classifier "flat" 7). apply lookup_singleton_eq. }
  exists e. split; [exact He|]. apply Hpath. reflexivity.
Defined.

Lemma Classifier_write_other_names_witness :
  Classifier_load example_settings "redshift"
    (snd (Classifier_write fst example_settings example_makedirs
            (example_classifier "flat" 7) true ∅))
  = Classifier_load example_settings "redshift" (∅ : gmap string (string * nat)).
Proof.
  apply (proj2 (Classifier_write_other_names fst example_settings example_makedirs
                  (example_classifier "flat" 7) true ∅ "redshift"
                  ltac:(discriminate))).
Defined.
